(** * misterm: token grammar, windowing, generation loop and score
    reconstruction

    A shallow embedding of [lstm.py] (corpus extraction and training
    windows) and [predict.py] (seed selection, autoregressive generation,
    token decoding and instrument resolution), with the properties of the
    encoding / windowing / decoding pipeline stated over it.

    Conventions of the embedding:
    - a Python [str] is a [string]; its characters are code points below 256;
    - an [int] is unbounded, and so are its conversions from and to text: the
      interpreters the modules were written for put no limit on their digits;
    - a raised exception is the [Raise] branch of [result], tagged with the
      Python exception class;
    - the random sources ([random.randint], [numpy.random.randint]) read
      their raw draws from an explicit [Rng];
    - music21 and keras objects appear only through the attributes the two
      modules read or write; building a note or a chord from pitch names and
      writing its attributes are taken to succeed;
    - the calls that regroup and write the score, and the calls that supply
      and pick the words of the file name, are the fields of
      [Predict.Library]: each returns or raises, and nothing else is known
      of them;
    - the window length and the step count, constants of the source (100,
      64 and 500), are parameters of the loops, instantiated at those
      values in the functions that carry the source's names. *)

From Stdlib Require Import List String Ascii ZArith QArith Lia Bool Arith.
From Stdlib Require Import DecimalString DecimalPos DecimalZ Orders Mergesort Permutation.
From Stdlib Require Import Sorted OrderedTypeEx.
Import ListNotations.

Close Scope Q_scope.
Close Scope Z_scope.
Open Scope nat_scope.
Open Scope list_scope.
Open Scope string_scope.

(** ** Exceptions *)

Inductive exn : Type :=
| IndexError
| KeyError
| ValueError
| NameError
| AttributeError
| ZeroDivisionError
| OverflowError
| TypeError
| OtherError (class_name : string).

Inductive result (A : Type) : Type :=
| Ok (a : A)
| Raise (e : exn).

Arguments Ok {A} a.
Arguments Raise {A} e.

Definition bind {A B : Type} (m : result A) (k : A -> result B) : result B :=
  match m with
  | Ok a => k a
  | Raise e => Raise e
  end.

Notation "x <- m ;; k" := (bind m (fun x => k))
  (at level 61, m at next level, right associativity).
Notation "' p <- m ;; k" := (bind m (fun x => match x with p => k end))
  (at level 61, p pattern, m at next level, right associativity).

Definition of_option {A : Type} (e : exn) (o : option A) : result A :=
  match o with
  | Some a => Ok a
  | None => Raise e
  end.

(** [[f(x) for x in xs]] with a fallible [f]: the first exception aborts. *)
Fixpoint mapM {A B : Type} (f : A -> result B) (xs : list A) : result (list B) :=
  match xs with
  | [] => Ok []
  | x :: xs' => y <- f x ;; ys <- mapM f xs' ;; Ok (y :: ys)
  end.

Definition is_ok {A : Type} (m : result A) : bool :=
  match m with
  | Ok _ => true
  | Raise _ => false
  end.

(** ** Python sequence primitives *)

Module Py.

(** [xs[i]] for [0 <= i]. *)
Definition index {A : Type} (xs : list A) (i : nat) : result A :=
  of_option IndexError (nth_error xs i).

(** [xs[-k]] for [1 <= k]. *)
Definition index_neg {A : Type} (xs : list A) (k : nat) : result A :=
  if (k <=? List.length xs)%nat then index xs (List.length xs - k) else Raise IndexError.

(** [xs[i:j]] for [0 <= i], [0 <= j]; slices never raise. *)
Definition slice {A : Type} (xs : list A) (i j : nat) : list A :=
  firstn (j - i) (skipn i xs).

(** [xs[i:-k]] for [0 <= i], [1 <= k]. *)
Definition slice_to_neg {A : Type} (xs : list A) (i k : nat) : list A :=
  slice xs i (List.length xs - k).

(** [str.isspace] on one character, as used by [str.split()]. *)
Definition is_space (c : ascii) : bool :=
  let n := nat_of_ascii c in
  ((9 <=? n) && (n <=? 13) || (28 <=? n) && (n <=? 32)
   || (n =? 133) || (n =? 160))%nat.

Fixpoint no_space (s : string) : bool :=
  match s with
  | EmptyString => true
  | String c s' => negb (is_space c) && no_space s'
  end.

Definition str_is_empty (s : string) : bool :=
  match s with
  | EmptyString => true
  | String _ _ => false
  end.

(** [s.split()]: maximal runs of non-whitespace characters. [cur] is the
    run being read. *)
Fixpoint split_ws_from (cur s : string) : list string :=
  match s with
  | EmptyString => if str_is_empty cur then [] else [cur]
  | String c s' =>
      if is_space c
      then (if str_is_empty cur then split_ws_from "" s'
            else cur :: split_ws_from "" s')
      else split_ws_from (cur ++ String c "") s'
  end.

Definition split (s : string) : list string := split_ws_from "" s.

(** [s.split(sep)] for a one-character separator: empty pieces are kept. *)
Fixpoint split_on_from (sep : ascii) (cur s : string) : list string :=
  match s with
  | EmptyString => [cur]
  | String c s' =>
      if Ascii.eqb c sep then cur :: split_on_from sep "" s'
      else split_on_from sep (cur ++ String c "") s'
  end.

Definition split_on (sep : ascii) (s : string) : list string :=
  split_on_from sep "" s.

(** [c in s]. *)
Fixpoint contains (c : ascii) (s : string) : bool :=
  match s with
  | EmptyString => false
  | String c' s' => Ascii.eqb c' c || contains c s'
  end.

(** [sep.join(xs)]. *)
Fixpoint join (sep : string) (xs : list string) : string :=
  match xs with
  | [] => ""
  | [x] => x
  | x :: xs' => x ++ sep ++ join sep xs'
  end.

(** [s.lower()] on code points below 256: the letters [A] to [Z] and the
    accented capitals [0xC0] to [0xDE], the sign [0xD7] apart. *)
Definition lower_char (c : ascii) : ascii :=
  let n := nat_of_ascii c in
  if ((65 <=? n) && (n <=? 90)
      || (192 <=? n) && (n <=? 222) && negb (n =? 215))%nat
  then ascii_of_nat (n + 32) else c.

Fixpoint lower (s : string) : string :=
  match s with
  | EmptyString => EmptyString
  | String c s' => String (lower_char c) (lower s')
  end.

(** [str(n)] for an [int]. *)
Definition str_of_int (z : Z) : string := NilZero.string_of_int (Z.to_int z).

(** [str(x)] for an attribute that is an [int] or [None]. *)
Definition str_of_opt_int (o : option Z) : string :=
  match o with
  | Some z => str_of_int z
  | None => "None"
  end.

End Py.

(** ** Tokens

    [lstm.py] renders every event with ['%s %s %s %s' % (iid, pitches,
    quarterLength, offset)]; [predict.py] reads it back with
    [parts = pattern.split()] and
    [(parts[0], parts[1:-2], parts[-2], parts[-1])]. *)

Abbreviation token := string (only parsing).

(** The four [%s] arguments of an event, already rendered: the pitch names
    are [str(pitch)], the duration is [str(quarterLength)] (a float or a
    [Fraction]) and the offset is [str(offset)]. *)
Record MusicalEvent : Type := mkEvent {
  instrument_id : Z;
  pitches : list string;
  duration : string;
  offset : string
}.

(** ['%s %s %s %s' % (a, b, c, d)] on rendered arguments. *)
Definition format4 (a b c d : string) : token :=
  a ++ " " ++ b ++ " " ++ c ++ " " ++ d.

(** lstm.py, lines 58, 64 and 66: a note is the one-pitch case of the chord
    line, [' '.join] of a single name being that name. *)
Definition encode_with (iid : string) (ps : list string) (ql off : string) : token :=
  format4 iid (Py.join " " ps) ql off.

Definition encode (e : MusicalEvent) : token :=
  encode_with (Py.str_of_int (instrument_id e)) (pitches e) (duration e) (offset e).

(** predict.py, lines 149-150. *)
Definition decode_token (pattern : token)
  : result (string * list string * string * string) :=
  let parts := Py.split pattern in
  _instrument <- Py.index parts 0 ;;
  let _notes := Py.slice_to_neg parts 1 2 in
  _duration <- Py.index_neg parts 2 ;;
  _offset <- Py.index_neg parts 1 ;;
  Ok (_instrument, _notes, _duration, _offset).

(** A rendered field of the grammar: non-empty, no whitespace inside. *)
Definition is_field (s : string) : bool :=
  negb (Py.str_is_empty s) && Py.no_space s.

(** The supported grammar of section 3: at least one pitch, every rendered
    field a single whitespace-free word. *)
Definition in_grammar (e : MusicalEvent) : Prop :=
  pitches e <> [] /\
  forallb is_field (pitches e) = true /\
  is_field (duration e) = true /\
  is_field (offset e) = true.


(** ** Python numeric literals *)

Module Num.

(** A Python [float]. A finite value is the exact rational its literal or
    quotient denotes, kept in lowest terms so that equal values are equal
    terms: rounding to the nearest binary64 inside the range of the floats
    is outside the embedding, and so is the sign of a zero. The range is
    inside it: see [overflows] and [underflows] below. *)
Inductive pyfloat : Type :=
| Finite (q : Q)
| Inf (negative : bool)
| NaN.

(** The whitespace that [float()] and [int()] strip: the characters of C's
    [isspace], and the two whitespace code points above 127, which the
    conversion first turns into blanks. The separators [0x1c] to [0x1f],
    which [str.split()] splits on, are not among them. *)
Definition is_space (c : ascii) : bool :=
  let n := nat_of_ascii c in
  ((9 <=? n) && (n <=? 13) || (n =? 32) || (n =? 133) || (n =? 160))%nat.

Definition digit_val (c : ascii) : option Z :=
  let n := nat_of_ascii c in
  if ((48 <=? n) && (n <=? 57))%nat then Some (Z.of_nat (n - 48)) else None.

Fixpoint lstrip (s : string) : string :=
  match s with
  | EmptyString => EmptyString
  | String c s' => if is_space c then lstrip s' else s
  end.

Fixpoint rstrip (s : string) : string :=
  match s with
  | EmptyString => EmptyString
  | String c s' =>
      let r := rstrip s' in
      if Py.str_is_empty r && is_space c then EmptyString else String c r
  end.

Definition strip (s : string) : string := rstrip (lstrip s).

(** [digit (["_"] digit)*]: [prev] tells whether the previous character was
    a digit. *)
Fixpoint digits_from (acc : Z) (prev : bool) (s : string) : option Z :=
  match s with
  | EmptyString => if prev then Some acc else None
  | String c s' =>
      if Ascii.eqb c "_" then (if prev then digits_from acc false s' else None)
      else match digit_val c with
           | Some d => digits_from (acc * 10 + d) true s'
           | None => None
           end
  end.

Definition unsigned_int (s : string) : option Z := digits_from 0 false s.

(** [int(s)] in base 10; [None] stands for [ValueError]. *)
Definition parse_int (s : string) : option Z :=
  match strip s with
  | String c r =>
      if Ascii.eqb c "+" then unsigned_int r
      else if Ascii.eqb c "-" then option_map Z.opp (unsigned_int r)
      else unsigned_int (String c r)
  | EmptyString => unsigned_int EmptyString
  end.

Definition int (s : string) : result Z := of_option ValueError (parse_int s).

Definition lower (c : ascii) : ascii :=
  let n := nat_of_ascii c in
  if ((65 <=? n) && (n <=? 90))%nat then ascii_of_nat (n + 32) else c.

Fixpoint lower_str (s : string) : string :=
  match s with
  | EmptyString => EmptyString
  | String c s' => String (lower c) (lower_str s')
  end.

(** The automaton reading [digitpart? ("." digitpart?)? ([eE] [+-]? digitpart)?]. *)
Inductive phase : Type := IntPart | FracPart | ExpSign | ExpPart.
Inductive last : Type := LNone | LDigit | LUnderscore.

Record fstate : Type := mkF {
  ph : phase;
  lst : last;
  mant : Z;
  nfrac : Z;
  seen : bool;
  eneg : bool;
  eabs : Z
}.

Definition fstart : fstate := mkF IntPart LNone 0 0 false false 0.

Definition is_underscore (l : last) : bool :=
  match l with LUnderscore => true | _ => false end.
Definition is_digit_last (l : last) : bool :=
  match l with LDigit => true | _ => false end.

Definition fstep (st : fstate) (c : ascii) : option fstate :=
  match ph st with
  | IntPart | FracPart =>
      match digit_val c with
      | Some d =>
          Some (mkF (ph st) LDigit (mant st * 10 + d)
                    (match ph st with FracPart => nfrac st + 1 | _ => nfrac st end)
                    true (eneg st) (eabs st))
      | None =>
          if Ascii.eqb c "_" then
            if is_digit_last (lst st)
            then Some (mkF (ph st) LUnderscore (mant st) (nfrac st) (seen st) (eneg st) (eabs st))
            else None
          else if Ascii.eqb c "." then
            match ph st with
            | IntPart =>
                if is_underscore (lst st) then None
                else Some (mkF FracPart LNone (mant st) (nfrac st) (seen st) (eneg st) (eabs st))
            | _ => None
            end
          else if Ascii.eqb (lower c) "e" then
            if seen st && negb (is_underscore (lst st))
            then Some (mkF ExpSign LNone (mant st) (nfrac st) (seen st) (eneg st) (eabs st))
            else None
          else None
      end
  | ExpSign =>
      if Ascii.eqb c "+" then
        Some (mkF ExpPart LNone (mant st) (nfrac st) (seen st) false 0)
      else if Ascii.eqb c "-" then
        Some (mkF ExpPart LNone (mant st) (nfrac st) (seen st) true 0)
      else match digit_val c with
           | Some d => Some (mkF ExpPart LDigit (mant st) (nfrac st) (seen st) false d)
           | None => None
           end
  | ExpPart =>
      match digit_val c with
      | Some d =>
          Some (mkF ExpPart LDigit (mant st) (nfrac st) (seen st) (eneg st) (eabs st * 10 + d))
      | None =>
          if Ascii.eqb c "_" then
            if is_digit_last (lst st)
            then Some (mkF ExpPart LUnderscore (mant st) (nfrac st) (seen st) (eneg st) (eabs st))
            else None
          else None
      end
  end.

Fixpoint frun (st : fstate) (s : string) : option fstate :=
  match s with
  | EmptyString => Some st
  | String c s' =>
      match fstep st c with
      | Some st' => frun st' s'
      | None => None
      end
  end.

Definition faccept (st : fstate) : bool :=
  match ph st with
  | IntPart | FracPart => seen st && negb (is_underscore (lst st))
  | ExpSign => false
  | ExpPart => is_digit_last (lst st)
  end.

Definition pow10 (e : Z) : Q :=
  if (0 <=? e)%Z then inject_Z (10 ^ e) else / inject_Z (10 ^ (- e)).

Definition fvalue (st : fstate) : Q :=
  let e := ((if eneg st then - eabs st else eabs st) - nfrac st)%Z in
  Qred (inject_Z (mant st) * pow10 e)%Q.

(** The least magnitude that rounds beyond the largest float,
    [2^1024 - 2^970]: half an ulp above it, the tie going up. *)
Definition overflow_bound : Z := (Z.shiftl 1 1024 - Z.shiftl 1 970)%Z.

(** [2^1075]: a magnitude of at most [2^-1075], half the least subnormal,
    rounds to zero. *)
Definition underflow_scale : Z := Z.shiftl 1 1075.

Definition overflows (q : Q) : bool :=
  (overflow_bound * Zpos (Qden q) <=? Z.abs (Qnum q))%Z.

Definition underflows (q : Q) : bool :=
  (Z.abs (Qnum q) * underflow_scale <=? Zpos (Qden q))%Z.

(** The float of a rational below the overflow bound. *)
Definition finite (q : Q) : pyfloat :=
  if underflows q then Finite 0 else Finite (Qred q).

(** The float of a literal that denotes [q]: [float('1e400')] is [inf] and
    [float('1e-400')] is [0.0]. *)
Definition of_literal (q : Q) : pyfloat :=
  if overflows q then Inf (Qnum q <? 0)%Z else finite q.

Definition unsigned_float (s : string) : option pyfloat :=
  let l := lower_str s in
  if (String.eqb l "inf" || String.eqb l "infinity")%bool then Some (Inf false)
  else if String.eqb l "nan" then Some NaN
  else match frun fstart s with
       | Some st => if faccept st then Some (of_literal (fvalue st)) else None
       | None => None
       end.

Definition fneg (x : pyfloat) : pyfloat :=
  match x with
  | Finite q => Finite (Qred (- q))
  | Inf b => Inf (negb b)
  | NaN => NaN
  end.

(** [float(s)]; [None] stands for [ValueError]. *)
Definition parse_float (s : string) : option pyfloat :=
  match strip s with
  | String c r =>
      if Ascii.eqb c "+" then unsigned_float r
      else if Ascii.eqb c "-" then option_map fneg (unsigned_float r)
      else unsigned_float (String c r)
  | EmptyString => unsigned_float EmptyString
  end.

(** [a / b] on two [int]s: true division. A quotient too large for a
    float raises [OverflowError] ([10**400 / 1]); one too small is [0.0]. *)
Definition truediv (a b : Z) : result pyfloat :=
  if (b =? 0)%Z then Raise ZeroDivisionError
  else let q := (inject_Z a / inject_Z b)%Q in
       if overflows q then Raise OverflowError else Ok (finite q).

(** [x / float(n)] elementwise in a numpy array: a zero divisor gives
    [nan] or [inf], not an exception. *)
Definition np_div (x : nat) (n : nat) : pyfloat :=
  match n with
  | O => match x with O => NaN | _ => Inf false end
  | _ => Finite (Qred (inject_Z (Z.of_nat x) / inject_Z (Z.of_nat n)))
  end.

End Num.

(** ** Dictionaries keyed by strings

    A [dict] keeps its keys in insertion order, and [create_midi] iterates
    over one: an association list with at most one entry per key. *)

Module Dict.

Definition t (V : Type) : Type := list (string * V).

Fixpoint get {V : Type} (d : t V) (k : string) : option V :=
  match d with
  | [] => None
  | (k', v) :: d' => if String.eqb k' k then Some v else get d' k
  end.

(** [k in d.keys()]. *)
Definition mem {V : Type} (d : t V) (k : string) : bool :=
  match get d k with
  | Some _ => true
  | None => false
  end.

(** [d[k] = v]: an existing key keeps its place. *)
Fixpoint set {V : Type} (d : t V) (k : string) (v : V) : t V :=
  match d with
  | [] => [(k, v)]
  | (k', v') :: d' =>
      if String.eqb k' k then (k', v) :: d' else (k', v') :: set d' k v
  end.

(** [d[k]]. *)
Definition lookup {V : Type} (d : t V) (k : string) : result V :=
  of_option KeyError (get d k).

Definition keys {V : Type} (d : t V) : list string := map fst d.

End Dict.

(** ** Random sources *)

(** The raw draws of a generator and the number of draws consumed. *)
Record Rng : Type := mkRng {
  draws : nat -> nat;
  pos : nat
}.

Definition next (g : Rng) : nat * Rng :=
  (draws g (pos g), mkRng (draws g) (S (pos g))).

(** [random.randint(a, b)]: an integer of [[a, b]], both ends included. *)
Definition randint (a b : Z) (g : Rng) : result (Z * Rng) :=
  if (b <? a)%Z then Raise ValueError
  else let (r, g') := next g in
       Ok ((a + Z.of_nat r mod (b - a + 1))%Z, g').

(** [numpy.random.randint(low, high)]: an integer of [[low, high)], the
    upper end excluded. *)
Definition np_randint (low high : Z) (g : Rng) : result (Z * Rng) :=
  if (high <=? low)%Z then Raise ValueError
  else let (r, g') := next g in
       Ok ((low + Z.of_nat r mod (high - low))%Z, g').

(** ** music21 objects *)

(** An instrument object, through the two attributes the modules read. *)
Record Instrument : Type := mkInstrument {
  instrumentName : option string;
  midiProgram : option Z
}.

(** [xs[i]] for an index computed as a Python [int]. *)
Definition index_Z {A : Type} (xs : list A) (i : Z) : result A :=
  if (i <? 0)%Z then Py.index_neg xs (Z.to_nat (- i)) else Py.index xs (Z.to_nat i).

Definition len {A : Type} (xs : list A) : Z := Z.of_nat (List.length xs).

(** The sorted list of the distinct tokens: [sorted(set(notes))]. *)
Module StringOrder <: Orders.TotalLeBool.
Definition t := string.
Definition leb := String.leb.
Definition leb_total : forall a1 a2, leb a1 a2 = true \/ leb a2 a1 = true :=
  String.leb_total.
End StringOrder.

Module StringSort := Mergesort.Sort StringOrder.

(** [set(notes)], listed by first occurrence from the right; only its
    length and its sorted listing are observed. *)
Definition py_set (notes : list token) : list token := nodup string_dec notes.

Definition sorted (xs : list token) : list token := StringSort.sort xs.

(** [dict((note, number) for number, note in enumerate(pitchnames))]. *)
Fixpoint note_to_int_from (number : nat) (pitchnames : list token)
    (d : Dict.t nat) : Dict.t nat :=
  match pitchnames with
  | [] => d
  | note :: rest => note_to_int_from (S number) rest (Dict.set d note number)
  end.

Definition make_note_to_int (pitchnames : list token) : Dict.t nat :=
  note_to_int_from 0 pitchnames [].

(** The loop shared by the two [prepare_sequences]:
    [for i in range(0, len(notes) - sequence_length, 1)] with its four
    statements. [i] runs over [range]; the accumulators are
    [network_input] and [network_output]. *)
Definition sequence_step (sequence_length : nat) (note_to_int : Dict.t nat)
    (notes : list token) (acc : list (list nat) * list nat) (i : nat)
  : result (list (list nat) * list nat) :=
  let sequence_in := Py.slice notes i (i + sequence_length) in
  sequence_out <- Py.index notes (i + sequence_length) ;;
  xs <- mapM (Dict.lookup note_to_int) sequence_in ;;
  y <- Dict.lookup note_to_int sequence_out ;;
  Ok ((fst acc ++ [xs])%list, (snd acc ++ [y])%list).

Fixpoint for_each {S A : Type} (body : S -> A -> result S) (xs : list A) (s : S)
  : result S :=
  match xs with
  | [] => Ok s
  | x :: xs' => s' <- body s x ;; for_each body xs' s'
  end.

(** [range(0, n, 1)] for a Python [int] [n]: empty when [n <= 0]. *)
Definition range0 (n : Z) : list nat := seq 0 (Z.to_nat n).

Definition sequence_loop (sequence_length : nat) (note_to_int : Dict.t nat)
    (notes : list token) : result (list (list nat) * list nat) :=
  for_each (sequence_step sequence_length note_to_int notes)
           (range0 (len notes - Z.of_nat sequence_length)) ([], []).

(** [numpy.reshape(network_input, (n_patterns, sequence_length, 1))]
    followed by [/ float(n_vocab)]: every id becomes a one-element row. *)
Definition normalize (n_vocab : nat) (network_input : list (list nat))
  : list (list (list Num.pyfloat)) :=
  map (map (fun x => [Num.np_div x n_vocab])) network_input.

(** ** lstm.py *)

Module Lstm.

(** An element met while iterating over a [stream.Part]. The duration and
    the offset are carried as [%s] renders them. *)
Inductive element : Type :=
| ENote (pitch : string) (quarterLength offset : string)
| EChord (pitches : list string) (quarterLength offset : string)
| EOther.

(** An item of [notes_to_parse]: [s2.parts] yields parts, [midi.flat.notes]
    yields notes and chords, and a chord there matches neither [isinstance]
    test of the outer loop. [getInstrument] is the value of
    [getInstrument(returnDefault=False)]. *)
Inductive item : Type :=
| TNote (pitch : string) (quarterLength offset : string)
| TPart (getInstrument : option Instrument) (elements : list element)
| TOther.

Definition document := list item.

Section Extraction.

(** [instrument.Instrument.__subclasses__()], each class with the
    attributes of its instance. *)
Variable ri : list Instrument.

Definition append_element (iid : option Z) (notes : list token) (el : element)
  : list token :=
  match el with
  | ENote p ql off => (notes ++ [encode_with (Py.str_of_opt_int iid) [p] ql off])%list
  | EChord ps ql off => (notes ++ [encode_with (Py.str_of_opt_int iid) ps ql off])%list
  | EOther => notes
  end.

(** The body of [for _instrument in notes_to_parse], lines 51-66. *)
Definition extract_item (st : list token * Rng) (it : item)
  : result (list token * Rng) :=
  let (notes, g) := st in
  '(k, g') <- randint 0 (len ri - 1) g ;;
  cls <- index_Z ri k ;;
  let iid := midiProgram cls in
  match it with
  | TNote p ql off =>
      Ok ((notes ++ [encode_with (Py.str_of_opt_int iid) [p] ql off])%list, g')
  | TPart gi els =>
      ins <- of_option AttributeError gi ;;
      let iid := match instrumentName ins with
                 | Some _ => midiProgram ins
                 | None => iid
                 end in
      Ok (fold_left (append_element iid) els notes, g')
  | TOther => Ok (notes, g')
  end.

(** [get_notes] on the parsed files, in [glob] order. *)
Definition get_notes (files : list document) (g : Rng) : result (list token * Rng) :=
  for_each (fun st doc => for_each extract_item doc st) files ([], g).

End Extraction.

(** Line 23: [n_vocab = len(set(notes))]. *)
Definition n_vocab_of (notes : list token) : nat := List.length (py_set notes).

(** Line 78. *)
Definition pitchnames_of (notes : list token) : list token := sorted (py_set notes).

(** [np_utils.to_categorical(y)] with [num_classes] unset: one row per
    target, [max(y) + 1] columns; the maximum of an empty array raises. *)
Definition to_categorical (y : list nat) : result (list (list nat)) :=
  match y with
  | [] => Raise ValueError
  | _ => let num_classes := S (list_max y) in
         Ok (map (fun c => map (fun j => if (j =? c)%nat then 1%nat else 0%nat)
                               (seq 0 num_classes)) y)
  end.

Definition sequence_length : nat := 100.

(** The statements of [prepare_sequences] up to line 93. *)
Definition training_samples (notes : list token) : result (list (list nat) * list nat) :=
  let pitchnames := pitchnames_of notes in
  let note_to_int := make_note_to_int pitchnames in
  sequence_loop sequence_length note_to_int notes.

Definition prepare_sequences (notes : list token) (n_vocab : nat)
  : result (list (list (list Num.pyfloat)) * list (list nat)) :=
  '(network_input, network_output) <- training_samples notes ;;
  let network_input := normalize n_vocab network_input in
  network_output <- to_categorical network_output ;;
  Ok (network_input, network_output).

(** [train_network] up to line 25; the rest builds and fits the model. *)
Definition train_network (ri : list Instrument) (files : list document) (g : Rng)
  : result (list (list (list Num.pyfloat)) * list (list nat)) :=
  '(notes, _) <- get_notes ri files g ;;
  let n_vocab := n_vocab_of notes in
  prepare_sequences notes n_vocab.

End Lstm.

(** ** predict.py *)

Module Predict.

Definition sequence_length : nat := 64.

(** [prepare_sequences(notes, pitchnames, n_vocab)]: the list [output] is
    filled by the loop and dropped at the return. *)
Definition prepare_sequences (notes pitchnames : list token) (n_vocab : nat)
  : result (list (list nat) * list (list (list Num.pyfloat))) :=
  let note_to_int := make_note_to_int pitchnames in
  '(network_input, output) <- sequence_loop sequence_length note_to_int notes ;;
  let normalized_input := normalize n_vocab network_input in
  Ok (network_input, normalized_input).

(** [numpy.argmax] on one row: the first index of the greatest value. *)
Fixpoint argmax_from (best_i : nat) (best : Q) (i : nat) (xs : list Q) : nat :=
  match xs with
  | [] => best_i
  | x :: xs' =>
      if Qle_bool x best then argmax_from best_i best (S i) xs'
      else argmax_from i x (S i) xs'
  end.

Definition argmax (prediction : list Q) : result nat :=
  match prediction with
  | [] => Raise ValueError
  | x :: xs => Ok (argmax_from 0 x 1 xs)
  end.

(** Line 98: the index of the seed window. *)
Definition seed_start (network_input : list (list nat)) (g : Rng)
  : result (Z * Rng) :=
  np_randint 0 (len network_input - 1) g.

Section Generator.

(** [model.predict(prediction_input, verbose=0)]: the row of probabilities
    for one window, or an exception of the model. *)
Variable model_predict : list (list Num.pyfloat) -> result (list Q).
Variable pitchnames : list token.
Variable n_vocab : nat.

(** [int_to_note[index]] for [int_to_note = dict(enumerate(pitchnames))]. *)
Definition int_to_note (index : nat) : result token :=
  of_option KeyError (nth_error pitchnames index).

Record gen_state : Type := mkGen {
  pattern : list nat;
  prediction_output : list token
}.

(** One pass through the body of [for note_index in range(500)]. *)
Definition generate_step (st : gen_state) : result gen_state :=
  let prediction_input := map (fun x => [Num.np_div x n_vocab]) (pattern st) in
  prediction <- model_predict prediction_input ;;
  index <- argmax prediction ;;
  result <- int_to_note index ;;
  let appended := (pattern st ++ [index])%list in
  Ok (mkGen (Py.slice appended 1 (List.length appended))
            (prediction_output st ++ [result])%list).

Fixpoint generate_loop (n : nat) (st : gen_state) : result gen_state :=
  match n with
  | O => Ok st
  | S n' => st' <- generate_step st ;; generate_loop n' st'
  end.

Definition generate_notes (network_input : list (list nat)) (g : Rng)
  : result (list token * Rng) :=
  '(start, g') <- seed_start network_input g ;;
  seed <- index_Z network_input start ;;
  st <- generate_loop 500 (mkGen seed []) ;;
  Ok (prediction_output st, g').

End Generator.

(** A [note.Note] or a [chord.Chord]. *)
Inductive sound : Type :=
| Note (pitch : string)
| Chord (pitches : list string).

Record GeneralNote : Type := mkNote {
  sounding : sound;
  quarterLength : Num.pyfloat;
  offset : string
}.

(** A fresh music21 object: one quarter long, at offset zero. *)
Definition new_note (s : sound) : GeneralNote :=
  mkNote s (Num.Finite (1 # 1)) "0.0".

(** [set_duration(p, d, o)]. The name [duration] of the last branch is
    bound nowhere in the module: its import line brings [instrument, note,
    stream, chord, meter] only. *)
Definition set_duration (p : GeneralNote) (d o : string) : result GeneralNote :=
  quarter <-
    match Num.parse_float d with
    | Some v => Ok v
    | None =>
        if Py.contains "/" d then
          let q := Py.split_on "/" d in
          a <- (q0 <- Py.index q 0 ;; Num.int q0) ;;
          b <- (q1 <- Py.index_neg q 1 ;; Num.int q1) ;;
          Num.truediv a b
        else Raise NameError
    end ;;
  Ok (mkNote (sounding p) quarter o).

(** The part of one key as lines 175-183 fill it: the time signature, the
    instrument, then the objects of the key. *)
Record Part : Type := mkPart {
  timesignature : string;
  part_instrument : Instrument;
  part_notes : list GeneralNote
}.

(** What [create_midi] calls after a part is filled. music21 holds the
    parts of the score, regroups them and writes the file; [random_word]
    supplies words, possibly reading the generator of [random];
    [random.sample] picks among them with that generator. Each call returns
    or raises. *)
Record Library : Type := mkLibrary {
  Stream : Type;
  of_part : Part -> Stream;
  makeMeasures : Stream -> result Stream;
  makeNotation : list Stream -> result (list Stream);
  get_random_words : Rng -> result (list string * Rng);
  sample : list string -> nat -> Rng -> result (list string * Rng);
  write : list Stream -> string -> result unit
}.

(** The score, the lines printed so far and the generator of [random]. *)
Record midi_state (lib : Library) : Type := mkMidi {
  midi_stream : list (Stream lib);
  printed : list string;
  rng : Rng
}.

Arguments mkMidi {lib} midi_stream printed rng.
Arguments midi_stream {lib} m.
Arguments printed {lib} m.
Arguments rng {lib} m.

(** [str(current_instrument.instrumentName)]. *)
Definition name_or_None (i : Instrument) : string :=
  match instrumentName i with
  | Some s => s
  | None => "None"
  end.

(** ['%s_%s.mid' % tuple(names)]: the format takes two arguments. *)
Definition file_name (names : list string) : result string :=
  match names with
  | [a; b] => Ok (a ++ "_" ++ b ++ ".mid")
  | _ => Raise TypeError
  end.

Section Reconstruction.

(** [instrument.Instrument.__subclasses__()]. *)
Variable all_instruments : list Instrument.

(** [instrument.instrumentFromMidiProgram]; [None] when it raises. *)
Variable instrumentFromMidiProgram : Z -> option Instrument.

Definition get_random_instrument (g : Rng) : result (Instrument * Rng) :=
  '(k, g') <- randint 0 (len all_instruments - 1) g ;;
  cls <- index_Z all_instruments k ;;
  Ok (cls, g').

Definition instruments_t := Dict.t (list GeneralNote).

(** [instruments[k].append(x)]. *)
Definition append_to (instruments : instruments_t) (k : string) (x : GeneralNote)
  : result instruments_t :=
  l <- Dict.lookup instruments k ;;
  Ok (Dict.set instruments k (l ++ [x])%list).

(** The body of [for pattern in prediction_output], lines 149-164. *)
Definition decode_step (instruments : instruments_t) (pattern : token)
  : result instruments_t :=
  '(_instrument, _notes, _duration, _offset) <- decode_token pattern ;;
  let instruments :=
    if negb (Dict.mem instruments _instrument)
    then Dict.set instruments _instrument []
    else instruments in
  match _notes with
  | [] => Ok instruments
  | [n0] =>
      _note <- set_duration (new_note (Note n0)) _duration _offset ;;
      append_to instruments _instrument _note
  | _ =>
      _chord <- set_duration (new_note (Chord _notes)) _duration _offset ;;
      append_to instruments _instrument _chord
  end.

Definition decode_tokens (prediction_output : list token) : result instruments_t :=
  for_each decode_step prediction_output [].

(** Lines 168-174: the [try] looks the program up, the [except] prints two
    lines and draws an instrument. *)
Definition resolve_instrument (instrument_key : string) (log : list string) (g : Rng)
  : result (Instrument * list string * Rng) :=
  match bind (Num.int instrument_key)
             (fun p => of_option ValueError (instrumentFromMidiProgram p)) with
  | Ok current_instrument => Ok (current_instrument, log, g)
  | Raise _ =>
      let log := List.app log [instrument_key ++ ": WARNING: invalid instrument!"] in
      '(current_instrument, g') <- get_random_instrument g ;;
      let name := name_or_None current_instrument in
      Ok (current_instrument, List.app log [name ++ ": INFO: selected random!"], g')
  end.

(** Lines 168-183: the instrument of the key, then the part filled with
    the objects of the key. *)
Definition build_part (instruments : instruments_t) (instrument_key : string)
    (log : list string) (g : Rng) : result (Part * list string * Rng) :=
  '(current_instrument, log, g') <- resolve_instrument instrument_key log g ;;
  notes <- Dict.lookup instruments instrument_key ;;
  Ok (mkPart "3/4" current_instrument notes, log, g').

(** The library and [args.optimizer], an [int] of the command line whose
    default is 1. *)
Variable lib : Library.
Variable optimizer : Z.

Definition optimizer_on : bool := negb (optimizer =? 0)%Z.

(** Lines 186-188: every part of the score so far is regrouped in place,
    in the order of the score. *)
Definition measure_parts (parts : list (Stream lib)) : result (list (Stream lib)) :=
  if optimizer_on then mapM (makeMeasures lib) parts else Ok parts.

(** The body of [for instrument_key in instruments.keys()], lines 168-188. *)
Definition assemble_step (instruments : instruments_t) (st : midi_state lib)
    (instrument_key : string) : result (midi_state lib) :=
  '(current_part, log, g') <-
     build_part instruments instrument_key (printed st) (rng st) ;;
  parts <- measure_parts (midi_stream st ++ [of_part lib current_part])%list ;;
  Ok (mkMidi parts log g').

(** [create_midi(prediction_output, n)]: the two loops, the notation pass,
    the two words of the file name and the file. The result holds the score
    as written, what was printed and the generator left, with the name of
    the file. *)
Definition create_midi (prediction_output : list token) (g : Rng)
  : result (midi_state lib * string) :=
  instruments <- decode_tokens prediction_output ;;
  st <- for_each (assemble_step instruments) (Dict.keys instruments)
          (mkMidi [] [] g) ;;
  score <- (if optimizer_on then makeNotation lib (midi_stream st)
            else Ok (midi_stream st)) ;;
  '(words, g1) <- get_random_words lib (rng st) ;;
  '(picked, g2) <- sample lib words 2 g1 ;;
  let names := map Py.lower picked in
  fp <- file_name names ;;
  _ <- write lib score fp ;;
  Ok (mkMidi score (printed st) g2, fp).

End Reconstruction.

(** [generate(n)]: the corpus tokens are the unpickled [data/notes]; the
    model built by [create_network] is its prediction function.
    [numpy.random] and [random] are two generators. *)
Definition generate (model_predict : list (list Num.pyfloat) -> result (list Q))
    (all_instruments : list Instrument)
    (instrumentFromMidiProgram : Z -> option Instrument)
    (lib : Library) (optimizer : Z)
    (notes : list token) (np_rng py_rng : Rng)
  : result (midi_state lib * string * Rng) :=
  let pitchnames := sorted (py_set notes) in
  let n_vocab := List.length (py_set notes) in
  '(network_input, normalized_input) <- prepare_sequences notes pitchnames n_vocab ;;
  '(prediction_output, np_rng') <-
     generate_notes model_predict pitchnames n_vocab network_input np_rng ;;
  '(st, fp) <- create_midi all_instruments instrumentFromMidiProgram lib optimizer
                 prediction_output py_rng ;;
  Ok (st, fp, np_rng').

End Predict.

(** ** Predicates and observations used by the statements *)

(** The model answers every window with a non-empty row no longer than the
    vocabulary. *)
Definition well_formed_model (model_predict : list (list Num.pyfloat) -> result (list Q))
    (pitchnames : list token) : Prop :=
  forall x, exists p,
    model_predict x = Ok p /\ p <> [] /\ List.length p <= List.length pitchnames.

(** The model answers the inputs of the shape the loop builds for a window
    of length [L], [L] rows of one entry, with a non-empty row no longer
    than the vocabulary; on any other input it may raise. *)
Definition answers_windows (model_predict : list (list Num.pyfloat) -> result (list Q))
    (pitchnames : list token) (L : nat) : Prop :=
  forall x,
    List.length x = L -> Forall (fun row => List.length row = 1) x ->
    exists p,
      model_predict x = Ok p /\ p <> [] /\ List.length p <= List.length pitchnames.



(** A document whose only part declares its instrument. *)
Definition declared_document : Lstm.document :=
  [Lstm.TPart (Some (mkInstrument (Some "Flute") (Some 73%Z)))
     [Lstm.ENote "C4" "1.0" "0.0"; Lstm.EOther;
      Lstm.EChord ["C4"; "E4"; "G4"] "1/3" "2.0"]].


(** A library for the concrete runs: a stream is a part with the number of
    regrouping passes it went through, every call returns, the words are
    fixed and [sample] takes the first ones after one draw. *)
Definition example_library : Predict.Library :=
  Predict.mkLibrary (Predict.Part * nat)
    (fun p => (p, 0))
    (fun s => Ok (fst s, S (snd s)))
    (fun ss => Ok ss)
    (fun g => Ok (["Alpha"; "BETA"; "Gamma"], g))
    (fun ws k g => if (k <=? List.length ws)%nat
                   then Ok (firstn k ws, snd (next g))
                   else Raise ValueError)
    (fun _ _ => Ok tt).


(** Every call of the library returns, and [sample] gives two of the
    words. *)
Definition library_returns (lib : Predict.Library) : Prop :=
  (forall s, exists s', Predict.makeMeasures lib s = Ok s') /\
  (forall ss, exists ss', Predict.makeNotation lib ss = Ok ss') /\
  (forall g, exists ws g',
     Predict.get_random_words lib g = Ok (ws, g') /\
     forall g1, exists a b g2, Predict.sample lib ws 2 g1 = Ok ([a; b], g2)) /\
  (forall ss fp, Predict.write lib ss fp = Ok tt).

(** The training samples as (window, target) pairs. *)
Definition samples_of (r : result (list (list nat) * list nat))
  : result (list (list nat * nat)) :=
  '(network_input, network_output) <- r ;; Ok (combine network_input network_output).

(** The scenario of section 8: a ten-token vocabulary in sorted order and
    the corpus whose ids are [5,2,7,2,5,9,2,7]. *)
Definition example_pitchnames : list token :=
  ["0 A4 1.0 0.0"; "0 B4 1.0 0.0"; "0 C4 1.0 0.0"; "0 D4 1.0 0.0";
   "0 E4 1.0 0.0"; "0 F4 1.0 0.0"; "0 G4 1.0 0.0"; "1 A4 1.0 0.0";
   "1 B4 1.0 0.0"; "1 C4 1.0 0.0"].

Definition example_notes : list token :=
  ["0 F4 1.0 0.0"; "0 C4 1.0 0.0"; "1 A4 1.0 0.0"; "0 C4 1.0 0.0";
   "0 F4 1.0 0.0"; "1 C4 1.0 0.0"; "0 C4 1.0 0.0"; "1 A4 1.0 0.0"].

Definition example_ids : list nat := [5; 2; 7; 2; 5; 9; 2; 7].

(** A two-class catalog and the General MIDI range of
    [instrumentFromMidiProgram], for the concrete runs below. *)
Definition example_catalog : list Instrument :=
  [mkInstrument (Some "Piano") (Some 0%Z); mkInstrument (Some "Violin") (Some 40%Z)].

Definition example_table (program : Z) : option Instrument :=
  if ((0 <=? program) && (program <? 128))%Z
  then Some (mkInstrument (Some "General MIDI") (Some program))
  else None.

(** A generator whose every raw draw is [r]. *)
Definition constant_rng (r : nat) : Rng := mkRng (fun _ => r) 0.

(** A part without a declared instrument holding one note. *)
Definition example_document : Lstm.document :=
  [Lstm.TPart (Some (mkInstrument None None)) [Lstm.ENote "C4" "1.0" "0.0"]].

(** A normalised entry: a one-element row holding a value of [[0, 1)]. *)
Definition in_unit_cell (c : list Num.pyfloat) : Prop :=
  exists q, c = [Num.Finite q] /\ (0 <= q)%Q /\ (q < 1)%Q.

(** The object [create_midi] builds for a pitch list: a note for one
    name, a chord for several. *)
Definition sound_of (ps : list string) : Predict.sound :=
  match ps with
  | [p] => Predict.Note p
  | _ => Predict.Chord ps
  end.

(** What one token contributes: its instrument key and at most one
    object. *)
Definition decode_event (pattern : token)
  : result (string * list Predict.GeneralNote) :=
  '(k, ps, d, o) <- decode_token pattern ;;
  match ps with
  | [] => Ok (k, [])
  | _ => n <- Predict.set_duration (Predict.new_note (sound_of ps)) d o ;; Ok (k, [n])
  end.

(** The objects of key [k] among decoded tokens, in token order. *)
Definition events_of (k : string) (kes : list (string * list Predict.GeneralNote))
  : list Predict.GeneralNote :=
  List.concat (map snd (filter (fun ke => String.eqb (fst ke) k) kes)).

Definition key_in (k : string) (ks : list string) : bool :=
  existsb (String.eqb k) ks.

(** The distinct elements of a list in the order of their first
    occurrence. *)
Fixpoint first_occurrences (ks : list string) : list string :=
  match ks with
  | [] => []
  | k :: rest => k :: filter (fun k' => negb (String.eqb k k')) (first_occurrences rest)
  end.

(** One decoded token added to the instrument dictionary: its objects go
    to the end of the list of its key. *)
Definition add_events (d : Predict.instruments_t)
    (ke : string * list Predict.GeneralNote) : Predict.instruments_t :=
  Dict.set d (fst ke)
    (match Dict.get d (fst ke) with Some l => l | None => [] end ++ snd ke)%list.

(** Whether an instrument key resolves to a program of the table. *)
Definition resolves (instrumentFromMidiProgram : Z -> option Instrument)
    (instrument_key : string) : bool :=
  is_ok (p <- Num.int instrument_key ;;
         of_option ValueError (instrumentFromMidiProgram p)).

(** A part of the score built from one entry of the instrument
    dictionary: the fixed time signature, the objects of the entry, and the
    instrument of the key's program or, when the key does not resolve, one
    of the catalog. *)
Definition part_of_entry (all_instruments : list Instrument)
    (instrumentFromMidiProgram : Z -> option Instrument)
    (part : Predict.Part) (entry : string * list Predict.GeneralNote) : Prop :=
  Predict.timesignature part = "3/4" /\
  Predict.part_notes part = snd entry /\
  match p <- Num.int (fst entry) ;;
        of_option ValueError (instrumentFromMidiProgram p) with
  | Ok i => Predict.part_instrument part = i
  | Raise _ => In (Predict.part_instrument part) all_instruments
  end.

(** The keys of a dictionary that do not resolve. *)
Definition unresolved_keys (instrumentFromMidiProgram : Z -> option Instrument)
    (ks : list string) : list string :=
  filter (fun k => negb (resolves instrumentFromMidiProgram k)) ks.

(** The instrument of the part of a key: the one of the key's program or,
    for a key that does not resolve, the catalog entry at the raw draw [d]
    modulo the length of the catalog. *)
Definition instrument_of_key (all_instruments : list Instrument)
    (instrumentFromMidiProgram : Z -> option Instrument)
    (instrument_key : string) (d : nat) (i : Instrument) : Prop :=
  match p <- Num.int instrument_key ;;
        of_option ValueError (instrumentFromMidiProgram p) with
  | Ok i0 => i = i0
  | Raise _ => nth_error all_instruments (d mod List.length all_instruments) = Some i
  end.

(** The two lines printed for a key that does not resolve, [p] being the
    part of the key. *)
Definition fallback_lines (instrumentFromMidiProgram : Z -> option Instrument)
    (instrument_key : string) (p : Predict.Part) : list string :=
  if resolves instrumentFromMidiProgram instrument_key then []
  else [instrument_key ++ ": WARNING: invalid instrument!";
        Predict.name_or_None (Predict.part_instrument p)
        ++ ": INFO: selected random!"].

(** The parts of the keys [ks] as lines 168-183 fill them, one key after
    the other, with the lines printed and the generator left. *)
Fixpoint build_parts (all_instruments : list Instrument)
    (instrumentFromMidiProgram : Z -> option Instrument)
    (instruments : Predict.instruments_t) (ks : list string)
    (log : list string) (g : Rng)
  : result (list Predict.Part * list string * Rng) :=
  match ks with
  | [] => Ok ([], log, g)
  | k :: rest =>
      '(p, log1, g1) <-
         Predict.build_part all_instruments instrumentFromMidiProgram
           instruments k log g ;;
      '(ps, log2, g2) <-
         build_parts all_instruments instrumentFromMidiProgram instruments
           rest log1 g1 ;;
      Ok (p :: ps, log2, g2)
  end.

(** The score after the parts [raws] were appended to [score] one by one,
    each append followed by the regrouping of lines 186-188: the loop of
    the keys seen from the score, for the proofs. *)
Fixpoint measured_from (lib : Predict.Library) (optimizer : Z)
    (score : list (Predict.Stream lib)) (raws : list Predict.Part)
  : result (list (Predict.Stream lib)) :=
  match raws with
  | [] => Ok score
  | p :: rest =>
      score' <- Predict.measure_parts lib optimizer
                  (score ++ [Predict.of_part lib p])%list ;;
      measured_from lib optimizer score' rest
  end.

(** [n] regrouping passes over one part of the score. *)
Fixpoint passes (lib : Predict.Library) (n : nat) (s : Predict.Stream lib)
  : result (Predict.Stream lib) :=
  match n with
  | O => Ok s
  | S n' => s' <- Predict.makeMeasures lib s ;; passes lib n' s'
  end.

(** [score] is what the library makes of the parts [raws]. With
    [args.optimizer] at zero it holds them as they were filled. Otherwise
    the part of position [j] among [n] went through [n - j] regrouping
    passes, one at its own append and one at each later append, and the
    whole went through the notation of lines 190-191. *)
Definition score_of (lib : Predict.Library) (optimizer : Z)
    (raws : list Predict.Part) (score : list (Predict.Stream lib)) : Prop :=
  exists score0,
    List.length score0 = List.length raws /\
    (forall j raw s,
       nth_error raws j = Some raw -> nth_error score0 j = Some s ->
       passes lib (if (optimizer =? 0)%Z then 0 else List.length raws - j)
         (Predict.of_part lib raw) = Ok s) /\
    (if (optimizer =? 0)%Z then Ok score0 else Predict.makeNotation lib score0)
    = Ok score.

(** A top-level part for which [getInstrument(returnDefault=False)] gives
    [None]. *)
Definition lacks_instrument (it : Lstm.item) : bool :=
  match it with
  | Lstm.TPart None _ => true
  | _ => false
  end.

Definition sounding_element (el : Lstm.element) : bool :=
  match el with
  | Lstm.EOther => false
  | _ => true
  end.

(** The number of notes and chords an item holds. *)
Definition sounding_count (it : Lstm.item) : nat :=
  match it with
  | Lstm.TNote _ _ _ => 1
  | Lstm.TPart _ els => List.length (filter sounding_element els)
  | Lstm.TOther => 0
  end.

(** The tokens of an item when the class drawn for it has program [iid]. *)
Definition item_tokens (iid : option Z) (it : Lstm.item) : list token :=
  match it with
  | Lstm.TNote p ql off => [encode_with (Py.str_of_opt_int iid) [p] ql off]
  | Lstm.TPart (Some ins) els =>
      fold_left (Lstm.append_element
                   (match instrumentName ins with
                    | Some _ => midiProgram ins
                    | None => iid
                    end)) els []
  | _ => []
  end.

(** The rendered fields of an element are words and a chord has a pitch. *)
Definition element_ok (el : Lstm.element) : bool :=
  match el with
  | Lstm.ENote p ql off => is_field p && is_field ql && is_field off
  | Lstm.EChord ps ql off =>
      negb (match ps with [] => true | _ => false end)
      && forallb is_field ps && is_field ql && is_field off
  | Lstm.EOther => true
  end.

Definition item_ok (it : Lstm.item) : bool :=
  match it with
  | Lstm.TNote p ql off => is_field p && is_field ql && is_field off
  | Lstm.TPart _ els => forallb element_ok els
  | Lstm.TOther => true
  end.

(** A token that reads back as an instrument field, at least one pitch and
    two more fields. *)
Definition well_formed_token (t : token) : Prop :=
  exists k ps d o,
    decode_token t = Ok (k, ps, d, o) /\
    ps <> [] /\ forallb is_field ps = true /\
    is_field k = true /\ is_field d = true /\ is_field o = true.

(** * Properties *)

(** ** Strings and whitespace splitting *)

Lemma append_assoc (a b c : string) : ((a ++ b) ++ c = a ++ (b ++ c))%string.
Proof. induction a as [|x a IH]; simpl; [reflexivity | now rewrite IH]. Qed.

Lemma append_empty_r (a : string) : (a ++ "" = a)%string.
Proof. induction a as [|x a IH]; simpl; [reflexivity | now rewrite IH]. Qed.

Lemma str_is_empty_append (a b : string) :
  Py.str_is_empty a = false -> Py.str_is_empty (a ++ b) = false.
Proof. destruct a; simpl; [discriminate | reflexivity]. Qed.

(** Reading a whitespace-free word moves it into the current run. *)
Lemma split_ws_from_word (w : string) :
  Py.no_space w = true ->
  forall cur rest, Py.split_ws_from cur (w ++ rest) = Py.split_ws_from (cur ++ w) rest.
Proof.
  induction w as [|c w IH]; intros Hw cur rest; simpl.
  - now rewrite append_empty_r.
  - simpl in Hw. apply andb_true_iff in Hw as [Hc Hw].
    apply negb_true_iff in Hc. rewrite Hc.
    rewrite (IH Hw). now rewrite append_assoc.
Qed.

Lemma is_field_inv (w : string) :
  is_field w = true -> Py.str_is_empty w = false /\ Py.no_space w = true.
Proof.
  unfold is_field. intros H. apply andb_true_iff in H as [H1 H2].
  apply negb_true_iff in H1. now split.
Qed.

(** A field followed by a space is the first word of the split. *)
Lemma split_field_space (w rest : string) :
  is_field w = true ->
  Py.split (w ++ " " ++ rest) = w :: Py.split rest.
Proof.
  intros Hw. apply is_field_inv in Hw as [Hne Hns].
  unfold Py.split. rewrite (split_ws_from_word w Hns). simpl.
  now rewrite Hne.
Qed.

Lemma split_field_last (w : string) : is_field w = true -> Py.split w = [w].
Proof.
  intros Hw. apply is_field_inv in Hw as [Hne Hns].
  unfold Py.split. rewrite <- (append_empty_r w) at 1.
  rewrite (split_ws_from_word w Hns). simpl. now rewrite Hne.
Qed.

Lemma split_join_fields (ps : list string) (rest : string) :
  ps <> [] -> forallb is_field ps = true ->
  Py.split (Py.join " " ps ++ " " ++ rest) = (ps ++ Py.split rest)%list.
Proof.
  induction ps as [|p ps IH]; intros Hne Hall; [congruence|].
  simpl in Hall. apply andb_true_iff in Hall as [Hp Hall].
  destruct ps as [|p' ps].
  - simpl. now apply split_field_space.
  - change (Py.join " " (p :: p' :: ps))
      with (p ++ " " ++ Py.join " " (p' :: ps))%string.
    rewrite append_assoc. change ((" " ++ Py.join " " (p' :: ps)) ++ " " ++ rest)%string
      with (" " ++ (Py.join " " (p' :: ps) ++ " " ++ rest))%string.
    rewrite (split_field_space p _ Hp). rewrite IH; [reflexivity | discriminate | exact Hall].
Qed.

(** The split of an encoded event is its list of fields. *)
Lemma split_encode_with (iid : string) (ps : list string) (ql off : string) :
  is_field iid = true -> ps <> [] -> forallb is_field ps = true ->
  is_field ql = true -> is_field off = true ->
  Py.split (encode_with iid ps ql off) = (iid :: ps ++ [ql; off])%list.
Proof.
  intros Hi Hne Hps Hq Ho. unfold encode_with, format4.
  rewrite (split_field_space iid _ Hi). f_equal.
  rewrite (split_join_fields ps _ Hne Hps). f_equal.
  rewrite (split_field_space ql _ Hq). f_equal.
  now apply split_field_last.
Qed.

(** Reading back the four parts of a field list. *)
Lemma decode_fields (iid : string) (ps : list string) (ql off : string) :
  let parts := (iid :: ps ++ [ql; off])%list in
  Py.index parts 0 = Ok iid /\
  Py.slice_to_neg parts 1 2 = ps /\
  Py.index_neg parts 2 = Ok ql /\
  Py.index_neg parts 1 = Ok off.
Proof.
  intros parts.
  assert (Hlen : List.length parts = S (List.length ps + 2)).
  { unfold parts. simpl. now rewrite length_app. }
  repeat split.
  - unfold Py.slice_to_neg, Py.slice. rewrite Hlen. unfold parts. simpl.
    replace (List.length ps + 2 - 1 - 1) with (List.length ps + 0) by lia.
    now rewrite firstn_app_2, app_nil_r.
  - unfold Py.index_neg, Py.index. rewrite Hlen.
    replace (2 <=? S (List.length ps + 2))%nat with true
      by (symmetry; apply Nat.leb_le; lia).
    replace (S (List.length ps + 2) - 2) with (S (List.length ps + 0)) by lia.
    unfold parts. simpl. rewrite nth_error_app2 by lia.
    now replace (List.length ps + 0 - List.length ps) with 0 by lia.
  - unfold Py.index_neg, Py.index. rewrite Hlen.
    replace (1 <=? S (List.length ps + 2))%nat with true
      by (symmetry; apply Nat.leb_le; lia).
    replace (S (List.length ps + 2) - 1) with (S (List.length ps + 1)) by lia.
    unfold parts. simpl. rewrite nth_error_app2 by lia.
    now replace (List.length ps + 1 - List.length ps) with 1 by lia.
Qed.

(** ** Rendering and reading an [int] *)

Lemma no_space_uint (u : Decimal.uint) :
  Py.no_space (NilEmpty.string_of_uint u) = true.
Proof. induction u; simpl; auto. Qed.

Lemma is_field_str_of_int (z : Z) : is_field (Py.str_of_int z) = true.
Proof.
  unfold Py.str_of_int, is_field.
  destruct (Z.to_int z) as [u|u]; simpl.
  - destruct u; simpl; auto using no_space_uint.
  - destruct u; simpl; auto using no_space_uint.
Qed.

(** What [float()] and [int()] strip, [str.split()] splits on. *)
Lemma number_space_is_space (c : ascii) :
  Py.is_space c = false -> Num.is_space c = false.
Proof.
  destruct c as [[] [] [] [] [] [] [] []]; intros H;
    first [reflexivity | discriminate H].
Qed.

Lemma lstrip_no_space (s : string) : Py.no_space s = true -> Num.lstrip s = s.
Proof.
  destruct s as [|c s]; simpl; [reflexivity|].
  intros H. apply andb_true_iff in H as [Hc _].
  apply negb_true_iff, number_space_is_space in Hc. now rewrite Hc.
Qed.

Lemma rstrip_no_space (s : string) : Py.no_space s = true -> Num.rstrip s = s.
Proof.
  induction s as [|c s IH]; simpl; [reflexivity|].
  intros H. apply andb_true_iff in H as [Hc Hs].
  apply negb_true_iff, number_space_is_space in Hc. rewrite (IH Hs), Hc.
  now rewrite andb_false_r.
Qed.

Lemma strip_no_space (s : string) : Py.no_space s = true -> Num.strip s = s.
Proof.
  intros H. unfold Num.strip. rewrite (lstrip_no_space s H).
  now apply rstrip_no_space.
Qed.

(** Reading the digits of [u] after [d'] continues the little-endian value
    of [d']. *)
Lemma digits_from_uint (u d' : Decimal.uint) :
  Num.digits_from (Z.of_N (DecimalPos.Unsigned.of_lu d')) true
                  (NilEmpty.string_of_uint u)
  = Some (Z.of_N (DecimalPos.Unsigned.of_lu (Decimal.revapp u d'))).
Proof.
  revert d'.
  induction u; intros d'; [reflexivity | ..];
    cbn [NilEmpty.string_of_uint Decimal.revapp];
    (match goal with
     | |- context [Decimal.revapp u ?d] => rewrite <- (IHu d)
     end);
    cbn [DecimalPos.Unsigned.of_lu];
    cbn [Num.digits_from];
    (match goal with
     | |- context [Ascii.eqb ?c "_"] =>
         change (Ascii.eqb c "_") with false; cbv iota
     end);
    (match goal with
     | |- context [Num.digit_val ?c] =>
         let v := eval vm_compute in (Num.digit_val c) in
         change (Num.digit_val c) with v; cbv iota
     end);
    f_equal; lia.
Qed.

Lemma digits_from_start (u : Decimal.uint) :
  u <> Decimal.Nil ->
  Num.digits_from 0 false (NilEmpty.string_of_uint u)
  = Num.digits_from 0 true (NilEmpty.string_of_uint u).
Proof. destruct u; intros H; [congruence | reflexivity ..]. Qed.

Lemma unsigned_int_uint (u : Decimal.uint) :
  Num.unsigned_int (NilZero.string_of_uint u) = Some (Z.of_uint u).
Proof.
  unfold Num.unsigned_int, Z.of_uint.
  rewrite DecimalPos.Unsigned.of_uint_alt. unfold Decimal.rev.
  destruct (Decimal.uint_eq_dec u Decimal.Nil) as [->|Hne]; [reflexivity|].
  replace (NilZero.string_of_uint u) with (NilEmpty.string_of_uint u)
    by (destruct u; [congruence | reflexivity ..]).
  rewrite (digits_from_start u Hne).
  exact (digits_from_uint u Decimal.Nil).
Qed.

(** [int(str(z)) == z]. *)
Lemma int_str_of_int (z : Z) : Num.int (Py.str_of_int z) = Ok z.
Proof.
  unfold Num.int, Num.parse_int.
  rewrite strip_no_space
    by (pose proof (is_field_str_of_int z) as H; apply is_field_inv in H; tauto).
  rewrite <- (DecimalZ.of_to z) at 2.
  unfold Py.str_of_int. destruct (Z.to_int z) as [u|u].
  - cbn [NilZero.string_of_int Z.of_int].
    pose proof (unsigned_int_uint u) as H.
    destruct u; cbn [NilZero.string_of_uint NilEmpty.string_of_uint] in *;
      cbv iota beta; rewrite H; reflexivity.
  - cbn [NilZero.string_of_int Z.of_int].
    rewrite (unsigned_int_uint u). reflexivity.
Qed.

(** ** Token round trip *)

(** C1. For every event of the supported grammar (an integer instrument id,
    at least one pitch, every rendered field a whitespace-free word),
    decoding the encoded token gives back the instrument field, the pitch
    list, the duration literal and the offset of the event, and [int] of the
    instrument field is the instrument id. *)
Theorem decode_encode_roundtrip (e : MusicalEvent) :
  in_grammar e ->
  decode_token (encode e)
  = Ok (Py.str_of_int (instrument_id e), pitches e, duration e, offset e)
  /\ Num.int (Py.str_of_int (instrument_id e)) = Ok (instrument_id e).
Proof.
  intros (Hne & Hps & Hq & Ho). split; [|apply int_str_of_int].
  unfold decode_token, encode.
  rewrite (split_encode_with _ _ _ _ (is_field_str_of_int _) Hne Hps Hq Ho).
  destruct (decode_fields (Py.str_of_int (instrument_id e)) (pitches e)
                          (duration e) (offset e)) as (H0 & H1 & H2 & H3).
  rewrite H0. cbn [bind]. rewrite H1, H2. cbn [bind]. rewrite H3. reflexivity.
Qed.

Lemma decode_encode_roundtrip_witness :
  let e := mkEvent 12 ["C4"; "E4"; "G4"] "1/3" "2.0" in
  in_grammar e /\
  decode_token (encode e) = Ok ("12", ["C4"; "E4"; "G4"], "1/3", "2.0").
Proof.
  intros e.
  assert (H : in_grammar e).
  { unfold in_grammar. repeat split; [discriminate | reflexivity ..]. }
  split; [exact H|].
  exact (proj1 (decode_encode_roundtrip e H)).
Defined.

(** ** Windowing *)

Section MapM.

Context {A B : Type} (f : A -> result B).

Lemma mapM_length (xs : list A) (ys : list B) :
  mapM f xs = Ok ys -> List.length ys = List.length xs.
Proof.
  revert ys. induction xs as [|x xs IH]; intros ys; simpl.
  - intros [= <-]. reflexivity.
  - destruct (f x) as [y|]; [|discriminate]. cbn [bind].
    destruct (mapM f xs) as [ys'|]; [|discriminate]. cbn [bind].
    intros [= <-]. simpl. now rewrite (IH ys').
Qed.

Lemma mapM_nth_error (xs : list A) (ys : list B) (i : nat) (x : A) :
  mapM f xs = Ok ys -> nth_error xs i = Some x ->
  exists y, nth_error ys i = Some y /\ f x = Ok y.
Proof.
  revert ys i. induction xs as [|x0 xs IH]; intros ys i; simpl.
  - destruct i; discriminate.
  - destruct (f x0) as [y0|] eqn:E0; [|discriminate]. cbn [bind].
    destruct (mapM f xs) as [ys'|]; [|discriminate]. cbn [bind].
    intros [= <-]. destruct i as [|i]; simpl.
    + intros [= <-]. now exists y0.
    + intros Hx. now apply (IH ys').
Qed.

Lemma mapM_skipn (xs : list A) (ys : list B) (n : nat) :
  mapM f xs = Ok ys -> mapM f (skipn n xs) = Ok (skipn n ys).
Proof.
  revert xs ys. induction n as [|n IH]; intros xs ys; [trivial|].
  destruct xs as [|x xs]; simpl.
  - intros [= <-]. reflexivity.
  - destruct (f x) as [y|]; [|discriminate]. cbn [bind].
    destruct (mapM f xs) as [ys'|] eqn:E; [|discriminate]. cbn [bind].
    intros [= <-]. simpl. now apply IH.
Qed.

Lemma mapM_firstn (xs : list A) (ys : list B) (n : nat) :
  mapM f xs = Ok ys -> mapM f (firstn n xs) = Ok (firstn n ys).
Proof.
  revert xs ys. induction n as [|n IH]; intros xs ys; [trivial|].
  destruct xs as [|x xs]; simpl.
  - intros [= <-]. reflexivity.
  - destruct (f x) as [y|]; [|discriminate]. cbn [bind].
    destruct (mapM f xs) as [ys'|] eqn:E; [|discriminate]. cbn [bind].
    intros [= <-]. simpl. now rewrite (IH xs ys' E).
Qed.

Lemma mapM_slice (xs : list A) (ys : list B) (i j : nat) :
  mapM f xs = Ok ys -> mapM f (Py.slice xs i j) = Ok (Py.slice ys i j).
Proof.
  intros H. unfold Py.slice. now apply mapM_firstn, mapM_skipn.
Qed.

End MapM.

Section Windows.

Variable sequence_length : nat.
Variable note_to_int : Dict.t nat.
Variable notes : list token.
Variable ids : list nat.

(** [ids] is the id stream of the corpus: every token has its id. *)
Hypothesis ids_of_notes : mapM (Dict.lookup note_to_int) notes = Ok ids.

Lemma sequence_step_ok (acc : list (list nat) * list nat) (i : nat) :
  i + sequence_length < List.length notes ->
  exists y,
    nth_error ids (i + sequence_length) = Some y /\
    sequence_step sequence_length note_to_int notes acc i
    = Ok ((fst acc ++ [Py.slice ids i (i + sequence_length)])%list,
          (snd acc ++ [y])%list).
Proof.
  intros Hi. unfold sequence_step, Py.index. cbv zeta.
  destruct (nth_error notes (i + sequence_length)) as [t|] eqn:Et.
  2:{ apply nth_error_None in Et. lia. }
  destruct (mapM_nth_error _ _ _ _ _ ids_of_notes Et) as (y & Hy & Hf).
  exists y. split; [exact Hy|]. cbn [of_option bind].
  rewrite (mapM_slice _ _ _ i (i + sequence_length) ids_of_notes). cbn [bind].
  rewrite Hf. reflexivity.
Qed.

(** The loop over [seq a n] appends one window and one target per index. *)
Lemma sequence_loop_from (n a : nat) (acc : list (list nat) * list nat) :
  (n = 0 \/ a + n + sequence_length <= List.length notes) ->
  exists ins outs,
    for_each (sequence_step sequence_length note_to_int notes) (seq a n) acc
    = Ok ((fst acc ++ ins)%list, (snd acc ++ outs)%list) /\
    List.length ins = n /\ List.length outs = n /\
    forall k, k < n ->
      nth_error ins k = Some (Py.slice ids (a + k) (a + k + sequence_length)) /\
      nth_error outs k = nth_error ids (a + k + sequence_length).
Proof.
  revert a acc. induction n as [|n IH]; intros a acc Hb.
  - exists [], []. cbn. rewrite !app_nil_r. destruct acc.
    repeat split; try reflexivity; lia.
  - destruct Hb as [Hb|Hb]; [discriminate|].
    cbn [seq for_each].
    destruct (sequence_step_ok acc a) as (y & Hy & Hstep); [lia|].
    rewrite Hstep. cbn [bind].
    destruct (IH (S a) ((fst acc ++ [Py.slice ids a (a + sequence_length)])%list,
                        (snd acc ++ [y])%list))
      as (ins & outs & Hrun & Hli & Hlo & Hnth); [right; lia|].
    exists (Py.slice ids a (a + sequence_length) :: ins), (y :: outs).
    rewrite Hrun. cbn [fst snd]. rewrite <- !app_assoc. cbn [app].
    repeat split; cbn [List.length]; try lia.
    + destruct k as [|k]; cbn [nth_error].
      * now rewrite Nat.add_0_r.
      * replace (a + S k) with (S a + k) by lia. apply Hnth. lia.
    + destruct k as [|k]; cbn [nth_error].
      * now rewrite Nat.add_0_r.
      * replace (a + S k) with (S a + k) by lia. apply Hnth. lia.
Qed.

End Windows.

(** The loop on a stream whose id stream is [ids]. *)
Lemma sequence_loop_spec (L : nat) (note_to_int : Dict.t nat)
    (notes : list token) (ids : list nat) :
  mapM (Dict.lookup note_to_int) notes = Ok ids ->
  L < List.length notes ->
  exists network_input network_output,
    sequence_loop L note_to_int notes = Ok (network_input, network_output) /\
    List.length ids = List.length notes /\
    List.length network_input = List.length notes - L /\
    List.length network_output = List.length notes - L /\
    forall i, i < List.length notes - L ->
      nth_error network_input i = Some (Py.slice ids i (i + L)) /\
      nth_error network_output i = nth_error ids (i + L).
Proof.
  intros Hids HL. unfold sequence_loop, range0, len.
  replace (Z.to_nat (Z.of_nat (List.length notes) - Z.of_nat L))
    with (List.length notes - L) by lia.
  destruct (sequence_loop_from L note_to_int notes ids Hids
              (List.length notes - L) 0 ([], []))
    as (ins & outs & Hrun & Hli & Hlo & Hnth); [right; lia|].
  exists ins, outs. cbn [fst snd app] in Hrun.
  split; [exact Hrun|].
  split; [exact (mapM_length _ _ _ Hids)|].
  split; [exact Hli|]. split; [exact Hlo|].
  intros i Hi. exact (Hnth i Hi).
Qed.

(** C3. For a token stream of length [M] whose id stream is [ids] and a
    window length [L < M], the loop of [prepare_sequences] yields exactly
    [M - L] windows and [M - L] targets; window [i] is [ids[i:i+L]] and
    target [i] is [ids[i+L]], the id right after the window. *)
Theorem windowing_complete (L : nat) (note_to_int : Dict.t nat)
    (notes : list token) (ids : list nat) :
  mapM (Dict.lookup note_to_int) notes = Ok ids ->
  L < List.length notes ->
  exists network_input network_output,
    sequence_loop L note_to_int notes = Ok (network_input, network_output) /\
    List.length ids = List.length notes /\
    List.length network_input = List.length notes - L /\
    List.length network_output = List.length notes - L /\
    forall i, i < List.length notes - L ->
      nth_error network_input i = Some (Py.slice ids i (i + L)) /\
      nth_error network_output i = nth_error ids (i + L).
Proof. exact (sequence_loop_spec L note_to_int notes ids). Qed.

Lemma windowing_complete_witness :
  mapM (Dict.lookup (make_note_to_int example_pitchnames)) example_notes
  = Ok example_ids /\
  3 < List.length example_notes /\
  exists network_input network_output,
    sequence_loop 3 (make_note_to_int example_pitchnames) example_notes
    = Ok (network_input, network_output) /\
    List.length example_ids = List.length example_notes /\
    List.length network_input = List.length example_notes - 3 /\
    List.length network_output = List.length example_notes - 3 /\
    forall i, i < List.length example_notes - 3 ->
      nth_error network_input i = Some (Py.slice example_ids i (i + 3)) /\
      nth_error network_output i = nth_error example_ids (i + 3).
Proof.
  split; [reflexivity|]. split; [simpl; lia|].
  apply (windowing_complete 3 (make_note_to_int example_pitchnames)
           example_notes example_ids); [reflexivity | simpl; lia].
Defined.

(** *** The vocabulary covers its corpus *)

Lemma dict_get_set_same {V : Type} (d : Dict.t V) (k : string) (v : V) :
  Dict.get (Dict.set d k v) k = Some v.
Proof.
  induction d as [|[k' v'] d IH]; simpl.
  - now rewrite String.eqb_refl.
  - destruct (String.eqb k' k) eqn:E; simpl; rewrite E; auto.
Qed.

Lemma dict_get_set_other {V : Type} (d : Dict.t V) (k k' : string) (v : V) :
  k <> k' -> Dict.get (Dict.set d k v) k' = Dict.get d k'.
Proof.
  intros Hne. induction d as [|[k0 v0] d IH]; simpl.
  - destruct (String.eqb k k') eqn:E; [apply String.eqb_eq in E; congruence | reflexivity].
  - destruct (String.eqb k0 k) eqn:E; simpl.
    + apply String.eqb_eq in E. subst k0.
      destruct (String.eqb k k') eqn:E'; [apply String.eqb_eq in E'; congruence | reflexivity].
    + destruct (String.eqb k0 k'); [reflexivity | exact IH].
Qed.

Lemma note_to_int_from_covers (ps : list token) (n : nat) (d : Dict.t nat) (x : token) :
  In x ps \/ Dict.get d x <> None ->
  Dict.get (note_to_int_from n ps d) x <> None.
Proof.
  revert n d. induction ps as [|p ps IH]; intros n d H; simpl.
  - destruct H as [[]|H]; exact H.
  - apply IH. destruct (string_dec p x) as [->|Hne].
    + right. rewrite dict_get_set_same. discriminate.
    + destruct H as [[H|H]|H]; [congruence | now left |].
      right. now rewrite dict_get_set_other.
Qed.

Lemma pitchnames_of_covers (notes : list token) (x : token) :
  In x notes -> In x (Lstm.pitchnames_of notes).
Proof.
  intros H. unfold Lstm.pitchnames_of, sorted, py_set.
  apply (Permutation_in x (StringSort.Permuted_sort _)).
  now apply nodup_In.
Qed.

Lemma mapM_total {A B : Type} (f : A -> result B) (xs : list A) :
  (forall x, In x xs -> exists y, f x = Ok y) -> exists ys, mapM f xs = Ok ys.
Proof.
  induction xs as [|x xs IH]; intros H; simpl.
  - now exists [].
  - destruct (H x (or_introl eq_refl)) as (y & Hy). rewrite Hy. cbn [bind].
    destruct IH as (ys & Hys); [intros x' Hx'; apply H; now right|].
    rewrite Hys. cbn [bind]. now exists (y :: ys).
Qed.

(** Every token of the corpus has an id in the vocabulary built from it. *)
Lemma corpus_has_ids (notes : list token) :
  exists ids,
    mapM (Dict.lookup (make_note_to_int (Lstm.pitchnames_of notes))) notes = Ok ids.
Proof.
  apply mapM_total. intros x Hx. unfold Dict.lookup.
  pose proof (note_to_int_from_covers (Lstm.pitchnames_of notes) 0 [] x
                (or_introl (pitchnames_of_covers notes x Hx))) as H.
  fold (make_note_to_int (Lstm.pitchnames_of notes)) in H.
  destruct (Dict.get (make_note_to_int (Lstm.pitchnames_of notes)) x) as [y|];
    [now exists y | congruence].
Qed.

(** [lstm.py]: more than a hundred tokens give [M - 100] samples. *)
Lemma training_samples_spec (notes : list token) :
  100 < List.length notes ->
  exists ids network_input network_output,
    mapM (Dict.lookup (make_note_to_int (Lstm.pitchnames_of notes))) notes = Ok ids /\
    Lstm.training_samples notes = Ok (network_input, network_output) /\
    List.length network_input = List.length notes - 100 /\
    List.length network_output = List.length notes - 100 /\
    forall i, i < List.length notes - 100 ->
      nth_error network_input i = Some (Py.slice ids i (i + 100)) /\
      nth_error network_output i = nth_error ids (i + 100).
Proof.
  intros HM. destruct (corpus_has_ids notes) as (ids & Hids).
  destruct (sequence_loop_spec 100 _ notes ids Hids HM)
    as (ins & outs & Hrun & _ & Hli & Hlo & Hnth).
  exists ids, ins, outs. repeat split; auto; apply Hnth; assumption.
Qed.

(** C9 as the code computes it: on the id stream [5,2,7,2,5,9,2,7] with
    window length 3 the loop yields the five samples ([5,2,7],2),
    ([2,7,2],5), ([7,2,5],9), ([2,5,9],2), ([5,9,2],7), and no others. *)
Theorem example_windows :
  sorted (py_set example_pitchnames) = example_pitchnames /\
  mapM (Dict.lookup (make_note_to_int example_pitchnames)) example_notes
  = Ok [5; 2; 7; 2; 5; 9; 2; 7] /\
  samples_of (sequence_loop 3 (make_note_to_int example_pitchnames) example_notes)
  = Ok [([5; 2; 7], 2); ([2; 7; 2], 5); ([7; 2; 5], 9); ([2; 5; 9], 2);
        ([5; 9; 2], 7)].
Proof. repeat split; reflexivity. Qed.

(** The four samples listed in section 8 are not what the loop yields. *)
Lemma example_windows_not_four :
  samples_of (sequence_loop 3 (make_note_to_int example_pitchnames) example_notes)
  <> Ok [([5; 2; 7], 2); ([2; 7; 2], 5); ([7; 2; 5], 9); ([2; 5; 9], 7)].
Proof. vm_compute. discriminate. Qed.

(** ** The vocabulary of an empty corpus *)

Lemma n_vocab_is_len_pitchnames (notes : list token) :
  List.length (Lstm.pitchnames_of notes) = Lstm.n_vocab_of notes.
Proof.
  unfold Lstm.pitchnames_of, Lstm.n_vocab_of, sorted.
  symmetry. apply Permutation_length, StringSort.Permuted_sort.
Qed.

(** C6 as the code behaves: the vocabulary of any token sequence is built
    without an error and has [n_vocab] entries; for the empty sequence it
    is the empty vocabulary, [n_vocab] is zero and the loop yields no
    sample. *)
Theorem empty_corpus_vocabulary :
  (forall notes, List.length (Lstm.pitchnames_of notes) = Lstm.n_vocab_of notes) /\
  Lstm.n_vocab_of [] = 0 /\
  Lstm.pitchnames_of [] = [] /\
  make_note_to_int (Lstm.pitchnames_of []) = [] /\
  Lstm.training_samples [] = Ok ([], []).
Proof.
  split; [exact n_vocab_is_len_pitchnames|]. repeat split; reflexivity.
Qed.

(** On the empty token sequence the vocabulary statements end with a
    vocabulary of size zero, and no exception is raised before
    [to_categorical]. *)
Lemma empty_corpus_no_error :
  Lstm.n_vocab_of [] = 0 /\
  (forall e, Lstm.training_samples [] <> Raise e) /\
  Lstm.prepare_sequences [] (Lstm.n_vocab_of []) = Raise ValueError.
Proof. repeat split; try reflexivity. intros e. discriminate. Qed.

(** ** The generation loop *)

Lemma argmax_from_lt (xs : list Q) (best_i i : nat) (best : Q) :
  best_i < i -> Predict.argmax_from best_i best i xs < i + List.length xs.
Proof.
  revert best_i i best. induction xs as [|x xs IH]; intros best_i i best Hlt; simpl.
  - lia.
  - destruct (Qle_bool x best).
    + specialize (IH best_i (S i) best). lia.
    + specialize (IH i (S i) x). lia.
Qed.

Lemma argmax_lt (p : list Q) :
  p <> [] -> exists index, Predict.argmax p = Ok index /\ index < List.length p.
Proof.
  destruct p as [|x xs]; [congruence|]. intros _. simpl.
  eexists. split; [reflexivity|].
  pose proof (argmax_from_lt xs 0 1 x). lia.
Qed.

Lemma slide_length (pattern : list nat) (index : nat) :
  let appended := (pattern ++ [index])%list in
  List.length (Py.slice appended 1 (List.length appended)) = List.length pattern.
Proof.
  intros appended. unfold Py.slice.
  rewrite length_firstn, length_skipn.
  unfold appended. rewrite length_app. simpl. lia.
Qed.

Lemma slide_tail (pattern : list nat) (index : nat) :
  let appended := (pattern ++ [index])%list in
  Py.slice appended 1 (List.length appended) = tl appended.
Proof.
  intros appended. unfold Py.slice.
  replace (skipn 1 appended) with (tl appended) by (destruct appended; reflexivity).
  apply firstn_all2. destruct appended; simpl; lia.
Qed.

Section GeneratorFacts.

Variable model_predict : list (list Num.pyfloat) -> result (list Q).
Variable pitchnames : list token.
Variable n_vocab : nat.

Hypothesis model_ok : well_formed_model model_predict pitchnames.

Let step := Predict.generate_step model_predict pitchnames n_vocab.
Let loop := Predict.generate_loop model_predict pitchnames n_vocab.

(** One step emits the token of the selected id and slides the window:
    the id is appended and the oldest element dropped. *)
Lemma generate_step_ok (st : Predict.gen_state) :
  exists st' index result,
    step st = Ok st' /\
    nth_error pitchnames index = Some result /\
    Predict.pattern st' = tl (Predict.pattern st ++ [index])%list /\
    Predict.prediction_output st' = (Predict.prediction_output st ++ [result])%list /\
    List.length (Predict.pattern st') = List.length (Predict.pattern st).
Proof.
  unfold step, Predict.generate_step.
  destruct (model_ok (map (fun x => [Num.np_div x n_vocab]) (Predict.pattern st)))
    as (p & Hp & Hne & Hlen).
  rewrite Hp. cbn [bind].
  destruct (argmax_lt p Hne) as (index & Hidx & Hlt). rewrite Hidx. cbn [bind].
  unfold Predict.int_to_note.
  destruct (nth_error pitchnames index) as [t|] eqn:Et.
  2:{ apply nth_error_None in Et. lia. }
  cbn [of_option bind]. eexists. exists index, t.
  split; [reflexivity|]. cbn [Predict.pattern Predict.prediction_output].
  split; [exact Et|]. split; [apply slide_tail|]. split; [reflexivity|].
  apply slide_length.
Qed.

Lemma generate_loop_add (a b : nat) (st : Predict.gen_state) :
  loop (a + b) st = bind (loop a st) (loop b).
Proof.
  revert st. induction a as [|a IH]; intros st; [reflexivity|].
  unfold loop in *. cbn [Nat.add Predict.generate_loop].
  destruct (Predict.generate_step model_predict pitchnames n_vocab st) as [st'|];
    cbn [bind]; [apply IH | reflexivity].
Qed.

(** [n] steps succeed, keep the window length and emit [n] tokens. *)
Lemma generate_loop_ok (n : nat) (st : Predict.gen_state) :
  exists st',
    loop n st = Ok st' /\
    List.length (Predict.pattern st') = List.length (Predict.pattern st) /\
    List.length (Predict.prediction_output st')
    = n + List.length (Predict.prediction_output st).
Proof.
  revert st. induction n as [|n IH]; intros st.
  - exists st. repeat split.
  - destruct (generate_step_ok st) as (st1 & index & t & H1 & _ & _ & Ho1 & Hp1).
    destruct (IH st1) as (st' & H' & Hp' & Ho').
    exists st'. unfold loop in *. cbn [Predict.generate_loop].
    unfold step in H1. rewrite H1. cbn [bind].
    rewrite Ho1, length_app in Ho'. cbn [List.length] in Ho'.
    repeat split; [exact H' | congruence | lia].
Qed.

End GeneratorFacts.

Section GeneratorWindows.

Variable model_predict : list (list Num.pyfloat) -> result (list Q).
Variable pitchnames : list token.
Variable n_vocab : nat.
Variable L : nat.

Hypothesis model_answers : answers_windows model_predict pitchnames L.

(** One step on a window of length [L]: the model is given the [L] rows
    of the window, its arg-max is the id that is emitted and appended, and
    the window keeps its length. *)
Lemma generate_step_window (st : Predict.gen_state) :
  List.length (Predict.pattern st) = L ->
  let prediction_input :=
    map (fun x => [Num.np_div x n_vocab]) (Predict.pattern st) in
  exists prediction index result,
    List.length prediction_input = L /\
    model_predict prediction_input = Ok prediction /\
    Predict.argmax prediction = Ok index /\
    Predict.int_to_note pitchnames index = Ok result /\
    Predict.generate_step model_predict pitchnames n_vocab st
    = Ok (Predict.mkGen (tl (Predict.pattern st ++ [index]))
                        (Predict.prediction_output st ++ [result])) /\
    List.length (tl (Predict.pattern st ++ [index])) = L.
Proof.
  intros HL prediction_input.
  assert (Hshape : List.length prediction_input = L)
    by (unfold prediction_input; now rewrite length_map).
  assert (Hrows : Forall (fun row => List.length row = 1) prediction_input).
  { unfold prediction_input. apply Forall_forall. intros row Hrow.
    apply in_map_iff in Hrow as (x & <- & _). reflexivity. }
  destruct (model_answers prediction_input Hshape Hrows) as (p & Hp & Hne & Hlen).
  destruct (argmax_lt p Hne) as (index & Hidx & Hlt).
  destruct (nth_error pitchnames index) as [t|] eqn:Et.
  2:{ apply nth_error_None in Et. lia. }
  exists p, index, t. split; [exact Hshape|]. split; [exact Hp|].
  split; [exact Hidx|].
  assert (Hnote : Predict.int_to_note pitchnames index = Ok t)
    by (unfold Predict.int_to_note; now rewrite Et).
  split; [exact Hnote|]. split.
  - unfold Predict.generate_step. fold prediction_input. cbv zeta.
    rewrite Hp. cbn [bind]. rewrite Hidx. cbn [bind]. rewrite Hnote. cbn [bind].
    now rewrite slide_tail.
  - rewrite <- slide_tail, slide_length. exact HL.
Qed.

(** [n] steps from a window of length [L] succeed, keep the length and
    emit [n] tokens. *)
Lemma generate_loop_window (n : nat) (st : Predict.gen_state) :
  List.length (Predict.pattern st) = L ->
  exists st',
    Predict.generate_loop model_predict pitchnames n_vocab n st = Ok st' /\
    List.length (Predict.pattern st') = L /\
    List.length (Predict.prediction_output st')
    = n + List.length (Predict.prediction_output st).
Proof.
  revert st. induction n as [|n IH]; intros st HL.
  - exists st. repeat split. exact HL.
  - destruct (generate_step_window st HL)
      as (p & index & t & _ & _ & _ & _ & Hstep & HL').
    destruct (IH (Predict.mkGen (tl (Predict.pattern st ++ [index]))
                                (Predict.prediction_output st ++ [t])) HL')
      as (st' & Hrun & Hp' & Ho').
    exists st'. cbn [Predict.generate_loop]. rewrite Hstep. cbn [bind].
    cbn [Predict.pattern Predict.prediction_output] in *.
    rewrite length_app in Ho'. cbn [List.length] in Ho'.
    repeat split; [exact Hrun | exact Hp' | lia].
Qed.

End GeneratorWindows.

(** C2. For every seed window of length [L] and every step count [N], with
    a model that answers the windows of length [L], the loop makes [N]
    steps and emits exactly [N] tokens. For each [k < N] the state reached
    after [k] steps holds a window of length [L]; step [k] gives the model
    the [L] rows of that window, takes the arg-max of its answer, emits the
    token of that id, appends the id and drops the oldest element, and the
    run goes on with the remaining [N - k - 1] steps. *)
Theorem generator_length_invariant
    (model_predict : list (list Num.pyfloat) -> result (list Q))
    (pitchnames : list token) (n_vocab L N : nat) (seed : list nat) :
  answers_windows model_predict pitchnames L ->
  List.length seed = L ->
  let loop := Predict.generate_loop model_predict pitchnames n_vocab in
  let init := Predict.mkGen seed [] in
  exists st,
    loop N init = Ok st /\
    List.length (Predict.prediction_output st) = N /\
    List.length (Predict.pattern st) = L /\
    forall k, k < N ->
      exists stk stk' prediction index result,
        loop k init = Ok stk /\
        List.length (Predict.pattern stk) = L /\
        List.length (Predict.prediction_output stk) = k /\
        (let prediction_input :=
           map (fun x => [Num.np_div x n_vocab]) (Predict.pattern stk) in
         List.length prediction_input = L /\
         model_predict prediction_input = Ok prediction) /\
        Predict.argmax prediction = Ok index /\
        Predict.int_to_note pitchnames index = Ok result /\
        Predict.generate_step model_predict pitchnames n_vocab stk = Ok stk' /\
        Predict.pattern stk' = tl (Predict.pattern stk ++ [index])%list /\
        Predict.prediction_output stk'
        = (Predict.prediction_output stk ++ [result])%list /\
        loop N init = loop (N - S k) stk'.
Proof.
  intros Hm HL loop init.
  destruct (generate_loop_window model_predict pitchnames n_vocab L Hm N init HL)
    as (st & Hst & Hp & Ho).
  exists st. cbn in Ho. repeat split; [exact Hst | lia | exact Hp |].
  intros k Hk.
  destruct (generate_loop_window model_predict pitchnames n_vocab L Hm k init HL)
    as (stk & Hstk & Hpk & Hok).
  destruct (generate_step_window model_predict pitchnames n_vocab L Hm stk Hpk)
    as (p & index & t & Hshape & Hfeed & Hidx & Hnote & Hstep & _).
  exists stk, (Predict.mkGen (tl (Predict.pattern stk ++ [index]))
                             (Predict.prediction_output stk ++ [t])), p, index, t.
  cbn in Hok.
  split; [exact Hstk|]. split; [exact Hpk|]. split; [lia|].
  split; [split; [exact Hshape | exact Hfeed]|].
  split; [exact Hidx|]. split; [exact Hnote|]. split; [exact Hstep|].
  split; [reflexivity|]. split; [reflexivity|].
  unfold loop. replace N with (k + S (N - S k)) at 1 by lia.
  rewrite generate_loop_add, Hstk. cbn [bind Predict.generate_loop].
  rewrite Hstep. reflexivity.
Qed.

Lemma generator_length_invariant_witness :
  let model := fun x : list (list Num.pyfloat) =>
                 match x with
                 | [[a]; [_]] =>
                     match a with
                     | Num.Finite q =>
                         if Qle_bool q (1 # 2)
                         then Ok [(1 # 4)%Q; (1 # 4)%Q; (1 # 2)%Q]
                         else Ok [(1 # 2)%Q; (1 # 4)%Q; (1 # 4)%Q]
                     | _ => Ok [(1 # 1)%Q]
                     end
                 | _ => Raise ValueError
                 end in
  let pitchnames := ["0 C4 1.0 0.0"; "0 D4 1.0 0.0"; "0 E4 1.0 0.0"] in
  answers_windows model pitchnames 2 /\
  List.length [0; 1] = 2 /\
  exists st,
    Predict.generate_loop model pitchnames 3 5 (Predict.mkGen [0; 1] []) = Ok st /\
    List.length (Predict.prediction_output st) = 5 /\
    List.length (Predict.pattern st) = 2.
Proof.
  intros model pitchnames.
  assert (Hm : answers_windows model pitchnames 2).
  { intros x Hlen Hrows.
    destruct x as [|r1 [|r2 [|r3 x]]]; try discriminate Hlen.
    inversion Hrows as [|? ? H1 Hrows']; subst.
    inversion Hrows' as [|? ? H2 _]; subst.
    destruct r1 as [|a [|]]; try discriminate H1.
    destruct r2 as [|b [|]]; try discriminate H2.
    destruct a as [q| |]; cbn.
    - destruct (Qle_bool q (1 # 2)); eexists;
        (split; [reflexivity|]); (split; [discriminate | cbn; lia]).
    - eexists. split; [reflexivity|]. split; [discriminate | cbn; lia].
    - eexists. split; [reflexivity|]. split; [discriminate | cbn; lia]. }
  split; [exact Hm|]. split; [reflexivity|].
  destruct (generator_length_invariant model pitchnames 3 2 5 [0; 1] Hm eq_refl)
    as (st & H1 & H2 & H3 & _).
  exists st. repeat split; assumption.
Defined.

(** [generate_notes]: once a seed is drawn, exactly 500 tokens come out. *)
Lemma generate_notes_500
    (model_predict : list (list Num.pyfloat) -> result (list Q))
    (pitchnames : list token) (n_vocab : nat)
    (network_input : list (list nat)) (g g' : Rng) (start : Z) (seed : list nat) :
  well_formed_model model_predict pitchnames ->
  Predict.seed_start network_input g = Ok (start, g') ->
  index_Z network_input start = Ok seed ->
  exists out,
    Predict.generate_notes model_predict pitchnames n_vocab network_input g
    = Ok (out, g') /\ List.length out = 500.
Proof.
  intros Hm Hs Hseed. unfold Predict.generate_notes.
  rewrite Hs. cbn [bind]. rewrite Hseed. cbn [bind].
  destruct (generate_loop_ok model_predict pitchnames n_vocab Hm 500
              (Predict.mkGen seed [])) as (st & Hst & _ & Ho).
  rewrite Hst. cbn [bind]. exists (Predict.prediction_output st).
  split; [reflexivity|]. cbn in Ho. lia.
Qed.

(** ** Seed selection *)

Lemma np_randint_range (low high : Z) (g : Rng) :
  match np_randint low high g with
  | Ok (k, _) => (low <= k < high)%Z
  | Raise _ => (high <= low)%Z
  end.
Proof.
  unfold np_randint. destruct (high <=? low)%Z eqn:E.
  - now apply Z.leb_le.
  - apply Z.leb_gt in E. unfold next.
    pose proof (Z.mod_pos_bound (Z.of_nat (draws g (pos g))) (high - low)).
    lia.
Qed.

(** C8 on the code: whatever the generator draws, the start index lies in
    [[0, K - 2]] for [K] windows, so the last window is never the seed, and
    with a single window the call raises. *)
Theorem seed_start_never_last (network_input : list (list nat)) (g : Rng) :
  match Predict.seed_start network_input g with
  | Ok (start, _) => (0 <= start < len network_input - 1)%Z
  | Raise _ => (len network_input <= 1)%Z
  end.
Proof.
  unfold Predict.seed_start.
  pose proof (np_randint_range 0 (len network_input - 1) g) as H.
  destruct (np_randint 0 (len network_input - 1) g) as [[k g']|]; lia.
Qed.

(** With two windows the seed is the first one for every draw. *)
Lemma seed_of_two_windows (w0 w1 : list nat) (g : Rng) :
  bind (Predict.seed_start [w0; w1] g)
       (fun r => index_Z [w0; w1] (fst r)) = Ok w0.
Proof.
  pose proof (seed_start_bound := np_randint_range 0 (len [w0; w1] - 1) g).
  unfold Predict.seed_start.
  destruct (np_randint 0 (len [w0; w1] - 1) g) as [[k g']|] eqn:E.
  - cbn [bind fst]. cbn in seed_start_bound.
    assert (k = 0%Z) by lia. subst k. reflexivity.
  - cbn in seed_start_bound. lia.
Qed.

(** ** Literals with a slash *)

Lemma fstep_slash (st : Num.fstate) : Num.fstep st "/" = None.
Proof. destruct st as [[] [] m n s e a]; reflexivity. Qed.

Lemma frun_slash (s : string) (st : Num.fstate) :
  Py.contains "/" s = true -> Num.frun st s = None.
Proof.
  revert st. induction s as [|c s IH]; intros st H; [discriminate|].
  cbn [Py.contains] in H. cbn [Num.frun].
  destruct (Ascii.eqb c "/") eqn:E.
  - apply Ascii.eqb_eq in E. subst c. now rewrite fstep_slash.
  - cbn [orb] in H. destruct (Num.fstep st c); [now apply IH | reflexivity].
Qed.

Lemma lower_slash (c : ascii) : Ascii.eqb (Num.lower c) "/" = Ascii.eqb c "/".
Proof. destruct c as [[] [] [] [] [] [] [] []]; reflexivity. Qed.

Lemma contains_slash_lower (s : string) :
  Py.contains "/" (Num.lower_str s) = Py.contains "/" s.
Proof.
  induction s as [|c s IH]; [reflexivity|].
  cbn [Num.lower_str Py.contains]. now rewrite lower_slash, IH.
Qed.

Lemma unsigned_float_slash (s : string) :
  Py.contains "/" s = true -> Num.unsigned_float s = None.
Proof.
  intros H. unfold Num.unsigned_float.
  assert (Hl : Py.contains "/" (Num.lower_str s) = true)
    by now rewrite contains_slash_lower.
  destruct (String.eqb (Num.lower_str s) "inf") eqn:E1.
  { apply String.eqb_eq in E1. rewrite E1 in Hl. discriminate. }
  destruct (String.eqb (Num.lower_str s) "infinity") eqn:E2.
  { apply String.eqb_eq in E2. rewrite E2 in Hl. discriminate. }
  destruct (String.eqb (Num.lower_str s) "nan") eqn:E3.
  { apply String.eqb_eq in E3. rewrite E3 in Hl. discriminate. }
  cbn [orb]. now rewrite frun_slash.
Qed.

Lemma space_not_slash (c : ascii) : Num.is_space c = true -> Ascii.eqb c "/" = false.
Proof.
  destruct c as [[] [] [] [] [] [] [] []]; vm_compute; intros H;
    first [reflexivity | discriminate H].
Qed.

Lemma contains_slash_lstrip (s : string) :
  Py.contains "/" (Num.lstrip s) = Py.contains "/" s.
Proof.
  induction s as [|c s IH]; [reflexivity|].
  cbn [Num.lstrip Py.contains]. destruct (Num.is_space c) eqn:E; [|reflexivity].
  now rewrite (space_not_slash c E), IH.
Qed.

Lemma contains_slash_rstrip (s : string) :
  Py.contains "/" (Num.rstrip s) = Py.contains "/" s.
Proof.
  induction s as [|c s IH]; [reflexivity|].
  cbn [Num.rstrip Py.contains].
  destruct (Py.str_is_empty (Num.rstrip s)) eqn:Ee; destruct (Num.is_space c) eqn:Es;
    cbn [andb Py.contains]; rewrite ?IH; try reflexivity.
  rewrite (space_not_slash c Es), <- IH.
  destruct (Num.rstrip s); [reflexivity | discriminate].
Qed.

(** A literal with a [/] in it is never a float literal. *)
Lemma parse_float_slash (d : string) :
  Py.contains "/" d = true -> Num.parse_float d = None.
Proof.
  intros H. unfold Num.parse_float, Num.strip.
  rewrite <- contains_slash_lstrip, <- contains_slash_rstrip in H.
  destruct (Num.rstrip (Num.lstrip d)) as [|c r]; [discriminate|].
  destruct (Ascii.eqb c "+") eqn:Ep.
  { apply Ascii.eqb_eq in Ep. subst c. now apply unsigned_float_slash. }
  destruct (Ascii.eqb c "-") eqn:Em.
  { apply Ascii.eqb_eq in Em. subst c. now rewrite unsigned_float_slash. }
  now apply unsigned_float_slash.
Qed.

Lemma contains_append (c : ascii) (a b : string) :
  Py.contains c (a ++ b) = (Py.contains c a || Py.contains c b)%bool.
Proof.
  induction a as [|x a IH]; [reflexivity|].
  cbn [append Py.contains]. now rewrite IH, orb_assoc.
Qed.

Lemma split_on_from_word (sep : ascii) (w : string) :
  Py.contains sep w = false ->
  forall cur rest,
    Py.split_on_from sep cur (w ++ String sep rest)
    = (cur ++ w)%string :: Py.split_on_from sep "" rest.
Proof.
  induction w as [|c w IH]; intros Hw cur rest.
  - cbn [append Py.split_on_from]. now rewrite Ascii.eqb_refl, append_empty_r.
  - cbn [Py.contains] in Hw. apply orb_false_iff in Hw as [Hc Hw].
    cbn [append Py.split_on_from]. rewrite Hc, (IH Hw), append_assoc. reflexivity.
Qed.

Lemma split_on_from_last (sep : ascii) (w : string) :
  Py.contains sep w = false ->
  forall cur, Py.split_on_from sep cur w = [(cur ++ w)%string].
Proof.
  induction w as [|c w IH]; intros Hw cur.
  - cbn. now rewrite append_empty_r.
  - cbn [Py.contains] in Hw. apply orb_false_iff in Hw as [Hc Hw].
    cbn [Py.split_on_from]. rewrite Hc, (IH Hw), append_assoc. reflexivity.
Qed.

Lemma no_slash_uint (u : Decimal.uint) :
  Py.contains "/" (NilEmpty.string_of_uint u) = false.
Proof. induction u; cbn; auto. Qed.

Lemma no_slash_str_of_int (z : Z) : Py.contains "/" (Py.str_of_int z) = false.
Proof.
  unfold Py.str_of_int.
  destruct (Z.to_int z) as [u|u]; destruct u; cbn; auto using no_slash_uint.
Qed.

(** ** Duration literals *)

Lemma set_duration_float (p : Predict.GeneralNote) (d o : string) (v : Num.pyfloat) :
  Num.parse_float d = Some v ->
  Predict.set_duration p d o = Ok (Predict.mkNote (Predict.sounding p) v o).
Proof. intros H. unfold Predict.set_duration. now rewrite H. Qed.

Lemma set_duration_rational (p : Predict.GeneralNote) (d o : string) (a b : Z) :
  Py.contains "/" d = true ->
  (q0 <- Py.index (Py.split_on "/" d) 0 ;; Num.int q0) = Ok a ->
  (q1 <- Py.index_neg (Py.split_on "/" d) 1 ;; Num.int q1) = Ok b ->
  b <> 0%Z ->
  Num.overflows (inject_Z a / inject_Z b) = false ->
  Predict.set_duration p d o
  = Ok (Predict.mkNote (Predict.sounding p)
          (Num.finite (inject_Z a / inject_Z b)) o).
Proof.
  intros Hs Ha Hb Hnz Hov. unfold Predict.set_duration.
  rewrite (parse_float_slash d Hs), Hs.
  cbv zeta. rewrite Ha. cbn [bind]. rewrite Hb. cbn [bind].
  unfold Num.truediv. destruct (b =? 0)%Z eqn:E; [apply Z.eqb_eq in E; congruence|].
  cbv zeta. rewrite Hov. reflexivity.
Qed.

(** Every literal that is neither a float nor a [/] form ends in
    [NameError]. *)
Lemma set_duration_by_name (p : Predict.GeneralNote) (d o : string) :
  Num.parse_float d = None ->
  Py.contains "/" d = false ->
  Predict.set_duration p d o = Raise NameError.
Proof. intros Hf Hs. unfold Predict.set_duration. now rewrite Hf, Hs. Qed.

(** The text of a [Fraction] read back: [str(a) + "/" + str(b)] is not a
    float literal, splits into its two ints, and gives the quotient when
    that is within the range of the floats. *)
Lemma set_duration_fraction (p : Predict.GeneralNote) (a b : Z) (o : string) :
  b <> 0%Z ->
  Num.overflows (inject_Z a / inject_Z b) = false ->
  Predict.set_duration p (Py.str_of_int a ++ "/" ++ Py.str_of_int b) o
  = Ok (Predict.mkNote (Predict.sounding p)
          (Num.finite (inject_Z a / inject_Z b)) o).
Proof.
  intros Hb Hov.
  assert (Hs : Py.contains "/" (Py.str_of_int a ++ "/" ++ Py.str_of_int b) = true).
  { rewrite contains_append. cbn. now rewrite orb_true_r. }
  assert (Hsplit : Py.split_on "/" (Py.str_of_int a ++ "/" ++ Py.str_of_int b)
                   = [Py.str_of_int a; Py.str_of_int b]).
  { unfold Py.split_on. cbn [append].
    rewrite (split_on_from_word "/" _ (no_slash_str_of_int a)).
    rewrite (split_on_from_last "/" _ (no_slash_str_of_int b)). reflexivity. }
  unfold Predict.set_duration.
  rewrite (parse_float_slash _ Hs), Hs. cbv zeta. rewrite Hsplit.
  cbn [Py.index Py.index_neg nth_error of_option bind List.length Nat.leb Nat.sub].
  rewrite !int_str_of_int. cbn [bind].
  unfold Num.truediv. destruct (b =? 0)%Z eqn:E; [apply Z.eqb_eq in E; congruence|].
  cbv zeta. rewrite Hov. reflexivity.
Qed.

(** C4 on the code: the float form and the [a/b] form are read in that
    order, and the duration names of music21 ([quarter], [half]) raise
    [NameError] instead of reaching [duration.Duration]. *)
Theorem set_duration_forms :
  let n := Predict.new_note (Predict.Note "C4") in
  Predict.set_duration n "1.0" "0.0"
  = Ok (Predict.mkNote (Predict.Note "C4") (Num.Finite (1 # 1)) "0.0") /\
  Predict.set_duration n "1/3" "2.0"
  = Ok (Predict.mkNote (Predict.Note "C4") (Num.Finite (1 # 3)) "2.0") /\
  Predict.set_duration n "quarter" "0.0" = Raise NameError /\
  Predict.set_duration n "half" "0.0" = Raise NameError.
Proof. repeat split; vm_compute; reflexivity. Qed.

(** ** Instrument resolution *)

Lemma randint_draw (n : nat) (g : Rng) :
  n <> 0 ->
  randint 0 (Z.of_nat n - 1) g
  = Ok (Z.of_nat (draws g (pos g) mod n), snd (next g)).
Proof.
  intros Hn. unfold randint.
  destruct (Z.of_nat n - 1 <? 0)%Z eqn:E; [apply Z.ltb_lt in E; lia|].
  unfold next. cbn [snd]. do 2 f_equal.
  replace (Z.of_nat n - 1 - 0 + 1)%Z with (Z.of_nat n) by lia.
  rewrite Nat2Z.inj_mod. lia.
Qed.

Lemma index_Z_of_nat {A : Type} (xs : list A) (i : nat) :
  index_Z xs (Z.of_nat i) = of_option IndexError (nth_error xs i).
Proof.
  unfold index_Z. destruct (Z.of_nat i <? 0)%Z eqn:E; [apply Z.ltb_lt in E; lia|].
  now rewrite Nat2Z.id.
Qed.

(** The class drawn from a non-empty catalog is the one at the raw draw
    modulo the catalog length. *)
Lemma get_random_instrument_ok (all_instruments : list Instrument) (g : Rng) :
  all_instruments <> [] ->
  exists cls,
    nth_error all_instruments (draws g (pos g) mod List.length all_instruments)
    = Some cls /\
    Predict.get_random_instrument all_instruments g = Ok (cls, snd (next g)).
Proof.
  intros Hne.
  assert (Hn : List.length all_instruments <> 0) by (destruct all_instruments; simpl; congruence).
  unfold Predict.get_random_instrument, len.
  rewrite (randint_draw _ g Hn). cbn [bind]. rewrite index_Z_of_nat.
  destruct (nth_error all_instruments
              (draws g (pos g) mod List.length all_instruments)) as [cls|] eqn:E.
  - exists cls. split; reflexivity.
  - apply nth_error_None in E.
    pose proof (Nat.mod_upper_bound (draws g (pos g)) _ Hn). lia.
Qed.

(** A resolving key keeps the log and the generator untouched. *)
Lemma resolve_known_instrument
    (all_instruments : list Instrument)
    (instrumentFromMidiProgram : Z -> option Instrument)
    (instrument_key : string) (log : list string) (g : Rng)
    (p : Z) (i : Instrument) :
  Num.int instrument_key = Ok p ->
  instrumentFromMidiProgram p = Some i ->
  Predict.resolve_instrument all_instruments instrumentFromMidiProgram
    instrument_key log g = Ok (i, log, g).
Proof.
  intros Hp Hi. unfold Predict.resolve_instrument. rewrite Hp. cbn [bind].
  now rewrite Hi.
Qed.

(** ** Extraction and the random source *)

Section ExtractionFacts.

Variable ri : list Instrument.



End ExtractionFacts.




(** ** Tokens without pitches *)

(** The instrument dictionary after the key of a token is registered. *)
Lemma register_key_mem (instruments : Predict.instruments_t) (key : string) :
  Dict.mem (if negb (Dict.mem instruments key)
            then Dict.set instruments key []
            else instruments) key = true.
Proof.
  destruct (Dict.mem instruments key) eqn:E; cbn [negb]; [exact E|].
  unfold Dict.mem. now rewrite dict_get_set_same.
Qed.

Lemma decode_token_two_or_three (pattern : token) :
  List.length (Py.split pattern) = 2 \/ List.length (Py.split pattern) = 3 ->
  exists key dur off,
    nth_error (Py.split pattern) 0 = Some key /\
    decode_token pattern = Ok (key, [], dur, off).
Proof.
  unfold decode_token.
  destruct (Py.split pattern) as [|a [|b [|c [|d l]]]]; cbn [List.length];
    intros [H|H]; try discriminate.
  - exists a, a, b. split; reflexivity.
  - exists a, b, c. split; reflexivity.
Qed.

Lemma decode_token_short (pattern : token) :
  List.length (Py.split pattern) < 2 ->
  decode_token pattern = Raise IndexError.
Proof.
  unfold decode_token.
  destruct (Py.split pattern) as [|a [|b l]]; cbn [List.length]; intros H;
    [reflexivity | reflexivity | lia].
Qed.

(** C10 as the code behaves: a token whose split has two or three fields
    appends no note and no chord and raises nothing; its first field is
    registered as an instrument key (with an empty event list when it is
    new), and decoding goes on with the remaining tokens. A token whose
    split has fewer than two fields, one field or none, has no pitch either
    but raises [IndexError], and the tokens after it are not decoded. *)
Theorem token_without_pitches_is_dropped
    (instruments : Predict.instruments_t) (pattern : token) (rest : list token) :
  List.length (Py.split pattern) <= 3 ->
  Py.slice_to_neg (Py.split pattern) 1 2 = [] /\
  (List.length (Py.split pattern) < 2 ->
   Predict.decode_step instruments pattern = Raise IndexError /\
   for_each Predict.decode_step (pattern :: rest) instruments = Raise IndexError) /\
  (2 <= List.length (Py.split pattern) ->
   exists key,
     nth_error (Py.split pattern) 0 = Some key /\
     let registered := if negb (Dict.mem instruments key)
                       then Dict.set instruments key []
                       else instruments in
     Predict.decode_step instruments pattern = Ok registered /\
     Dict.mem registered key = true /\
     (forall k, k <> key -> Dict.get registered k = Dict.get instruments k) /\
     (Dict.mem instruments key = false -> Dict.get registered key = Some []) /\
     for_each Predict.decode_step (pattern :: rest) instruments
     = for_each Predict.decode_step rest registered).
Proof.
  intros Hlen. split; [|split].
  - destruct (Py.split pattern) as [|a [|b [|c [|d l]]]]; try reflexivity.
    cbn [List.length] in Hlen. lia.
  - intros Hshort.
    assert (Hstep : Predict.decode_step instruments pattern = Raise IndexError)
      by (unfold Predict.decode_step; now rewrite (decode_token_short pattern Hshort)).
    split; [exact Hstep|]. cbn [for_each]. now rewrite Hstep.
  - intros Hlong.
    destruct (decode_token_two_or_three pattern) as (key & dur & off & Hkey & Hdec);
      [lia|].
    exists key. split; [exact Hkey|]. cbv zeta.
    assert (Hstep : Predict.decode_step instruments pattern
                    = Ok (if negb (Dict.mem instruments key)
                          then Dict.set instruments key []
                          else instruments)).
    { unfold Predict.decode_step. rewrite Hdec. reflexivity. }
    split; [exact Hstep|]. split; [apply register_key_mem|].
    split; [|split].
    + intros k Hk. destruct (Dict.mem instruments key); cbn [negb]; [reflexivity|].
      apply dict_get_set_other. congruence.
    + intros Hnew. rewrite Hnew. cbn [negb]. apply dict_get_set_same.
    + cbn [for_each]. rewrite Hstep. reflexivity.
Qed.

Lemma token_without_pitches_is_dropped_witness :
  (List.length (Py.split "7 1.0 2.0") <= 3 /\
   exists key,
     nth_error (Py.split "7 1.0 2.0") 0 = Some key /\
     Predict.decode_step [] "7 1.0 2.0" = Ok [(key, [])]) /\
  (List.length (Py.split " ") <= 3 /\
   Predict.decode_step [] " " = Raise IndexError /\
   for_each Predict.decode_step [" "; "0 C4 1.0 0.0"] [] = Raise IndexError).
Proof.
  assert (H3 : List.length (Py.split "7 1.0 2.0") <= 3) by (vm_compute; lia).
  assert (H0 : List.length (Py.split " ") <= 3) by (vm_compute; lia).
  split; (split; [assumption|]).
  - destruct (token_without_pitches_is_dropped [] "7 1.0 2.0" [] H3)
      as (_ & _ & Hlong).
    destruct Hlong as (key & Hkey & Hstep & _); [vm_compute; lia|].
    exists key. split; [exact Hkey | exact Hstep].
  - destruct (token_without_pitches_is_dropped [] " " ["0 C4 1.0 0.0"] H0)
      as (_ & Hshort & _).
    apply Hshort. vm_compute. lia.
Defined.

(** A token of one field has an empty pitch slice as well, and raises
    [IndexError] at [parts[-2]]: the tokens after it are not decoded. *)
Lemma one_field_token_raises :
  Py.slice_to_neg (Py.split "7") 1 2 = [] /\
  Predict.decode_step [] "7" = Raise IndexError /\
  Predict.decode_tokens ["7"; "0 C4 1.0 0.0"] = Raise IndexError.
Proof. repeat split; reflexivity. Qed.

(** The key of a dropped token still gets a part, with no event in it. *)
Lemma dropped_token_gives_empty_part :
  bind (Predict.create_midi example_catalog example_table example_library 1
          ["7 1.0 2.0"] (constant_rng 0))
       (fun r => Ok (map (fun s => Predict.part_notes (fst s))
                         (Predict.midi_stream (fst r))))
  = Ok [[]].
Proof. reflexivity. Qed.

(** ** Assembling the parts *)

Lemma dict_get_of_key {V : Type} (d : Dict.t V) (k : string) :
  In k (Dict.keys d) -> exists v, Dict.get d k = Some v.
Proof.
  induction d as [|[k' v'] d IH]; cbn [Dict.keys map fst In Dict.get]; [tauto|].
  intros [->|H].
  - exists v'. now rewrite String.eqb_refl.
  - destruct (String.eqb k' k); [now exists v' | now apply IH].
Qed.

Section AssembleFacts.

Variable all_instruments : list Instrument.
Variable instrumentFromMidiProgram : Z -> option Instrument.
Hypothesis catalog_not_empty : all_instruments <> [].

(** With a non-empty catalog the resolution of a key never raises. *)
Lemma resolve_instrument_total (instrument_key : string) (log : list string) (g : Rng) :
  exists r,
    Predict.resolve_instrument all_instruments instrumentFromMidiProgram
      instrument_key log g = Ok r.
Proof.
  unfold Predict.resolve_instrument.
  destruct (p <- Num.int instrument_key ;;
            of_option ValueError (instrumentFromMidiProgram p)) as [i|e].
  - eexists. reflexivity.
  - destruct (get_random_instrument_ok all_instruments g catalog_not_empty)
      as (cls & _ & Hget).
    rewrite Hget. cbn [bind]. eexists. reflexivity.
Qed.

End AssembleFacts.

(** [predict.py]: the windows returned by its [prepare_sequences] are the
    slices of length 64 of the id stream, in order, with their normalised
    copy. *)
Lemma predict_prepare_sequences_spec (notes pitchnames : list token)
    (n_vocab : nat) (ids : list nat) :
  mapM (Dict.lookup (make_note_to_int pitchnames)) notes = Ok ids ->
  64 < List.length notes ->
  exists network_input,
    Predict.prepare_sequences notes pitchnames n_vocab
    = Ok (network_input, normalize n_vocab network_input) /\
    List.length network_input = List.length notes - 64 /\
    forall i, i < List.length notes - 64 ->
      nth_error network_input i = Some (Py.slice ids i (i + 64)).
Proof.
  intros Hids HM.
  destruct (sequence_loop_spec 64 _ notes ids Hids HM)
    as (ins & outs & Hrun & _ & Hli & _ & Hnth).
  exists ins. unfold Predict.prepare_sequences, Predict.sequence_length.
  rewrite Hrun. cbn [bind]. repeat split; auto. intros i Hi. apply (Hnth i Hi).
Qed.

(** ** The vocabulary *)

Lemma leb_iff (a b : string) :
  String.leb a b = true <-> a = b \/ String_as_OT.lt a b.
Proof.
  unfold String.leb. destruct (String.compare a b) eqn:E.
  - apply String_as_OT.cmp_eq in E. tauto.
  - apply String_as_OT.cmp_lt in E. tauto.
  - split; [discriminate|]. intros [->|H].
    + assert (String.compare b b = Eq) by now apply String_as_OT.cmp_eq.
      congruence.
    + apply String_as_OT.cmp_lt in H. unfold String_as_OT.cmp in H. congruence.
Qed.

Lemma ltb_iff (a b : string) : String.ltb a b = true <-> String_as_OT.lt a b.
Proof.
  unfold String.ltb. rewrite <- String_as_OT.cmp_lt. unfold String_as_OT.cmp.
  destruct (String.compare a b); split; congruence.
Qed.

Lemma leb_transitive : Relations_1.Transitive (fun a b => is_true (String.leb a b)).
Proof.
  intros a b c Hab Hbc. unfold is_true in *. rewrite leb_iff in *.
  destruct Hab as [->|Hab]; [exact Hbc|].
  destruct Hbc as [<-|Hbc]; [now right|].
  right. eapply String_as_OT.lt_trans; eassumption.
Qed.

Lemma sorted_leb (l : list string) :
  StronglySorted (fun a b => String.leb a b = true) (sorted l).
Proof.
  pose proof (StringSort.StronglySorted_sort l leb_transitive) as H.
  unfold sorted. induction H; constructor; auto.
Qed.

Lemma sorted_In (l : list string) (x : string) : In x (sorted l) <-> In x l.
Proof.
  unfold sorted. split; apply Permutation_in;
    [apply Permutation_sym|]; apply StringSort.Permuted_sort.
Qed.

Lemma sorted_NoDup (l : list string) : NoDup l -> NoDup (sorted l).
Proof. apply Permutation_NoDup, StringSort.Permuted_sort. Qed.

(** A duplicate-free list sorted by [<=] is strictly increasing. *)
Lemma strictly_sorted (l : list string) :
  NoDup l -> StronglySorted (fun a b => String.leb a b = true) l ->
  StronglySorted (fun a b => String.ltb a b = true) l.
Proof.
  intros Hnd Hs. induction Hs as [|a l Hs IH Hall]; constructor.
  - apply IH. now inversion Hnd.
  - inversion Hnd as [|? ? Hnotin _]; subst.
    rewrite Forall_forall in *. intros x Hx.
    apply ltb_iff. specialize (Hall x Hx). apply leb_iff in Hall.
    destruct Hall as [->|H]; [contradiction | exact H].
Qed.

(** Two strictly increasing lists with the same elements are equal. *)
Lemma strictly_sorted_unique (l1 l2 : list string) :
  StronglySorted (fun a b => String.ltb a b = true) l1 ->
  StronglySorted (fun a b => String.ltb a b = true) l2 ->
  (forall x, In x l1 <-> In x l2) -> l1 = l2.
Proof.
  intros H1. revert l2. induction H1 as [|a l1 Hs1 IH Ha]; intros l2 H2 Hin.
  - destruct l2 as [|b l2]; [reflexivity|].
    destruct (proj2 (Hin b) (or_introl eq_refl)).
  - destruct H2 as [|b l2 Hs2 Hb].
    { destruct (proj1 (Hin a) (or_introl eq_refl)). }
    rewrite Forall_forall in Ha, Hb.
    assert (Hirr : forall x, ~ String_as_OT.lt x x)
      by (intros x Hx; exact (String_as_OT.lt_not_eq _ _ Hx eq_refl)).
    assert (Hab : a = b).
    { destruct (proj1 (Hin a) (or_introl eq_refl)) as [Hba|Hal2]; [congruence|].
      destruct (proj2 (Hin b) (or_introl eq_refl)) as [Hba|Hbl1]; [congruence|].
      exfalso. apply (Hirr a).
      apply (String_as_OT.lt_trans a b a); apply ltb_iff; auto. }
    subst b. f_equal. apply IH; [exact Hs2|].
    intros x. split; intros Hx.
    + destruct (proj1 (Hin x) (or_intror Hx)) as [<-|H]; [|exact H].
      exfalso. apply (Hirr a), ltb_iff. now apply Ha.
    + destruct (proj2 (Hin x) (or_intror Hx)) as [<-|H]; [|exact H].
      exfalso. apply (Hirr a), ltb_iff. now apply Hb.
Qed.

Lemma pitchnames_of_In (notes : list token) (x : token) :
  In x (Lstm.pitchnames_of notes) <-> In x notes.
Proof.
  unfold Lstm.pitchnames_of, py_set. rewrite sorted_In. apply nodup_In.
Qed.

Lemma pitchnames_of_NoDup (notes : list token) : NoDup (Lstm.pitchnames_of notes).
Proof. apply sorted_NoDup, NoDup_nodup. Qed.

Lemma pitchnames_of_strict (notes : list token) :
  StronglySorted (fun a b => String.ltb a b = true) (Lstm.pitchnames_of notes).
Proof.
  apply strictly_sorted; [apply pitchnames_of_NoDup | apply sorted_leb].
Qed.

(** X1. [sorted(set(notes))] is strictly increasing in the order of the
    code points, so it has no duplicate, and its elements are exactly the
    tokens of the corpus. *)
Theorem vocabulary_sorted_and_complete (notes : list token) :
  StronglySorted (fun a b => String.ltb a b = true) (Lstm.pitchnames_of notes) /\
  NoDup (Lstm.pitchnames_of notes) /\
  (forall x, In x (Lstm.pitchnames_of notes) <-> In x notes).
Proof.
  split; [apply pitchnames_of_strict|].
  split; [apply pitchnames_of_NoDup | apply pitchnames_of_In].
Qed.

(** X2. The vocabulary depends on the set of tokens only: two corpora with
    the same tokens, in any order and with any repetitions, get the same
    pitch names, the same dictionary and the same [n_vocab]. *)
Theorem vocabulary_order_independent (notes notes' : list token) :
  (forall x, In x notes <-> In x notes') ->
  Lstm.pitchnames_of notes = Lstm.pitchnames_of notes' /\
  make_note_to_int (Lstm.pitchnames_of notes)
  = make_note_to_int (Lstm.pitchnames_of notes') /\
  Lstm.n_vocab_of notes = Lstm.n_vocab_of notes'.
Proof.
  intros Hin.
  assert (H : Lstm.pitchnames_of notes = Lstm.pitchnames_of notes').
  { apply strictly_sorted_unique; try apply pitchnames_of_strict.
    intros x. rewrite !pitchnames_of_In. apply Hin. }
  split; [exact H|]. split; [now rewrite H|].
  rewrite <- !n_vocab_is_len_pitchnames. now rewrite H.
Qed.

Lemma vocabulary_order_independent_witness :
  (forall x, In x ["b"; "a"; "b"] <-> In x ["a"; "b"]) /\
  Lstm.pitchnames_of ["b"; "a"; "b"] = Lstm.pitchnames_of ["a"; "b"].
Proof.
  assert (H : forall x, In x ["b"; "a"; "b"] <-> In x ["a"; "b"])
    by (intros x; simpl; tauto).
  split; [exact H|].
  exact (proj1 (vocabulary_order_independent ["b"; "a"; "b"] ["a"; "b"] H)).
Defined.

(** *** Ids and tokens *)

Lemma note_to_int_from_other (ps : list token) (n : nat) (d : Dict.t nat) (x : token) :
  ~ In x ps -> Dict.get (note_to_int_from n ps d) x = Dict.get d x.
Proof.
  revert n d. induction ps as [|p ps IH]; intros n d Hx; [reflexivity|].
  cbn [note_to_int_from]. rewrite IH by (intros H; apply Hx; now right).
  apply dict_get_set_other. intros ->. apply Hx. now left.
Qed.

Lemma note_to_int_from_nth (ps : list token) (n : nat) (d : Dict.t nat)
    (k : nat) (x : token) :
  NoDup ps -> nth_error ps k = Some x ->
  Dict.get (note_to_int_from n ps d) x = Some (n + k).
Proof.
  revert n d k. induction ps as [|p ps IH]; intros n d k Hnd Hk.
  - destruct k; discriminate.
  - inversion Hnd as [|? ? Hp Hnd']; subst. cbn [note_to_int_from].
    destruct k as [|k]; cbn [nth_error] in Hk.
    + injection Hk as <-. rewrite note_to_int_from_other by exact Hp.
      rewrite dict_get_set_same. f_equal. lia.
    + rewrite (IH (S n) _ k Hnd' Hk). f_equal. lia.
Qed.

(** On a duplicate-free list of pitch names, [note_to_int] sends a token to
    its position and to nothing else. *)
Lemma note_to_int_spec (ps : list token) (x : token) (i : nat) :
  NoDup ps ->
  (Dict.get (make_note_to_int ps) x = Some i <-> nth_error ps i = Some x).
Proof.
  intros Hnd. unfold make_note_to_int. split.
  - intros Hget. destruct (in_dec string_dec x ps) as [Hin|Hout].
    + destruct (In_nth_error ps x Hin) as (k & Hk).
      rewrite (note_to_int_from_nth ps 0 [] k x Hnd Hk) in Hget.
      injection Hget as <-. exact Hk.
    + rewrite note_to_int_from_other in Hget by exact Hout. discriminate.
  - intros Hk. now rewrite (note_to_int_from_nth ps 0 [] i x Hnd Hk).
Qed.

(** X3. The two dictionaries of the vocabulary are inverse bijections:
    [note_to_int] gives a token of the corpus an id below [n_vocab],
    [int_to_note] gives that token back, and every id below [n_vocab] is
    the id of its own token. *)
Theorem vocabulary_bijection (notes : list token) :
  let pitchnames := Lstm.pitchnames_of notes in
  let note_to_int := make_note_to_int pitchnames in
  (forall t, In t notes ->
     exists i, Dict.lookup note_to_int t = Ok i /\
               i < Lstm.n_vocab_of notes /\
               Predict.int_to_note pitchnames i = Ok t) /\
  (forall i, i < Lstm.n_vocab_of notes ->
     exists t, Predict.int_to_note pitchnames i = Ok t /\
               In t notes /\
               Dict.lookup note_to_int t = Ok i) /\
  (forall t, ~ In t notes -> Dict.lookup note_to_int t = Raise KeyError) /\
  (forall i, Lstm.n_vocab_of notes <= i ->
     Predict.int_to_note pitchnames i = Raise KeyError).
Proof.
  intros pitchnames note_to_int.
  pose proof (pitchnames_of_NoDup notes) as Hnd.
  pose proof (n_vocab_is_len_pitchnames notes) as Hlen.
  fold pitchnames in Hnd, Hlen.
  unfold Dict.lookup, Predict.int_to_note.
  split; [|split; [|split]].
  - intros t Ht. apply pitchnames_of_In in Ht. fold pitchnames in Ht.
    destruct (In_nth_error pitchnames t Ht) as (i & Hi). exists i.
    unfold note_to_int. rewrite (proj2 (note_to_int_spec pitchnames t i Hnd) Hi), Hi.
    repeat split. rewrite <- Hlen. apply nth_error_Some. congruence.
  - intros i Hi. rewrite <- Hlen in Hi.
    destruct (nth_error pitchnames i) as [t|] eqn:Et.
    2:{ apply nth_error_None in Et. lia. }
    exists t. split; [reflexivity|]. split.
    + apply pitchnames_of_In. fold pitchnames. eapply nth_error_In, Et.
    + unfold note_to_int. now rewrite (proj2 (note_to_int_spec pitchnames t i Hnd) Et).
  - intros t Ht. unfold note_to_int, make_note_to_int.
    rewrite note_to_int_from_other; [reflexivity|].
    unfold pitchnames. now rewrite pitchnames_of_In.
  - intros i Hi. rewrite <- Hlen in Hi.
    apply nth_error_None in Hi. now rewrite Hi.
Qed.

(** *** The training arrays *)

Lemma mapM_Forall {A B : Type} (f : A -> result B) (P : B -> Prop)
    (xs : list A) (ys : list B) :
  mapM f xs = Ok ys ->
  (forall x y, In x xs -> f x = Ok y -> P y) -> Forall P ys.
Proof.
  revert ys. induction xs as [|x xs IH]; intros ys; simpl.
  - intros [= <-] _. constructor.
  - destruct (f x) as [y|] eqn:E; [|discriminate]. cbn [bind].
    destruct (mapM f xs) as [ys'|]; [|discriminate]. cbn [bind].
    intros [= <-] H. constructor; [eapply H; eauto|].
    apply IH; [reflexivity|]. intros x' y' Hx'. apply H. now right.
Qed.

Lemma slice_In {A : Type} (l : list A) (i j : nat) (x : A) :
  In x (Py.slice l i j) -> In x l.
Proof.
  unfold Py.slice. intros H.
  rewrite <- (firstn_skipn i l). apply in_or_app. right.
  rewrite <- (firstn_skipn (j - i) (skipn i l)). apply in_or_app. now left.
Qed.

Lemma slice_length {A : Type} (l : list A) (i n : nat) :
  i + n <= List.length l -> List.length (Py.slice l i (i + n)) = n.
Proof.
  intros H. unfold Py.slice. rewrite length_firstn, length_skipn. lia.
Qed.

(** The ids of a corpus in its own vocabulary are below [n_vocab]. *)
Lemma corpus_ids_in_range (notes : list token) (ids : list nat) :
  mapM (Dict.lookup (make_note_to_int (Lstm.pitchnames_of notes))) notes = Ok ids ->
  Forall (fun i => i < Lstm.n_vocab_of notes) ids.
Proof.
  intros H. apply (mapM_Forall _ _ _ _ H). intros x y _ Hy.
  unfold Dict.lookup in Hy.
  destruct (Dict.get (make_note_to_int (Lstm.pitchnames_of notes)) x) as [i|] eqn:E;
    [|discriminate].
  injection Hy as <-.
  apply (note_to_int_spec _ _ _ (pitchnames_of_NoDup notes)) in E.
  rewrite <- n_vocab_is_len_pitchnames. apply nth_error_Some. congruence.
Qed.

(** An id below [n_vocab] is normalised into [[0, 1)]. *)
Lemma np_div_unit (x n : nat) :
  x < n -> exists q, Num.np_div x n = Num.Finite q /\ (0 <= q)%Q /\ (q < 1)%Q.
Proof.
  intros Hx. destruct n as [|n]; [lia|]. cbn [Num.np_div].
  eexists. split; [reflexivity|].
  assert (Hn : (0 < inject_Z (Z.of_nat (S n)))%Q)
    by (rewrite <- (Zlt_Qlt 0); lia).
  rewrite Qred_correct. split.
  - apply Qle_shift_div_l; [exact Hn|]. rewrite Qmult_0_l.
    rewrite <- (Zle_Qle 0). lia.
  - apply Qlt_shift_div_r; [exact Hn|]. rewrite Qmult_1_l.
    rewrite <- Zlt_Qlt. lia.
Qed.

(** X4. With more than a hundred tokens, [prepare_sequences] of [lstm.py]
    returns [M - 100] windows of shape [(100, 1)] whose entries all lie in
    [[0, 1)], and [M - 100] target rows. *)
Theorem training_arrays_shape (notes : list token) :
  100 < List.length notes ->
  exists network_input network_output,
    Lstm.prepare_sequences notes (Lstm.n_vocab_of notes)
    = Ok (network_input, network_output) /\
    List.length network_input = List.length notes - 100 /\
    List.length network_output = List.length notes - 100 /\
    Forall (fun w => List.length w = 100 /\ Forall in_unit_cell w) network_input.
Proof.
  intros HM.
  destruct (training_samples_spec notes HM)
    as (ids & ins & outs & Hids & Hrun & Hli & Hlo & Hnth).
  pose proof (mapM_length _ _ _ Hids) as Hlen.
  pose proof (corpus_ids_in_range notes ids Hids) as Hrange.
  unfold Lstm.prepare_sequences. rewrite Hrun. cbn [bind].
  destruct outs as [|o outs]; [cbn in Hlo; lia|].
  cbn [Lstm.to_categorical bind].
  eexists. eexists. split; [reflexivity|].
  unfold normalize. rewrite !length_map. repeat split; try assumption.
  apply Forall_forall. intros w Hw.
  apply in_map_iff in Hw as (win & <- & Hwin).
  destruct (In_nth_error ins win Hwin) as (i & Hi).
  assert (Hilt : i < List.length notes - 100).
  { rewrite <- Hli. apply nth_error_Some. congruence. }
  destruct (Hnth i Hilt) as [Hslice _]. rewrite Hi in Hslice.
  injection Hslice as ->. rewrite length_map. split.
  - apply slice_length. lia.
  - apply Forall_forall. intros c Hc.
    apply in_map_iff in Hc as (x & <- & Hx).
    apply slice_In in Hx. rewrite Forall_forall in Hrange.
    destruct (np_div_unit x _ (Hrange x Hx)) as (q & Hq & H0 & H1).
    exists q. rewrite Hq. repeat split; assumption.
Qed.

Lemma training_arrays_shape_witness :
  let notes := (repeat "0 C4 1.0 0.0" 60 ++ repeat "40 E4 G4 1/3 2.0" 42)%list in
  100 < List.length notes /\
  exists network_input network_output,
    Lstm.prepare_sequences notes (Lstm.n_vocab_of notes)
    = Ok (network_input, network_output) /\
    List.length network_input = List.length notes - 100 /\
    List.length network_output = List.length notes - 100 /\
    Forall (fun w => List.length w = 100 /\ Forall in_unit_cell w) network_input.
Proof.
  intros notes.
  assert (H : 100 < List.length notes)
    by (unfold notes; rewrite length_app, !repeat_length; lia).
  split; [exact H|]. exact (training_arrays_shape notes H).
Defined.

(** ** Vocabulary and corpus out of step *)

Lemma mapM_In_ok {A B : Type} (f : A -> result B) (xs : list A) (ys : list B) (x : A) :
  mapM f xs = Ok ys -> In x xs -> exists y, f x = Ok y.
Proof.
  revert ys. induction xs as [|x0 xs IH]; intros ys; simpl; [tauto|].
  destruct (f x0) as [y0|] eqn:E; [|discriminate]. cbn [bind].
  destruct (mapM f xs) as [ys'|]; [|discriminate]. cbn [bind].
  intros _ [<-|H]; [now exists y0 | now apply (IH ys')].
Qed.

Lemma mapM_lookup_error (d : Dict.t nat) (xs : list token) :
  (exists ys, mapM (Dict.lookup d) xs = Ok ys) \/
  mapM (Dict.lookup d) xs = Raise KeyError.
Proof.
  induction xs as [|x xs IH]; simpl; [left; now exists []|].
  unfold Dict.lookup at 1 3. destruct (Dict.get d x) as [y|]; cbn [of_option bind];
    [|right; reflexivity].
  destruct IH as [(ys & Hys)|Hys]; rewrite Hys; cbn [bind];
    [left; now eexists | now right].
Qed.

Section Desync.

Variable sequence_length : nat.
Variable note_to_int : Dict.t nat.
Variable notes : list token.

(** Inside the range of the loop a step raises nothing but [KeyError]. *)
Lemma sequence_step_error (acc : list (list nat) * list nat) (i : nat) :
  i + sequence_length < List.length notes ->
  (exists acc' t,
     sequence_step sequence_length note_to_int notes acc i = Ok acc' /\
     nth_error notes (i + sequence_length) = Some t /\
     Dict.get note_to_int t <> None /\
     forall x, In x (Py.slice notes i (i + sequence_length)) ->
               Dict.get note_to_int x <> None) \/
  sequence_step sequence_length note_to_int notes acc i = Raise KeyError.
Proof.
  intros Hi. unfold sequence_step, Py.index. cbv zeta.
  destruct (nth_error notes (i + sequence_length)) as [t|] eqn:Et.
  2:{ apply nth_error_None in Et. lia. }
  cbn [of_option bind].
  destruct (mapM_lookup_error note_to_int (Py.slice notes i (i + sequence_length)))
    as [(xs & Hxs)|Hxs]; rewrite Hxs; cbn [bind]; [|now right].
  unfold Dict.lookup. destruct (Dict.get note_to_int t) as [y|] eqn:Ey;
    cbn [of_option bind]; [|now right].
  left. eexists. exists t. repeat split; try congruence.
  intros x Hx. destruct (mapM_In_ok _ _ _ x Hxs Hx) as (y' & Hy').
  unfold Dict.lookup in Hy'. destruct (Dict.get note_to_int x); [congruence | discriminate].
Qed.

Lemma sequence_loop_error (n a : nat) (acc : list (list nat) * list nat) :
  (n = 0 \/ a + n + sequence_length <= List.length notes) ->
  (exists r,
     for_each (sequence_step sequence_length note_to_int notes) (seq a n) acc = Ok r /\
     forall i, a <= i < a + n ->
       (forall x, In x (Py.slice notes i (i + sequence_length)) ->
                  Dict.get note_to_int x <> None) /\
       (forall t, nth_error notes (i + sequence_length) = Some t ->
                  Dict.get note_to_int t <> None)) \/
  for_each (sequence_step sequence_length note_to_int notes) (seq a n) acc
  = Raise KeyError.
Proof.
  revert a acc. induction n as [|n IH]; intros a acc Hb.
  - left. exists acc. split; [reflexivity|]. intros i Hi. lia.
  - destruct Hb as [Hb|Hb]; [discriminate|]. cbn [seq for_each].
    destruct (sequence_step_error acc a) as [(acc' & t & Hs & Ht & Hget & Hwin)|Hs];
      [lia | | rewrite Hs; now right].
    rewrite Hs. cbn [bind].
    destruct (IH (S a) acc') as [(r & Hr & Hall)|Hr]; [right; lia | | now right].
    left. exists r. split; [exact Hr|]. intros i Hi.
    destruct (Nat.eq_dec i a) as [->|Hne].
    + split; [exact Hwin|]. intros t' Ht'. congruence.
    + apply Hall. lia.
Qed.

(** A token of the corpus without an id makes the loop raise [KeyError]
    as soon as the corpus is longer than a window. *)
Lemma sequence_loop_missing (t : token) :
  sequence_length < List.length notes ->
  In t notes -> Dict.get note_to_int t = None ->
  sequence_loop sequence_length note_to_int notes = Raise KeyError.
Proof.
  intros HL Ht Hnone. unfold sequence_loop, range0, len.
  replace (Z.to_nat (Z.of_nat (List.length notes) - Z.of_nat sequence_length))
    with (List.length notes - sequence_length) by lia.
  destruct (sequence_loop_error (List.length notes - sequence_length) 0 ([], []))
    as [(r & _ & Hall)|Hr]; [right; lia | | exact Hr].
  exfalso. destruct (In_nth_error notes t Ht) as (j & Hj).
  assert (Hjlt : j < List.length notes) by (apply nth_error_Some; congruence).
  destruct (Nat.lt_ge_cases j sequence_length) as [Hlt|Hge].
  - destruct (Hall 0) as [Hwin _]; [lia|]. apply (Hwin t); [|exact Hnone].
    unfold Py.slice. cbn [skipn Nat.add]. rewrite Nat.sub_0_r.
    apply (nth_error_In _ j). rewrite nth_error_firstn.
    destruct (Nat.ltb_spec j sequence_length); [exact Hj | lia].
  - destruct (Hall (j - sequence_length)) as [_ Htgt]; [lia|].
    apply (Htgt t); [|exact Hnone].
    now replace (j - sequence_length + sequence_length) with j by lia.
Qed.

(** At most one window's worth of tokens: the loop body never runs. *)
Lemma sequence_loop_short :
  List.length notes <= sequence_length ->
  sequence_loop sequence_length note_to_int notes = Ok ([], []).
Proof.
  intros H. unfold sequence_loop, range0, len.
  replace (Z.to_nat (Z.of_nat (List.length notes) - Z.of_nat sequence_length))
    with 0 by lia.
  reflexivity.
Qed.

End Desync.

(** X5. [prepare_sequences] of [predict.py] with pitch names that miss a
    token of a corpus longer than 64 raises [KeyError], whichever token it
    is and wherever it stands. *)
Theorem prepare_sequences_missing_token (notes pitchnames : list token)
    (n_vocab : nat) (t : token) :
  64 < List.length notes ->
  In t notes -> ~ In t pitchnames ->
  Predict.prepare_sequences notes pitchnames n_vocab = Raise KeyError.
Proof.
  intros HM Ht Hout. unfold Predict.prepare_sequences, Predict.sequence_length.
  rewrite (sequence_loop_missing 64 (make_note_to_int pitchnames) notes t HM Ht);
    [reflexivity|].
  unfold make_note_to_int. now rewrite note_to_int_from_other.
Qed.

Lemma prepare_sequences_missing_token_witness :
  64 < List.length (repeat "0 C4 1.0 0.0" 64 ++ ["0 D4 1.0 0.0"]) /\
  In "0 D4 1.0 0.0" (repeat "0 C4 1.0 0.0" 64 ++ ["0 D4 1.0 0.0"]) /\
  ~ In "0 D4 1.0 0.0" ["0 C4 1.0 0.0"] /\
  Predict.prepare_sequences (repeat "0 C4 1.0 0.0" 64 ++ ["0 D4 1.0 0.0"])
    ["0 C4 1.0 0.0"] 1 = Raise KeyError.
Proof.
  assert (H1 : 64 < List.length (repeat "0 C4 1.0 0.0" 64 ++ ["0 D4 1.0 0.0"]))
    by (rewrite length_app, repeat_length; simpl; lia).
  assert (H2 : In "0 D4 1.0 0.0" (repeat "0 C4 1.0 0.0" 64 ++ ["0 D4 1.0 0.0"]))
    by (apply in_or_app; right; now left).
  assert (H3 : ~ In "0 D4 1.0 0.0" ["0 C4 1.0 0.0"])
    by (intros [H|[]]; discriminate H).
  split; [exact H1|]. split; [exact H2|]. split; [exact H3|].
  exact (prepare_sequences_missing_token _ ["0 C4 1.0 0.0"] 1 "0 D4 1.0 0.0" H1 H2 H3).
Defined.

(** ** Runs of the generator *)

Section GeneratorRuns.

Variable model_predict : list (list Num.pyfloat) -> result (list Q).
Variable pitchnames : list token.
Variable n_vocab : nat.

Let step := Predict.generate_step model_predict pitchnames n_vocab.
Let loop := Predict.generate_loop model_predict pitchnames n_vocab.
Let feed (st : Predict.gen_state) : result (list Q) :=
  model_predict (map (fun x => [Num.np_div x n_vocab]) (Predict.pattern st)).

(** What a successful step did. *)
Lemma generate_step_inv (st st' : Predict.gen_state) :
  step st = Ok st' ->
  exists index t,
    nth_error pitchnames index = Some t /\
    Predict.pattern st' = tl (Predict.pattern st ++ [index])%list /\
    Predict.prediction_output st' = (Predict.prediction_output st ++ [t])%list.
Proof.
  unfold step, Predict.generate_step.
  destruct (model_predict _) as [p|]; [|discriminate]. cbn [bind].
  destruct (Predict.argmax p) as [index|]; [|discriminate]. cbn [bind].
  unfold Predict.int_to_note.
  destruct (nth_error pitchnames index) as [t|] eqn:Et; [|discriminate].
  cbn [of_option bind]. intros [= <-]. exists index, t.
  cbn [Predict.pattern Predict.prediction_output].
  split; [exact Et|]. split; [apply slide_tail | reflexivity].
Qed.

(** The three ways a step fails. *)
Lemma generate_step_error (st : Predict.gen_state) (e : exn) :
  step st = Raise e <->
  feed st = Raise e \/
  (feed st = Ok [] /\ e = ValueError) \/
  (exists p index, feed st = Ok p /\ Predict.argmax p = Ok index /\
                   List.length pitchnames <= index /\ e = KeyError).
Proof.
  unfold step, feed, Predict.generate_step. cbv zeta.
  destruct (model_predict _) as [p|e0]; cbn [bind].
  - destruct p as [|x xs]; cbn [Predict.argmax bind].
    + split.
      * intros [= <-]. right. left. now split.
      * intros [H|[[_ He]|(p & i & Hp & Hi & _)]];
          [discriminate | now rewrite He |].
        injection Hp as <-. discriminate Hi.
    + unfold Predict.int_to_note.
      destruct (nth_error pitchnames (Predict.argmax_from 0 x 1 xs)) as [t|] eqn:Et;
        cbn [of_option bind].
      * split; [discriminate|].
        intros [H|[[H _]|(p & i & Hp & Hi & Hle & _)]]; try discriminate.
        injection Hp as <-. injection Hi as <-.
        apply nth_error_None in Hle. congruence.
      * split.
        -- intros [= <-]. right. right. eexists. eexists.
           repeat split. now apply nth_error_None.
        -- intros [H|[[H _]|(p & i & _ & _ & _ & He)]]; try discriminate.
           now rewrite He.
  - split.
    + intros [= <-]. now left.
    + intros [[= <-]|[[H _]|(p & i & H & _)]]; [reflexivity | discriminate ..].
Qed.

(** After [n] steps the window is what is left of the old window followed
    by the selected ids once [n] elements are dropped, and the output has
    grown by the tokens of these ids. *)
Lemma generate_loop_trace (n : nat) (st st' : Predict.gen_state) :
  loop n st = Ok st' ->
  exists idxs toks,
    List.length idxs = n /\
    Forall2 (fun i t => nth_error pitchnames i = Some t) idxs toks /\
    Predict.prediction_output st' = (Predict.prediction_output st ++ toks)%list /\
    Predict.pattern st' = skipn n (Predict.pattern st ++ idxs)%list.
Proof.
  revert st. induction n as [|n IH]; intros st.
  - cbn. intros [= <-]. exists [], []. rewrite !app_nil_r.
    repeat split. constructor.
  - unfold loop in *. cbn [Predict.generate_loop].
    destruct (Predict.generate_step model_predict pitchnames n_vocab st) as [st1|] eqn:E1;
      [|discriminate]. cbn [bind]. intros Hrun.
    destruct (generate_step_inv st st1 E1) as (i & t & Hit & Hp1 & Ho1).
    destruct (IH st1 Hrun) as (idxs & toks & Hlen & Hall & Ho & Hp).
    exists (i :: idxs), (t :: toks). split; [cbn; lia|].
    split; [now constructor|]. split.
    + rewrite Ho, Ho1, <- app_assoc. reflexivity.
    + rewrite Hp, Hp1.
      replace (Predict.pattern st ++ i :: idxs)%list
        with ((Predict.pattern st ++ [i]) ++ idxs)%list
        by (rewrite <- app_assoc; reflexivity).
      destruct (Predict.pattern st ++ [i])%list as [|a r] eqn:Ea.
      * destruct (Predict.pattern st); discriminate.
      * reflexivity.
Qed.

End GeneratorRuns.

(** X6. In any run of [N] steps that ends, whatever the model, the tokens
    emitted are the vocabulary entries of the [N] selected ids, so each is
    a pitch name, and the final window is the seed followed by these ids
    with its first [N] elements dropped. *)
Theorem generated_tokens_in_vocabulary
    (model_predict : list (list Num.pyfloat) -> result (list Q))
    (pitchnames : list token) (n_vocab N : nat) (seed : list nat)
    (st : Predict.gen_state) :
  Predict.generate_loop model_predict pitchnames n_vocab N (Predict.mkGen seed [])
  = Ok st ->
  exists idxs,
    List.length idxs = N /\
    Forall2 (fun i t => nth_error pitchnames i = Some t)
            idxs (Predict.prediction_output st) /\
    Forall (fun t => In t pitchnames) (Predict.prediction_output st) /\
    Forall (fun i => i < List.length pitchnames) idxs /\
    Predict.pattern st = skipn N (seed ++ idxs)%list.
Proof.
  intros Hrun.
  destruct (generate_loop_trace model_predict pitchnames n_vocab N _ _ Hrun)
    as (idxs & toks & Hlen & Hall & Ho & Hp).
  cbn in Ho, Hp. subst toks. exists idxs.
  split; [exact Hlen|]. split; [exact Hall|]. split; [|split; [|exact Hp]].
  - clear - Hall. induction Hall; constructor; eauto using nth_error_In.
  - clear - Hall. induction Hall; constructor; auto.
    apply nth_error_Some. congruence.
Qed.

Lemma generated_tokens_in_vocabulary_witness :
  let model := fun _ : list (list Num.pyfloat) => Ok [(1 # 4)%Q; (1 # 2)%Q; (1 # 4)%Q] in
  let pitchnames := ["0 C4 1.0 0.0"; "0 D4 1.0 0.0"; "0 E4 1.0 0.0"] in
  let st := Predict.mkGen [1; 1] ["0 D4 1.0 0.0"; "0 D4 1.0 0.0"; "0 D4 1.0 0.0"] in
  Predict.generate_loop model pitchnames 3 3 (Predict.mkGen [0; 2] []) = Ok st /\
  exists idxs,
    List.length idxs = 3 /\
    Forall (fun t => In t pitchnames) (Predict.prediction_output st) /\
    Predict.pattern st = skipn 3 ([0; 2] ++ idxs)%list.
Proof.
  intros model pitchnames st.
  assert (H : Predict.generate_loop model pitchnames 3 3 (Predict.mkGen [0; 2] []) = Ok st)
    by reflexivity.
  split; [exact H|].
  destruct (generated_tokens_in_vocabulary model pitchnames 3 3 [0; 2] st H)
    as (idxs & H1 & _ & H3 & _ & H5).
  exists idxs. repeat split; assumption.
Defined.

(** X7. A step fails in three ways only: the model raises, it returns an
    empty row ([ValueError] of arg-max), or the selected index is beyond the
    pitch names ([KeyError]). A failure at step [k < N] is the result of the
    whole run: the tokens emitted so far are lost. *)
Theorem generation_failure_aborts
    (model_predict : list (list Num.pyfloat) -> result (list Q))
    (pitchnames : list token) (n_vocab N k : nat)
    (init stk : Predict.gen_state) (e : exn) :
  k < N ->
  Predict.generate_loop model_predict pitchnames n_vocab k init = Ok stk ->
  (let feed := model_predict
                 (map (fun x => [Num.np_div x n_vocab]) (Predict.pattern stk)) in
   feed = Raise e \/
   (feed = Ok [] /\ e = ValueError) \/
   (exists p index, feed = Ok p /\ Predict.argmax p = Ok index /\
                    List.length pitchnames <= index /\ e = KeyError)) ->
  Predict.generate_loop model_predict pitchnames n_vocab N init = Raise e.
Proof.
  intros Hk Hrun Hfail.
  apply (generate_step_error model_predict pitchnames n_vocab stk e) in Hfail.
  replace N with (k + S (N - S k)) by lia.
  rewrite generate_loop_add, Hrun. cbn [bind Predict.generate_loop].
  now rewrite Hfail.
Qed.

Lemma generation_failure_aborts_witness :
  let model := fun x : list (list Num.pyfloat) =>
                 match x with
                 | [Num.Finite a] :: _ =>
                     if Qle_bool a (1 # 3)
                     then Ok [(1 # 4)%Q; (1 # 4)%Q; (1 # 2)%Q]
                     else Raise ValueError
                 | _ => Raise ValueError
                 end in
  let pitchnames := ["0 C4 1.0 0.0"; "0 D4 1.0 0.0"; "0 E4 1.0 0.0"] in
  let init := Predict.mkGen [0; 0] [] in
  let stk := Predict.mkGen [2; 2] ["0 E4 1.0 0.0"; "0 E4 1.0 0.0"] in
  2 < 5 /\
  Predict.generate_loop model pitchnames 3 2 init = Ok stk /\
  model (map (fun x => [Num.np_div x 3]) (Predict.pattern stk)) = Raise ValueError /\
  Predict.generate_loop model pitchnames 3 5 init = Raise ValueError.
Proof.
  intros model pitchnames init stk.
  assert (H1 : 2 < 5) by lia.
  assert (H2 : Predict.generate_loop model pitchnames 3 2 init = Ok stk)
    by (vm_compute; reflexivity).
  assert (H3 : model (map (fun x => [Num.np_div x 3]) (Predict.pattern stk))
               = Raise ValueError) by (vm_compute; reflexivity).
  split; [exact H1|]. split; [exact H2|]. split; [exact H3|].
  exact (generation_failure_aborts model pitchnames 3 5 2 init stk ValueError
           H1 H2 (or_introl H3)).
Defined.

(** ** The generation pipeline *)

(** The windows of [generate]: the corpus is read in its own vocabulary. *)
Lemma generate_windows (notes : list token) :
  exists ids network_input,
    mapM (Dict.lookup (make_note_to_int (Lstm.pitchnames_of notes))) notes = Ok ids /\
    List.length ids = List.length notes /\
    Predict.prepare_sequences notes (Lstm.pitchnames_of notes) (Lstm.n_vocab_of notes)
    = Ok (network_input, normalize (Lstm.n_vocab_of notes) network_input) /\
    List.length network_input = List.length notes - 64 /\
    forall i, i < List.length notes - 64 ->
      nth_error network_input i = Some (Py.slice ids i (i + 64)).
Proof.
  destruct (corpus_has_ids notes) as (ids & Hids).
  exists ids. unfold Predict.prepare_sequences, Predict.sequence_length.
  destruct (Nat.lt_ge_cases 64 (List.length notes)) as [HM|HM].
  - destruct (sequence_loop_spec 64 _ notes ids Hids HM)
      as (ins & outs & Hrun & Hlen & Hli & _ & Hnth).
    exists ins. rewrite Hrun. cbn [bind].
    repeat split; auto. intros i Hi. apply (Hnth i Hi).
  - exists []. rewrite sequence_loop_short by exact HM. cbn [bind].
    split; [exact Hids|]. split; [apply (mapM_length _ _ _ Hids)|].
    split; [reflexivity|]. split; [cbn; lia|]. intros i Hi. lia.
Qed.

(** X8. [generate] needs a corpus of at least 66 tokens: with 65 or fewer
    there is at most one window, so once [create_network] has returned the
    bounds given to [numpy.random.randint] are empty and the run raises
    [ValueError], whatever the model, the catalog and the generators. *)
Theorem generate_needs_66_tokens
    (model_predict : list (list Num.pyfloat) -> result (list Q))
    (all_instruments : list Instrument)
    (instrumentFromMidiProgram : Z -> option Instrument)
    (lib : Predict.Library) (optimizer : Z)
    (notes : list token) (np_rng py_rng : Rng) :
  List.length notes <= 65 ->
  Predict.generate model_predict all_instruments instrumentFromMidiProgram
    lib optimizer notes np_rng py_rng = Raise ValueError.
Proof.
  intros HM. unfold Predict.generate. cbv zeta.
  destruct (generate_windows notes) as (ids & ins & _ & _ & Hprep & Hlen & _).
  unfold Lstm.pitchnames_of, Lstm.n_vocab_of in Hprep. rewrite Hprep. cbn [bind].
  unfold Predict.generate_notes, Predict.seed_start, np_randint, len.
  destruct (Z.of_nat (List.length ins) - 1 <=? 0)%Z eqn:E; [reflexivity|].
  apply Z.leb_gt in E. lia.
Qed.

Lemma generate_needs_66_tokens_witness :
  List.length (repeat "0 C4 1.0 0.0" 65) <= 65 /\
  Predict.generate (fun _ => Ok [(1 # 1)%Q]) example_catalog example_table
    example_library 1
    (repeat "0 C4 1.0 0.0" 65) (constant_rng 0) (constant_rng 0) = Raise ValueError.
Proof.
  assert (H : List.length (repeat "0 C4 1.0 0.0" 65) <= 65)
    by (rewrite repeat_length; lia).
  split; [exact H|].
  exact (generate_needs_66_tokens _ example_catalog example_table
           example_library 1 _ (constant_rng 0) (constant_rng 0) H).
Defined.

(** X9. The seed of a generation run is a window of the corpus: the 64
    consecutive ids that start at some position [s] of the id stream, with
    [s <= M - 66]. *)
Theorem seed_is_corpus_window (notes : list token) (ids : list nat)
    (network_input : list (list nat))
    (normalized_input : list (list (list Num.pyfloat)))
    (g g' : Rng) (start : Z) :
  mapM (Dict.lookup (make_note_to_int (Lstm.pitchnames_of notes))) notes = Ok ids ->
  Predict.prepare_sequences notes (Lstm.pitchnames_of notes) (Lstm.n_vocab_of notes)
  = Ok (network_input, normalized_input) ->
  Predict.seed_start network_input g = Ok (start, g') ->
  exists s,
    start = Z.of_nat s /\
    s + 66 <= List.length notes /\
    index_Z network_input start = Ok (Py.slice ids s (s + 64)) /\
    List.length (Py.slice ids s (s + 64)) = 64.
Proof.
  intros Hids Hprep Hseed.
  destruct (generate_windows notes) as (ids' & ins & Hids' & Hlen & Hprep' & Hli & Hnth).
  rewrite Hids in Hids'. injection Hids' as <-.
  rewrite Hprep in Hprep'. injection Hprep' as -> _.
  pose proof (np_randint_range 0 (len ins - 1) g) as Hr.
  unfold Predict.seed_start in Hseed. rewrite Hseed in Hr. unfold len in Hr.
  exists (Z.to_nat start).
  assert (Hs : Z.to_nat start < List.length notes - 64) by lia.
  split; [lia|]. split; [lia|].
  replace start with (Z.of_nat (Z.to_nat start)) at 1 by lia.
  rewrite index_Z_of_nat, (Hnth _ Hs). split; [reflexivity|].
  apply slice_length. lia.
Qed.

Lemma seed_is_corpus_window_witness :
  let notes := repeat "0 C4 1.0 0.0" 67 in
  let ids := repeat 0 67 in
  let network_input := repeat (repeat 0 64) 3 in
  mapM (Dict.lookup (make_note_to_int (Lstm.pitchnames_of notes))) notes = Ok ids /\
  Predict.prepare_sequences notes (Lstm.pitchnames_of notes) (Lstm.n_vocab_of notes)
  = Ok (network_input, normalize 1 network_input) /\
  Predict.seed_start network_input (constant_rng 5)
  = Ok (1%Z, snd (next (constant_rng 5))) /\
  exists s,
    1%Z = Z.of_nat s /\
    s + 66 <= List.length notes /\
    index_Z network_input 1 = Ok (Py.slice ids s (s + 64)).
Proof.
  intros notes ids network_input.
  assert (H1 : mapM (Dict.lookup (make_note_to_int (Lstm.pitchnames_of notes))) notes
               = Ok ids) by (vm_compute; reflexivity).
  assert (H2 : Predict.prepare_sequences notes (Lstm.pitchnames_of notes)
                 (Lstm.n_vocab_of notes)
               = Ok (network_input, normalize 1 network_input))
    by (vm_compute; reflexivity).
  assert (H3 : Predict.seed_start network_input (constant_rng 5)
               = Ok (1%Z, snd (next (constant_rng 5)))) by reflexivity.
  split; [exact H1|]. split; [exact H2|]. split; [exact H3|].
  destruct (seed_is_corpus_window notes ids network_input _ _ _ _ H1 H2 H3)
    as (s & Hs1 & Hs2 & Hs3 & _).
  exists s. split; [exact Hs1|]. split; [exact Hs2 | exact Hs3].
Defined.

(** ** Outcomes of [set_duration] *)

Lemma split_on_from_nonempty (sep : ascii) (s cur : string) :
  Py.split_on_from sep cur s <> [].
Proof.
  revert cur. induction s as [|c s IH]; intros cur; cbn [Py.split_on_from].
  - discriminate.
  - destruct (Ascii.eqb c sep); [discriminate | apply IH].
Qed.

Lemma index_first_ok {A : Type} (l : list A) :
  l <> [] -> exists x, Py.index l 0 = Ok x.
Proof. destruct l as [|x l]; [congruence | now exists x]. Qed.

Lemma index_last_ok {A : Type} (l : list A) :
  l <> [] -> exists x, Py.index_neg l 1 = Ok x.
Proof.
  intros H. unfold Py.index_neg, Py.index.
  destruct l as [|a l]; [congruence|]. cbn [List.length Nat.leb].
  destruct (nth_error (a :: l) (S (List.length l) - 1)) as [x|] eqn:E;
    [now exists x|].
  apply nth_error_None in E. cbn in E. lia.
Qed.



(** X11. [set_duration] raises four exceptions only, each for a literal
    that is no float: [NameError] when it has no [/]; [ValueError] when it
    has a [/] and its first or last part is not an [int];
    [ZeroDivisionError] when both are ints and the last one is zero;
    [OverflowError] when both are ints and their quotient is too large for
    a float. *)
Theorem set_duration_errors (p : Predict.GeneralNote) (d o : string) (e : exn) :
  Predict.set_duration p d o = Raise e ->
  Num.parse_float d = None /\
  ((e = NameError /\ Py.contains "/" d = false) \/
   (Py.contains "/" d = true /\
    exists q0 q1,
      Py.index (Py.split_on "/" d) 0 = Ok q0 /\
      Py.index_neg (Py.split_on "/" d) 1 = Ok q1 /\
      ((e = ValueError /\ (Num.parse_int q0 = None \/ Num.parse_int q1 = None)) \/
       (e = ZeroDivisionError /\
        exists a, Num.parse_int q0 = Some a /\ Num.parse_int q1 = Some 0%Z) \/
       (e = OverflowError /\
        exists a b, Num.parse_int q0 = Some a /\ Num.parse_int q1 = Some b /\
                    b <> 0%Z /\
                    Num.overflows (inject_Z a / inject_Z b) = true)))).
Proof.
  unfold Predict.set_duration.
  destruct (Num.parse_float d) as [v|] eqn:Ef; [discriminate|].
  intros H. split; [reflexivity|]. revert H.
  destruct (Py.contains "/" d) eqn:Es.
  2:{ cbn [bind]. intros [= <-]. left. now split. }
  intros H. right. split; [reflexivity|]. revert H.
  destruct (index_first_ok (Py.split_on "/" d)) as (q0 & E0);
    [apply split_on_from_nonempty|].
  destruct (index_last_ok (Py.split_on "/" d)) as (q1 & E1);
    [apply split_on_from_nonempty|].
  intros H. exists q0, q1. split; [exact E0|]. split; [exact E1|]. revert H.
  cbv zeta. rewrite E0, E1. cbn [bind]. unfold Num.int.
  destruct (Num.parse_int q0) as [a|]; cbn [of_option bind].
  2:{ intros [= <-]. left. split; [reflexivity | now left]. }
  destruct (Num.parse_int q1) as [b|]; cbn [of_option bind].
  2:{ intros [= <-]. left. split; [reflexivity | now right]. }
  unfold Num.truediv. destruct (b =? 0)%Z eqn:Ez; cbn [bind].
  - apply Z.eqb_eq in Ez. subst b. intros [= <-]. right. left.
    split; [reflexivity|]. now exists a.
  - cbv zeta. destruct (Num.overflows (inject_Z a / inject_Z b)) eqn:Eo;
      cbn [bind]; [|discriminate].
    apply Z.eqb_neq in Ez. intros [= <-]. right. right.
    split; [reflexivity|]. now exists a, b.
Qed.

Lemma set_duration_errors_witness :
  let p := Predict.new_note (Predict.Note "C4") in
  let huge := (Py.str_of_int (10 ^ 400) ++ "/1")%string in
  (Predict.set_duration p "quarter" "0.0" = Raise NameError /\
   Predict.set_duration p "x/2" "0.0" = Raise ValueError /\
   Predict.set_duration p "3/0" "0.0" = Raise ZeroDivisionError /\
   Predict.set_duration p huge "0.0" = Raise OverflowError) /\
  Num.parse_float "quarter" = None /\
  Num.parse_float "x/2" = None /\
  Num.parse_float "3/0" = None /\
  Num.parse_float huge = None.
Proof.
  intros p huge.
  assert (H1 : Predict.set_duration p "quarter" "0.0" = Raise NameError)
    by reflexivity.
  assert (H2 : Predict.set_duration p "x/2" "0.0" = Raise ValueError)
    by reflexivity.
  assert (H3 : Predict.set_duration p "3/0" "0.0" = Raise ZeroDivisionError)
    by reflexivity.
  assert (H4 : Predict.set_duration p huge "0.0" = Raise OverflowError)
    by (vm_compute; reflexivity).
  split; [repeat split; assumption|].
  split; [exact (proj1 (set_duration_errors p "quarter" "0.0" NameError H1))|].
  split; [exact (proj1 (set_duration_errors p "x/2" "0.0" ValueError H2))|].
  split; [exact (proj1 (set_duration_errors p "3/0" "0.0" ZeroDivisionError H3))|].
  exact (proj1 (set_duration_errors p huge "0.0" OverflowError H4)).
Defined.

Lemma split_on_from_ends (sep : ascii) (w : string) :
  Py.contains sep w = false ->
  forall s cur, exists pre,
    Py.split_on_from sep cur (s ++ String sep w) = (pre ++ [w])%list.
Proof.
  intros Hw. induction s as [|c s IH]; intros cur.
  - cbn [append Py.split_on_from]. rewrite Ascii.eqb_refl.
    rewrite (split_on_from_last sep w Hw). now exists [cur].
  - cbn [append Py.split_on_from]. destruct (Ascii.eqb c sep).
    + destruct (IH "") as (pre & ->). now exists (cur :: pre).
    + apply IH.
Qed.

Lemma index_neg_last {A : Type} (pre : list A) (x : A) :
  Py.index_neg (pre ++ [x]) 1 = Ok x.
Proof.
  unfold Py.index_neg, Py.index. rewrite length_app. cbn [List.length].
  replace (1 <=? List.length pre + 1)%nat with true
    by (symmetry; apply Nat.leb_le; lia).
  rewrite nth_error_app2 by lia.
  now replace (List.length pre + 1 - 1 - List.length pre) with 0 by lia.
Qed.

(** X12. Of a literal with several [/] only the first and the last part
    are read: for [b] other than zero and a quotient [a/b] within the range
    of the floats, [a/.../b] has the quarter length [a/b], whatever stands
    in between; a quotient beyond the range raises [OverflowError]. *)
Theorem set_duration_first_and_last (p : Predict.GeneralNote) (a b : Z)
    (middle o : string) :
  b <> 0%Z ->
  Predict.set_duration p
    (Py.str_of_int a ++ "/" ++ middle ++ "/" ++ Py.str_of_int b) o
  = if Num.overflows (inject_Z a / inject_Z b)
    then Raise OverflowError
    else Ok (Predict.mkNote (Predict.sounding p)
               (Num.finite (inject_Z a / inject_Z b)) o).
Proof.
  intros Hb.
  set (d := (Py.str_of_int a ++ "/" ++ middle ++ "/" ++ Py.str_of_int b)%string).
  assert (Hs : Py.contains "/" d = true).
  { unfold d. rewrite contains_append. cbn. now rewrite orb_true_r. }
  assert (Hsplit : exists pre,
             Py.split_on "/" d = (Py.str_of_int a :: pre ++ [Py.str_of_int b])%list).
  { unfold Py.split_on, d. cbn [append].
    rewrite (split_on_from_word "/" _ (no_slash_str_of_int a)).
    change (String "/" (Py.str_of_int b)) with ("/" ++ Py.str_of_int b)%string.
    destruct (split_on_from_ends "/" _ (no_slash_str_of_int b) middle "")
      as (pre & Hpre).
    exists pre. cbn [append] in Hpre |- *. now rewrite Hpre. }
  destruct Hsplit as (pre & Hsplit).
  unfold Predict.set_duration.
  rewrite (parse_float_slash _ Hs), Hs. cbv zeta. rewrite Hsplit.
  change (Py.str_of_int a :: pre ++ [Py.str_of_int b])%list
    with ((Py.str_of_int a :: pre) ++ [Py.str_of_int b])%list at 2.
  rewrite index_neg_last. cbn [Py.index nth_error of_option bind].
  rewrite !int_str_of_int. cbn [bind].
  unfold Num.truediv. destruct (b =? 0)%Z eqn:E; [apply Z.eqb_eq in E; congruence|].
  cbv zeta. now destruct (Num.overflows (inject_Z a / inject_Z b)).
Qed.

Lemma set_duration_first_and_last_witness :
  (3%Z <> 0%Z /\
   Predict.set_duration (Predict.new_note (Predict.Note "C4")) "1/x/3" "0.0"
   = Ok (Predict.mkNote (Predict.Note "C4") (Num.Finite (1 # 3)) "0.0")) /\
  (1%Z <> 0%Z /\
   Predict.set_duration (Predict.new_note (Predict.Note "C4"))
     (Py.str_of_int (10 ^ 400) ++ "/2/1") "0.0"
   = Raise OverflowError).
Proof.
  assert (H3 : 3%Z <> 0%Z) by discriminate.
  assert (H1 : 1%Z <> 0%Z) by discriminate.
  split; (split; [assumption|]).
  - exact (set_duration_first_and_last (Predict.new_note (Predict.Note "C4"))
             1 3 "x" "0.0" H3).
  - exact (set_duration_first_and_last (Predict.new_note (Predict.Note "C4"))
             (10 ^ 400) 1 "2" "0.0" H1).
Defined.

(** ** Grouping the decoded tokens *)

Lemma dict_set_set {V : Type} (d : Dict.t V) (k : string) (v v' : V) :
  Dict.set (Dict.set d k v) k v' = Dict.set d k v'.
Proof.
  induction d as [|[k0 v0] d IH]; cbn [Dict.set].
  - now rewrite String.eqb_refl.
  - destruct (String.eqb k0 k) eqn:E; cbn [Dict.set]; rewrite E; [reflexivity|].
    now rewrite IH.
Qed.

Lemma dict_set_get {V : Type} (d : Dict.t V) (k : string) (v : V) :
  Dict.get d k = Some v -> Dict.set d k v = d.
Proof.
  induction d as [|[k0 v0] d IH]; cbn [Dict.get Dict.set]; [discriminate|].
  destruct (String.eqb k0 k) eqn:E.
  - now intros [= ->].
  - intros H. now rewrite (IH H).
Qed.

Lemma dict_keys_set {V : Type} (d : Dict.t V) (k : string) (v : V) :
  Dict.keys (Dict.set d k v)
  = if key_in k (Dict.keys d) then Dict.keys d else (Dict.keys d ++ [k])%list.
Proof.
  unfold Dict.keys, key_in.
  induction d as [|[k0 v0] d IH]; cbn [Dict.set map fst existsb]; [reflexivity|].
  rewrite (String.eqb_sym k k0).
  destruct (String.eqb k0 k) eqn:E; cbn [orb map fst]; [reflexivity|].
  rewrite IH. now destruct (existsb (String.eqb k) (map fst d)).
Qed.

Lemma dict_mem_key_in {V : Type} (d : Dict.t V) (k : string) :
  Dict.mem d k = key_in k (Dict.keys d).
Proof.
  unfold Dict.mem, Dict.keys, key_in.
  induction d as [|[k0 v0] d IH]; cbn [Dict.get map fst existsb]; [reflexivity|].
  rewrite (String.eqb_sym k k0).
  destruct (String.eqb k0 k); [reflexivity | exact IH].
Qed.

(** Registering a key and appending the objects of one token. *)
Lemma decode_step_event (instruments : Predict.instruments_t) (pattern : token) :
  Predict.decode_step instruments pattern
  = '(k, evs) <- decode_event pattern ;;
    Ok (Dict.set instruments k
          (match Dict.get instruments k with Some l => l | None => [] end ++ evs)%list).
Proof.
  unfold Predict.decode_step, decode_event.
  destruct (decode_token pattern) as [[[[k ps] d] o]|e]; [|reflexivity].
  cbn [bind]. unfold Dict.mem.
  assert (Hreg : forall n,
    Predict.append_to
      (if negb match Dict.get instruments k with Some _ => true | None => false end
       then Dict.set instruments k [] else instruments) k n
    = Ok (Dict.set instruments k
            (match Dict.get instruments k with Some l => l | None => [] end ++ [n])%list)).
  { intros n. unfold Predict.append_to, Dict.lookup.
    destruct (Dict.get instruments k) as [l|] eqn:Eg; cbn [negb].
    - rewrite Eg. reflexivity.
    - rewrite dict_get_set_same. cbn [of_option bind]. now rewrite dict_set_set. }
  destruct ps as [|p0 [|p1 ps]].
  - cbn [bind]. f_equal. rewrite app_nil_r.
    destruct (Dict.get instruments k) as [l|] eqn:Eg; cbn [negb];
      [now rewrite (dict_set_get _ _ _ Eg) | reflexivity].
  - cbn [sound_of].
    destruct (Predict.set_duration (Predict.new_note (Predict.Note p0)) d o) as [n|e];
      cbn [bind]; [apply Hreg | reflexivity].
  - cbn [sound_of].
    destruct (Predict.set_duration
                (Predict.new_note (Predict.Chord (p0 :: p1 :: ps))) d o) as [n|e];
      cbn [bind]; [apply Hreg | reflexivity].
Qed.

(** The first loop of [create_midi] decodes every token, then files the
    objects under their keys. *)
Lemma decode_tokens_fold (toks : list token) (d0 : Predict.instruments_t) :
  for_each Predict.decode_step toks d0
  = kes <- mapM decode_event toks ;; Ok (fold_left add_events kes d0).
Proof.
  revert d0. induction toks as [|t toks IH]; intros d0; [reflexivity|].
  cbn [for_each mapM]. rewrite decode_step_event.
  destruct (decode_event t) as [[k evs]|e]; [|reflexivity]. cbn [bind].
  rewrite IH. unfold add_events at 1. cbn [fst snd].
  destruct (mapM decode_event toks) as [kes|e]; reflexivity.
Qed.

Lemma events_of_absent (k : string) (kes : list (string * list Predict.GeneralNote)) :
  key_in k (map fst kes) = false -> events_of k kes = [].
Proof.
  unfold events_of, key_in.
  induction kes as [|[k1 evs] kes IH]; cbn [map fst existsb filter]; [reflexivity|].
  intros H. apply orb_false_iff in H as [H1 H2].
  rewrite String.eqb_sym, H1. now apply IH.
Qed.

Lemma fold_add_events_get (kes : list (string * list Predict.GeneralNote))
    (d0 : Predict.instruments_t) (k : string) :
  Dict.get (fold_left add_events kes d0) k
  = if key_in k (map fst kes)
    then Some (match Dict.get d0 k with Some l => l | None => [] end
               ++ events_of k kes)%list
    else Dict.get d0 k.
Proof.
  revert d0. induction kes as [|[k1 evs] kes IH]; intros d0; [reflexivity|].
  cbn [fold_left map fst]. rewrite IH. unfold add_events at 1 2. cbn [fst snd].
  unfold key_in at 2. cbn [existsb]. fold (key_in k (map fst kes)).
  unfold events_of at 2. cbn [filter fst]. rewrite (String.eqb_sym k k1).
  destruct (String.eqb k1 k) eqn:E.
  - apply String.eqb_eq in E. subst k1. rewrite dict_get_set_same.
    cbn [orb map snd List.concat]. fold (events_of k kes).
    destruct (key_in k (map fst kes)) eqn:Ek.
    + now rewrite <- app_assoc.
    + now rewrite (events_of_absent k kes Ek), app_nil_r.
  - apply String.eqb_neq in E. rewrite dict_get_set_other by exact E.
    cbn [orb]. reflexivity.
Qed.

Lemma filter_filter {A : Type} (f g : A -> bool) (l : list A) :
  filter f (filter g l) = filter (fun x => g x && f x) l.
Proof.
  induction l as [|x l IH]; [reflexivity|]. cbn [filter].
  destruct (g x); cbn [filter andb]; [destruct (f x)|]; now rewrite IH.
Qed.

Lemma key_in_app (x : string) (l1 l2 : list string) :
  key_in x (l1 ++ l2) = key_in x l1 || key_in x l2.
Proof. unfold key_in. apply existsb_app. Qed.

Lemma fold_add_events_keys (kes : list (string * list Predict.GeneralNote))
    (d0 : Predict.instruments_t) :
  Dict.keys (fold_left add_events kes d0)
  = (Dict.keys d0
     ++ filter (fun x => negb (key_in x (Dict.keys d0)))
               (first_occurrences (map fst kes)))%list.
Proof.
  revert d0. induction kes as [|[k1 evs] kes IH]; intros d0.
  - cbn. now rewrite app_nil_r.
  - cbn [fold_left map fst first_occurrences filter]. rewrite IH.
    unfold add_events. cbn [fst snd]. rewrite dict_keys_set.
    destruct (key_in k1 (Dict.keys d0)) eqn:Ek; cbn [negb].
    + f_equal. rewrite filter_filter. apply filter_ext. intros x.
      destruct (String.eqb k1 x) eqn:E; cbn [negb andb]; [|reflexivity].
      apply String.eqb_eq in E. subst x. now rewrite Ek.
    + rewrite <- app_assoc. cbn [app]. do 2 f_equal.
      rewrite filter_filter. apply filter_ext. intros x.
      rewrite key_in_app. unfold key_in at 2. cbn [existsb].
      rewrite orb_false_r, negb_orb, (String.eqb_sym x k1). apply andb_comm.
Qed.

Lemma first_occurrences_In (ks : list string) (x : string) :
  In x (first_occurrences ks) <-> In x ks.
Proof.
  induction ks as [|k ks IH]; [reflexivity|]. cbn [first_occurrences In].
  rewrite filter_In, IH. destruct (String.eqb_spec k x) as [->|Hne]; cbn [negb].
  - split; [intros [H|[_ H]]; [now left | discriminate] | intros _; now left].
  - split; [intros [H|[H _]]; [now left | now right]
           | intros [H|H]; [now left | right; now split]].
Qed.

Lemma first_occurrences_NoDup (ks : list string) : NoDup (first_occurrences ks).
Proof.
  induction ks as [|k ks IH]; cbn [first_occurrences]; constructor.
  - rewrite filter_In. intros [_ H]. now rewrite String.eqb_refl in H.
  - now apply NoDup_filter.
Qed.

(** The dictionary left by the first loop, key by key. *)
Lemma decode_tokens_grouped (toks : list token)
    (instruments : Predict.instruments_t) :
  Predict.decode_tokens toks = Ok instruments ->
  exists kes,
    mapM decode_event toks = Ok kes /\
    Dict.keys instruments = first_occurrences (map fst kes) /\
    NoDup (Dict.keys instruments) /\
    forall k, Dict.get instruments k
              = if key_in k (map fst kes) then Some (events_of k kes) else None.
Proof.
  unfold Predict.decode_tokens. rewrite decode_tokens_fold.
  destruct (mapM decode_event toks) as [kes|e]; [|discriminate]. cbn [bind].
  intros [= <-]. exists kes. split; [reflexivity|].
  assert (Hk : Dict.keys (fold_left add_events kes []) = first_occurrences (map fst kes)).
  { rewrite fold_add_events_keys. cbn [Dict.keys map app].
    rewrite <- (filter_ext (fun _ => true)) by reflexivity.
    clear. induction (first_occurrences (map fst kes)) as [|x l IH]; cbn; congruence. }
  split; [exact Hk|]. split; [rewrite Hk; apply first_occurrences_NoDup|].
  intros k. rewrite fold_add_events_get. reflexivity.
Qed.

(** X13. The first loop of [create_midi] groups the decoded objects by
    instrument key: the keys of the dictionary are the distinct instrument
    fields in the order of their first occurrence, and the list of a key
    holds the objects of its tokens in token order. *)
Theorem decoded_events_grouped_in_order (toks : list token)
    (instruments : Predict.instruments_t) :
  Predict.decode_tokens toks = Ok instruments ->
  exists kes,
    mapM decode_event toks = Ok kes /\
    Dict.keys instruments = first_occurrences (map fst kes) /\
    NoDup (Dict.keys instruments) /\
    forall k, Dict.get instruments k
              = if key_in k (map fst kes) then Some (events_of k kes) else None.
Proof. exact (decode_tokens_grouped toks instruments). Qed.

Lemma decoded_events_grouped_in_order_witness :
  let toks := ["9 C4 1.0 0.0"; "0 E4 G4 1/2 1.0"; "9 D4 0.5 2.0"] in
  let c := Predict.mkNote (Predict.Note "C4") (Num.Finite (1 # 1)) "0.0" in
  let e := Predict.mkNote (Predict.Chord ["E4"; "G4"]) (Num.Finite (1 # 2)) "1.0" in
  let d := Predict.mkNote (Predict.Note "D4") (Num.Finite (1 # 2)) "2.0" in
  Predict.decode_tokens toks = Ok [("9", [c; d]); ("0", [e])] /\
  exists kes,
    mapM decode_event toks = Ok kes /\
    ["9"; "0"] = first_occurrences (map fst kes).
Proof.
  intros toks c e d.
  assert (H : Predict.decode_tokens toks = Ok [("9", [c; d]); ("0", [e])])
    by (vm_compute; reflexivity).
  split; [exact H|].
  destruct (decoded_events_grouped_in_order toks _ H) as (kes & H1 & H2 & _).
  exists kes. split; [exact H1 | exact H2].
Defined.

(** ** From events to tokens to objects *)

Lemma decode_token_encode_with (iid : string) (ps : list string) (ql off : string) :
  is_field iid = true -> ps <> [] -> forallb is_field ps = true ->
  is_field ql = true -> is_field off = true ->
  decode_token (encode_with iid ps ql off) = Ok (iid, ps, ql, off).
Proof.
  intros Hi Hne Hps Hq Ho. unfold decode_token.
  rewrite (split_encode_with _ _ _ _ Hi Hne Hps Hq Ho).
  destruct (decode_fields iid ps ql off) as (H0 & H1 & H2 & H3).
  rewrite H0. cbn [bind]. rewrite H1, H2. cbn [bind]. rewrite H3. reflexivity.
Qed.

(** X14. Decoding the token of an event of the grammar whose duration
    literal is readable adds exactly one object at the end of the list of
    the event's instrument key: a note for one pitch, a chord with the
    pitches in order otherwise, carrying the offset text of the event; the
    other keys are untouched. *)
Theorem encoded_event_is_appended (e : MusicalEvent) (n : Predict.GeneralNote)
    (instruments : Predict.instruments_t) :
  in_grammar e ->
  Predict.set_duration (Predict.new_note (sound_of (pitches e)))
    (duration e) (offset e) = Ok n ->
  let key := Py.str_of_int (instrument_id e) in
  let before := match Dict.get instruments key with Some l => l | None => [] end in
  exists instruments',
    Predict.decode_step instruments (encode e) = Ok instruments' /\
    Dict.get instruments' key = Some (before ++ [n])%list /\
    (forall k, k <> key -> Dict.get instruments' k = Dict.get instruments k) /\
    Predict.sounding n = sound_of (pitches e) /\
    Predict.offset n = offset e.
Proof.
  intros (Hne & Hps & Hq & Ho) Hset key before.
  rewrite decode_step_event. unfold decode_event, encode.
  rewrite (decode_token_encode_with _ _ _ _ (is_field_str_of_int _) Hne Hps Hq Ho).
  cbn [bind]. destruct (pitches e) as [|p0 ps] eqn:Ep; [congruence|].
  rewrite Hset. cbn [bind]. eexists. split; [reflexivity|].
  fold key. fold before. split; [apply dict_get_set_same|].
  split; [intros k Hk; apply dict_get_set_other; congruence|].
  unfold Predict.set_duration in Hset.
  destruct (match Num.parse_float (duration e) with Some v => Ok v | None => _ end)
    as [q|]; [|discriminate].
  cbn [bind] in Hset. injection Hset as <-. split; reflexivity.
Qed.

Lemma encoded_event_is_appended_witness :
  let e := mkEvent 12 ["C4"; "E4"; "G4"] "1/3" "2.0" in
  let n := Predict.mkNote (Predict.Chord ["C4"; "E4"; "G4"]) (Num.Finite (1 # 3)) "2.0" in
  in_grammar e /\
  Predict.set_duration (Predict.new_note (sound_of (pitches e)))
    (duration e) (offset e) = Ok n /\
  exists instruments',
    Predict.decode_step [("12", [])] (encode e) = Ok instruments' /\
    Dict.get instruments' "12" = Some [n].
Proof.
  intros e n.
  assert (H1 : in_grammar e).
  { unfold in_grammar. repeat split; [discriminate | reflexivity ..]. }
  assert (H2 : Predict.set_duration (Predict.new_note (sound_of (pitches e)))
                 (duration e) (offset e) = Ok n) by (vm_compute; reflexivity).
  split; [exact H1|]. split; [exact H2|].
  destruct (encoded_event_is_appended e n [("12", [])] H1 H2)
    as (d & Hd & Hg & _).
  exists d. split; [exact Hd | exact Hg].
Defined.

(** ** The score *)

Lemma index_Z_In {A : Type} (xs : list A) (i : Z) (x : A) :
  index_Z xs i = Ok x -> In x xs.
Proof.
  unfold index_Z, Py.index_neg, Py.index.
  destruct (i <? 0)%Z.
  - destruct (Z.to_nat (- i) <=? List.length xs)%nat; [|discriminate].
    destruct (nth_error xs _) as [y|] eqn:E; [|discriminate].
    intros [= <-]. eapply nth_error_In, E.
  - destruct (nth_error xs _) as [y|] eqn:E; [|discriminate].
    intros [= <-]. eapply nth_error_In, E.
Qed.

Lemma dict_get_entry {V : Type} (d : Dict.t V) (k : string) (v : V) :
  NoDup (Dict.keys d) -> In (k, v) d -> Dict.get d k = Some v.
Proof.
  unfold Dict.keys. induction d as [|[k0 v0] d IH]; cbn [map fst In Dict.get]; [tauto|].
  intros Hnd [H|H].
  - injection H as -> ->. now rewrite String.eqb_refl.
  - inversion Hnd as [|? ? Hnotin Hnd']; subst.
    destruct (String.eqb_spec k0 k) as [->|Hne].
    + exfalso. apply Hnotin. change k with (fst (k, v)). now apply in_map.
    + now apply IH.
Qed.

Lemma Forall2_of_nth {A B : Type} (R : A -> B -> Prop) (l1 : list A) (l2 : list B) :
  List.length l1 = List.length l2 ->
  (forall j a b, nth_error l1 j = Some a -> nth_error l2 j = Some b -> R a b) ->
  Forall2 R l1 l2.
Proof.
  revert l2. induction l1 as [|a l1 IH]; intros [|b l2] Hlen H;
    try discriminate; constructor.
  - exact (H 0 a b eq_refl eq_refl).
  - apply IH; [now injection Hlen|]. intros j a' b' Ha Hb. exact (H (S j) a' b' Ha Hb).
Qed.

Section ScoreFacts.

Variable all_instruments : list Instrument.
Variable instrumentFromMidiProgram : Z -> option Instrument.

(** A class that was drawn is the catalog entry at the raw draw modulo the
    length of the catalog. *)
Lemma get_random_instrument_inv (g g' : Rng) (cls : Instrument) :
  Predict.get_random_instrument all_instruments g = Ok (cls, g') ->
  nth_error all_instruments (draws g (pos g) mod List.length all_instruments)
  = Some cls /\
  g' = snd (next g).
Proof.
  intros H.
  assert (Hne : all_instruments <> []).
  { intros E. rewrite E in H. discriminate H. }
  destruct (get_random_instrument_ok all_instruments g Hne) as (c & Hnth & Hget).
  rewrite Hget in H. injection H as <- <-. split; [exact Hnth | reflexivity].
Qed.

(** What a successful resolution returns, by the case of the key. *)
Lemma resolve_instrument_inv (k : string) (log log' : list string) (g g' : Rng)
    (i : Instrument) :
  Predict.resolve_instrument all_instruments instrumentFromMidiProgram k log g
  = Ok (i, log', g') ->
  if resolves instrumentFromMidiProgram k
  then (p <- Num.int k ;; of_option ValueError (instrumentFromMidiProgram p)) = Ok i
       /\ log' = log /\ g' = g
  else nth_error all_instruments (draws g (pos g) mod List.length all_instruments)
       = Some i
       /\ log' = List.app log [k ++ ": WARNING: invalid instrument!";
                               Predict.name_or_None i ++ ": INFO: selected random!"]
       /\ g' = snd (next g).
Proof.
  unfold Predict.resolve_instrument, resolves.
  destruct (p <- Num.int k ;; of_option ValueError (instrumentFromMidiProgram p))
    as [i0|e]; cbn [is_ok].
  - intros [= <- <- <-]. repeat split.
  - destruct (Predict.get_random_instrument all_instruments g) as [[c g1]|] eqn:E;
      [|discriminate].
    cbn [bind]. intros [= <- <- <-].
    destruct (get_random_instrument_inv _ _ _ E) as [Hnth ->].
    split; [exact Hnth|]. split; [|reflexivity]. now rewrite <- app_assoc.
Qed.

(** The part of one key. *)
Lemma build_part_inv (instruments : Predict.instruments_t) (k : string)
    (log log' : list string) (g g' : Rng) (p : Predict.Part) :
  Predict.build_part all_instruments instrumentFromMidiProgram instruments k log g
  = Ok (p, log', g') ->
  Predict.timesignature p = "3/4" /\
  Dict.get instruments k = Some (Predict.part_notes p) /\
  Predict.resolve_instrument all_instruments instrumentFromMidiProgram k log g
  = Ok (Predict.part_instrument p, log', g').
Proof.
  unfold Predict.build_part.
  destruct (Predict.resolve_instrument all_instruments instrumentFromMidiProgram
              k log g) as [[[i l1] g1]|]; [|discriminate].
  cbn [bind]. unfold Dict.lookup.
  destruct (Dict.get instruments k) as [v|]; [|discriminate].
  cbn [of_option bind]. intros [= <- <- <-]. repeat split.
Qed.

Lemma fallback_lines_length (ks : list string) (raws : list Predict.Part) :
  List.length raws = List.length ks ->
  List.length (List.concat (map (fun kp => fallback_lines instrumentFromMidiProgram
                                             (fst kp) (snd kp)) (combine ks raws)))
  = 2 * List.length (unresolved_keys instrumentFromMidiProgram ks).
Proof.
  revert raws. induction ks as [|k ks IH]; intros [|p raws] Hlen;
    try discriminate; [reflexivity|].
  cbn [combine map List.concat fst snd]. rewrite length_app, IH by now injection Hlen.
  unfold unresolved_keys, fallback_lines. cbn [filter].
  destruct (resolves instrumentFromMidiProgram k); cbn [negb List.length]; lia.
Qed.

(** The parts of a list of keys: how many, what was printed, what was
    drawn, and what the part of each key holds. *)
Lemma build_parts_inv (instruments : Predict.instruments_t) (ks : list string)
    (log log' : list string) (g g' : Rng) (raws : list Predict.Part) :
  build_parts all_instruments instrumentFromMidiProgram instruments ks log g
  = Ok (raws, log', g') ->
  List.length raws = List.length ks /\
  log' = List.app log
           (List.concat (map (fun kp => fallback_lines instrumentFromMidiProgram
                                          (fst kp) (snd kp)) (combine ks raws))) /\
  g' = mkRng (draws g)
         (pos g + List.length (unresolved_keys instrumentFromMidiProgram ks)) /\
  forall j k, nth_error ks j = Some k ->
    exists raw,
      nth_error raws j = Some raw /\
      Predict.timesignature raw = "3/4" /\
      Dict.get instruments k = Some (Predict.part_notes raw) /\
      instrument_of_key all_instruments instrumentFromMidiProgram k
        (draws g (pos g + List.length (unresolved_keys instrumentFromMidiProgram
                                         (firstn j ks))))
        (Predict.part_instrument raw).
Proof.
  revert log g raws log' g'. induction ks as [|k ks IH]; intros log g raws log' g'.
  - cbn. intros [= <- <- <-]. split; [reflexivity|]. split; [now rewrite app_nil_r|].
    split; [destruct g; cbn; f_equal; lia|]. intros [|j] k H; discriminate H.
  - cbn [build_parts].
    destruct (Predict.build_part all_instruments instrumentFromMidiProgram
                instruments k log g) as [[[p log1] g1]|] eqn:Ep; [|discriminate].
    cbn [bind].
    destruct (build_parts all_instruments instrumentFromMidiProgram instruments
                ks log1 g1) as [[[ps log2] g2]|] eqn:Eps; [|discriminate].
    cbn [bind]. intros [= <- <- <-].
    destruct (build_part_inv _ _ _ _ _ _ _ Ep) as (Hts & Hget & Hres).
    apply resolve_instrument_inv in Hres.
    destruct (IH _ _ _ _ _ Eps) as (Hlen & Hlog & Hg & Hnth).
    assert (Hstate :
      log1 = List.app log (fallback_lines instrumentFromMidiProgram k p) /\
      draws g1 = draws g /\
      pos g1 = pos g + List.length (unresolved_keys instrumentFromMidiProgram [k]) /\
      instrument_of_key all_instruments instrumentFromMidiProgram k
        (draws g (pos g)) (Predict.part_instrument p)).
    { unfold fallback_lines, unresolved_keys, instrument_of_key, resolves in *.
      cbn [filter].
      destruct (p0 <- Num.int k ;; of_option ValueError (instrumentFromMidiProgram p0))
        as [i0|e]; cbn [is_ok negb List.length] in *.
      - destruct Hres as (Hi & -> & ->). injection Hi as <-.
        rewrite app_nil_r. repeat split. lia.
      - destruct Hres as (Hi & -> & ->). unfold next. cbn [snd draws pos].
        repeat split; [lia | exact Hi]. }
    destruct Hstate as (Hlog1 & Hd1 & Hp1 & Hins).
    cbn [List.length combine map List.concat fst snd].
    split; [now rewrite Hlen|]. split; [now rewrite Hlog, Hlog1, <- app_assoc|].
    split.
    + rewrite Hg, Hd1, Hp1. f_equal. unfold unresolved_keys. cbn [filter].
      destruct (negb (resolves instrumentFromMidiProgram k)); cbn [List.length]; lia.
    + intros [|j] k' Hk'.
      * injection Hk' as <-. exists p. cbn [firstn unresolved_keys filter List.length].
        rewrite Nat.add_0_r. repeat split; assumption.
      * cbn [nth_error] in Hk'. destruct (Hnth j k' Hk') as (raw & Hraw & H1 & H2 & H3).
        exists raw. cbn [nth_error]. repeat split; try assumption.
        rewrite Hd1, Hp1 in H3.
        replace (pos g + List.length (unresolved_keys instrumentFromMidiProgram
                                        (firstn (S j) (k :: ks))))
          with (pos g + List.length (unresolved_keys instrumentFromMidiProgram [k])
                + List.length (unresolved_keys instrumentFromMidiProgram (firstn j ks)));
          [exact H3|].
        unfold unresolved_keys. cbn [firstn filter].
        destruct (negb (resolves instrumentFromMidiProgram k)); cbn [List.length]; lia.
Qed.



(** The parts of the entries of a dictionary are parts of its entries. *)
Lemma build_parts_entries (instruments : Predict.instruments_t)
    (log log' : list string) (g g' : Rng) (raws : list Predict.Part) :
  NoDup (Dict.keys instruments) ->
  build_parts all_instruments instrumentFromMidiProgram instruments
    (Dict.keys instruments) log g = Ok (raws, log', g') ->
  Forall2 (part_of_entry all_instruments instrumentFromMidiProgram) raws instruments.
Proof.
  intros Hnd Hrun.
  destruct (build_parts_inv _ _ _ _ _ _ _ Hrun) as (Hlen & _ & _ & Hnth).
  apply Forall2_of_nth.
  - rewrite Hlen. unfold Dict.keys. now rewrite length_map.
  - intros j raw [k v] Hraw Hentry.
    assert (Hk : nth_error (Dict.keys instruments) j = Some k).
    { unfold Dict.keys. now rewrite nth_error_map, Hentry. }
    destruct (Hnth j k Hk) as (raw' & Hraw' & Hts & Hget & Hins).
    rewrite Hraw in Hraw'. injection Hraw' as <-.
    rewrite (dict_get_entry instruments k v Hnd (nth_error_In _ _ Hentry)) in Hget.
    injection Hget as Hv. unfold part_of_entry. cbn [fst snd].
    split; [exact Hts|]. split; [now symmetry|].
    unfold instrument_of_key in Hins.
    destruct (p <- Num.int k ;; of_option ValueError (instrumentFromMidiProgram p));
      [exact Hins | eapply nth_error_In, Hins].
Qed.

Section Catalog.

Hypothesis catalog_not_empty : all_instruments <> [].

Lemma build_parts_total (instruments : Predict.instruments_t) (ks : list string)
    (log : list string) (g : Rng) :
  (forall k, In k ks -> In k (Dict.keys instruments)) ->
  exists r,
    build_parts all_instruments instrumentFromMidiProgram instruments ks log g = Ok r.
Proof.
  revert log g. induction ks as [|k ks IH]; intros log g Hks.
  - eexists. reflexivity.
  - cbn [build_parts]. unfold Predict.build_part.
    destruct (resolve_instrument_total all_instruments instrumentFromMidiProgram
                catalog_not_empty k log g) as ([[i log1] g1] & Hr).
    rewrite Hr. cbn [bind].
    destruct (dict_get_of_key instruments k (Hks k (or_introl eq_refl))) as (v & Hv).
    unfold Dict.lookup. rewrite Hv. cbn [of_option bind].
    destruct (IH log1 g1 (fun k' H => Hks k' (or_intror H))) as ([[ps log2] g2] & Hps).
    rewrite Hps. cbn [bind]. eexists. reflexivity.
Qed.

End Catalog.

Variable lib : Predict.Library.
Variable optimizer : Z.

(** The loop over the keys builds the parts and regroups the score; it
    ends exactly when both do. *)
Lemma assemble_run (instruments : Predict.instruments_t) (ks : list string)
    (score : list (Predict.Stream lib)) (log : list string) (g : Rng)
    (st : Predict.midi_state lib) :
  for_each (Predict.assemble_step all_instruments instrumentFromMidiProgram
              lib optimizer instruments) ks (Predict.mkMidi score log g) = Ok st
  <->
  exists raws,
    build_parts all_instruments instrumentFromMidiProgram instruments ks log g
    = Ok (raws, Predict.printed st, Predict.rng st) /\
    measured_from lib optimizer score raws = Ok (Predict.midi_stream st).
Proof.
  revert score log g. induction ks as [|k ks IH]; intros score log g.
  - cbn [for_each build_parts]. split.
    + intros [= <-]. exists []. split; reflexivity.
    + intros (raws & Hb & Hm). injection Hb as <- Hl Hg. cbn in Hm.
      injection Hm as Hs. destruct st as [s l r]. cbn in *. now subst.
  - cbn [for_each build_parts]. unfold Predict.assemble_step at 1.
    cbn [Predict.printed Predict.rng Predict.midi_stream].
    destruct (Predict.build_part all_instruments instrumentFromMidiProgram
                instruments k log g) as [[[p log1] g1]|e]; cbn [bind].
    2:{ split; [discriminate | intros (raws & Hb & _); discriminate Hb]. }
    destruct (Predict.measure_parts lib optimizer
                (score ++ [Predict.of_part lib p])%list) as [score1|e] eqn:Em;
      cbn [bind].
    + rewrite IH. split.
      * intros (raws & Hb & Hm). exists (p :: raws). rewrite Hb. cbn [bind].
        split; [reflexivity|]. cbn [measured_from]. now rewrite Em.
      * intros (raws & Hb & Hm).
        destruct (build_parts all_instruments instrumentFromMidiProgram instruments
                    ks log1 g1) as [[[ps log2] g2]|]; [|discriminate Hb].
        cbn [bind] in Hb. injection Hb as <- <- <-.
        exists ps. split; [reflexivity|]. cbn [measured_from] in Hm.
        now rewrite Em in Hm.
    + split; [discriminate|]. intros (raws & Hb & Hm).
      destruct (build_parts all_instruments instrumentFromMidiProgram instruments
                  ks log1 g1) as [[[ps log2] g2]|]; [|discriminate Hb].
      cbn [bind] in Hb. injection Hb as <- _ _. cbn [measured_from] in Hm.
      rewrite Em in Hm. discriminate Hm.
Qed.

Lemma measured_from_total (score : list (Predict.Stream lib)) (raws : list Predict.Part) :
  (forall s, exists s', Predict.makeMeasures lib s = Ok s') ->
  exists score',
    measured_from lib optimizer score raws = Ok score' /\
    List.length score' = List.length score + List.length raws.
Proof.
  intros Hmm. revert score. induction raws as [|p raws IH]; intros score.
  - exists score. split; [reflexivity | cbn; lia].
  - cbn [measured_from]. unfold Predict.measure_parts.
    assert (Hstep : exists score1,
              (if Predict.optimizer_on optimizer
               then mapM (Predict.makeMeasures lib) (score ++ [Predict.of_part lib p])
               else Ok (score ++ [Predict.of_part lib p]))%list = Ok score1 /\
              List.length score1 = S (List.length score)).
    { destruct (Predict.optimizer_on optimizer).
      - destruct (mapM_total (Predict.makeMeasures lib)
                    (score ++ [Predict.of_part lib p])%list (fun s _ => Hmm s))
          as (score1 & H1).
        exists score1. split; [exact H1|].
        rewrite (mapM_length _ _ _ H1), length_app. cbn. lia.
      - eexists. split; [reflexivity|]. rewrite length_app. cbn. lia. }
    destruct Hstep as (score1 & -> & Hl1). cbn [bind].
    destruct (IH score1) as (score' & Hrun & Hl). exists score'.
    split; [exact Hrun|]. cbn [List.length]. lia.
Qed.

(** The passes each part went through when the loop ends. *)
Lemma measured_from_passes (acc : list (Predict.Stream lib))
    (raws : list Predict.Part) (out : list (Predict.Stream lib)) :
  measured_from lib optimizer acc raws = Ok out ->
  List.length out = List.length acc + List.length raws /\
  (forall i a o,
     nth_error acc i = Some a -> nth_error out i = Some o ->
     passes lib (if (optimizer =? 0)%Z then 0 else List.length raws) a = Ok o) /\
  (forall j raw o,
     nth_error raws j = Some raw ->
     nth_error out (List.length acc + j) = Some o ->
     passes lib (if (optimizer =? 0)%Z then 0 else List.length raws - j)
       (Predict.of_part lib raw) = Ok o).
Proof.
  revert acc out. induction raws as [|p rest IH]; intros acc out.
  - cbn [measured_from]. intros [= <-]. split; [cbn; lia|]. split.
    + intros i a o Ha Ho. rewrite Ha in Ho. injection Ho as <-.
      now destruct (optimizer =? 0)%Z.
    + intros [|j] raw o H; discriminate H.
  - cbn [measured_from].
    destruct (Predict.measure_parts lib optimizer
                (acc ++ [Predict.of_part lib p])%list) as [acc1|] eqn:Em;
      [|discriminate].
    cbn [bind]. intros Hrun.
    destruct (IH acc1 out Hrun) as (Hlen & HA & HB).
    assert (Hstep : List.length acc1 = S (List.length acc) /\
              forall i a o,
                nth_error (acc ++ [Predict.of_part lib p])%list i = Some a ->
                nth_error out i = Some o ->
                passes lib (if (optimizer =? 0)%Z then 0 else S (List.length rest)) a
                = Ok o).
    { unfold Predict.measure_parts, Predict.optimizer_on in Em.
      destruct (optimizer =? 0)%Z; cbn [negb] in Em.
      - injection Em as <-. split; [rewrite length_app; cbn; lia|].
        intros i a o Ha Ho. exact (HA i a o Ha Ho).
      - split; [rewrite (mapM_length _ _ _ Em), length_app; cbn; lia|].
        intros i a o Ha Ho.
        destruct (mapM_nth_error _ _ _ i a Em Ha) as (a1 & Ha1 & Hmm).
        cbn [passes]. rewrite Hmm. cbn [bind]. exact (HA i a1 o Ha1 Ho). }
    destruct Hstep as (Hl1 & Hone).
    split; [cbn [List.length]; lia|]. split.
    + intros i a o Ha Ho. cbn [List.length].
      apply (Hone i a o); [|exact Ho].
      rewrite nth_error_app1; [exact Ha|]. apply nth_error_Some. congruence.
    + intros [|j] raw o Hraw Ho.
      * injection Hraw as <-. rewrite Nat.add_0_r in Ho. cbn [List.length].
        rewrite Nat.sub_0_r. apply (Hone (List.length acc) _ o); [|exact Ho].
        rewrite nth_error_app2 by lia. now rewrite Nat.sub_diag.
      * cbn [nth_error] in Hraw. cbn [List.length].
        replace (S (List.length rest) - S j) with (List.length rest - j) by lia.
        apply (HB j raw o Hraw).
        now replace (List.length acc1 + j) with (List.length acc + S j) by lia.
Qed.

Lemma score_of_measured (raws : list Predict.Part)
    (score0 score : list (Predict.Stream lib)) :
  measured_from lib optimizer [] raws = Ok score0 ->
  (if Predict.optimizer_on optimizer
   then Predict.makeNotation lib score0 else Ok score0) = Ok score ->
  score_of lib optimizer raws score.
Proof.
  intros Hm Hn.
  destruct (measured_from_passes [] raws score0 Hm) as (Hlen & _ & Hp).
  exists score0. split; [exact Hlen|]. split.
  - intros j raw s0 Hraw Hs. exact (Hp j raw s0 Hraw Hs).
  - unfold Predict.optimizer_on in Hn. now destruct (optimizer =? 0)%Z.
Qed.

(** What a finished [create_midi] went through. *)
Lemma create_midi_inv (toks : list token) (g : Rng)
    (st : Predict.midi_state lib) (fp : string) :
  Predict.create_midi all_instruments instrumentFromMidiProgram lib optimizer toks g
  = Ok (st, fp) ->
  exists instruments raws g0 words g1 picked,
    Predict.decode_tokens toks = Ok instruments /\
    build_parts all_instruments instrumentFromMidiProgram instruments
      (Dict.keys instruments) [] g = Ok (raws, Predict.printed st, g0) /\
    score_of lib optimizer raws (Predict.midi_stream st) /\
    (exists score0,
       measured_from lib optimizer [] raws = Ok score0 /\
       (if Predict.optimizer_on optimizer
        then Predict.makeNotation lib score0 else Ok score0)
       = Ok (Predict.midi_stream st)) /\
    Predict.get_random_words lib g0 = Ok (words, g1) /\
    Predict.sample lib words 2 g1 = Ok (picked, Predict.rng st) /\
    Predict.file_name (map Py.lower picked) = Ok fp /\
    Predict.write lib (Predict.midi_stream st) fp = Ok tt.
Proof.
  unfold Predict.create_midi.
  destruct (Predict.decode_tokens toks) as [d|] eqn:Ed; [|discriminate].
  cbn [bind].
  destruct (for_each _ (Dict.keys d) (Predict.mkMidi [] [] g)) as [st0|] eqn:Erun;
    [|discriminate].
  cbn [bind]. apply assemble_run in Erun. destruct Erun as (raws & Hb & Hm).
  destruct (if Predict.optimizer_on optimizer
            then Predict.makeNotation lib (Predict.midi_stream st0)
            else Ok (Predict.midi_stream st0)) as [score|] eqn:Es; [|discriminate].
  cbn [bind].
  destruct (Predict.get_random_words lib (Predict.rng st0)) as [[words g1]|] eqn:Ew;
    [|discriminate].
  cbn [bind].
  destruct (Predict.sample lib words 2 g1) as [[picked g2]|] eqn:Esa; [|discriminate].
  cbn [bind].
  destruct (Predict.file_name (map Py.lower picked)) as [fp0|] eqn:Ef; [|discriminate].
  cbn [bind].
  destruct (Predict.write lib score fp0) as [[]|] eqn:Ewr; [|discriminate].
  cbn [bind]. intros [= <- <-]. cbn [Predict.midi_stream Predict.printed Predict.rng].
  exists d, raws, (Predict.rng st0), words, g1, picked.
  split; [reflexivity|]. split; [exact Hb|].
  split; [exact (score_of_measured raws _ _ Hm Es)|].
  split; [exists (Predict.midi_stream st0); split; assumption|].
  repeat split; assumption.
Qed.

(** From the parts to the file: [create_midi] returns when the library
    returns, with the score the library made of the parts and the lines of
    the part-building loop. *)
Lemma create_midi_of_parts (toks : list token)
    (instruments : Predict.instruments_t) (g g0 : Rng)
    (raws : list Predict.Part) (log : list string)
    (score0 score : list (Predict.Stream lib)) :
  library_returns lib ->
  Predict.decode_tokens toks = Ok instruments ->
  build_parts all_instruments instrumentFromMidiProgram instruments
    (Dict.keys instruments) [] g = Ok (raws, log, g0) ->
  measured_from lib optimizer [] raws = Ok score0 ->
  (if Predict.optimizer_on optimizer
   then Predict.makeNotation lib score0 else Ok score0) = Ok score ->
  exists st fp,
    Predict.create_midi all_instruments instrumentFromMidiProgram lib optimizer toks g
    = Ok (st, fp) /\
    Predict.midi_stream st = score /\
    Predict.printed st = log.
Proof.
  intros (Hmm & Hmn & Hw & Hwr) Hdec Hb Hm Hn.
  unfold Predict.create_midi. rewrite Hdec. cbn [bind].
  assert (Hrun : for_each (Predict.assemble_step all_instruments
                             instrumentFromMidiProgram lib optimizer instruments)
                   (Dict.keys instruments) (Predict.mkMidi [] [] g)
                 = Ok (Predict.mkMidi score0 log g0)).
  { apply assemble_run. exists raws. split; assumption. }
  rewrite Hrun. cbn [bind Predict.midi_stream Predict.printed Predict.rng].
  rewrite Hn. cbn [bind].
  destruct (Hw g0) as (words & g1 & -> & Hsa). cbn [bind].
  destruct (Hsa g1) as (a & b & g2 & ->). cbn [bind map Predict.file_name].
  rewrite Hwr. cbn [bind]. eexists. eexists. split; [reflexivity|].
  split; reflexivity.
Qed.

(** Once the tokens are decoded, [create_midi] returns if the catalog is
    not empty and the library returns. *)
Lemma create_midi_returns (toks : list token)
    (instruments : Predict.instruments_t) (g : Rng) :
  all_instruments <> [] ->
  library_returns lib ->
  Predict.decode_tokens toks = Ok instruments ->
  exists st fp,
    Predict.create_midi all_instruments instrumentFromMidiProgram lib optimizer toks g
    = Ok (st, fp).
Proof.
  intros Hcat Hlib Hdec.
  destruct (build_parts_total Hcat instruments (Dict.keys instruments) [] g
              (fun k H => H)) as ([[raws log] g0] & Hb).
  destruct Hlib as (Hmm & Hmn & Hrest).
  destruct (measured_from_total [] raws Hmm) as (score0 & Hm & _).
  assert (Hs : exists score,
            (if Predict.optimizer_on optimizer
             then Predict.makeNotation lib score0 else Ok score0) = Ok score).
  { destruct (Predict.optimizer_on optimizer); [apply Hmn | now exists score0]. }
  destruct Hs as (score & Hs).
  destruct (create_midi_of_parts toks instruments g g0 raws log score0 score
              (conj Hmm (conj Hmn Hrest)) Hdec Hb Hm Hs) as (st & fp & Hrun & _).
  now exists st, fp.
Qed.


End ScoreFacts.


Lemma example_library_returns : library_returns example_library.
Proof.
  split; [intros s; eexists; reflexivity|].
  split; [intros ss; eexists; reflexivity|].
  split; [|intros ss fp; reflexivity].
  intros g. exists ["Alpha"; "BETA"; "Gamma"], g. split; [reflexivity|].
  intros g1. exists "Alpha", "BETA", (snd (next g1)). reflexivity.
Qed.




(** X15. The score has one part per entry of the instrument dictionary, in
    the order of the keys: as lines 168-183 fill it, each part has the time
    signature [3/4], holds the objects of its entry in their order, and its
    instrument is the one of the key's program or, for a key that does not
    resolve, an instrument of the catalog. The score that is written is
    what music21 makes of these parts: with [args.optimizer] at zero it
    holds them as filled; otherwise the part of position [j] among [n] went
    through [n - j] passes of [makeMeasures] and the whole through
    [makeNotation]. *)
Theorem score_parts_follow_groups
    (all_instruments : list Instrument)
    (instrumentFromMidiProgram : Z -> option Instrument)
    (lib : Predict.Library) (optimizer : Z)
    (toks : list token) (g : Rng) (st : Predict.midi_state lib) (fp : string) :
  Predict.create_midi all_instruments instrumentFromMidiProgram lib optimizer toks g
  = Ok (st, fp) ->
  exists instruments raws,
    Predict.decode_tokens toks = Ok instruments /\
    Forall2 (part_of_entry all_instruments instrumentFromMidiProgram)
            raws instruments /\
    score_of lib optimizer raws (Predict.midi_stream st) /\
    (optimizer = 0%Z ->
     Predict.midi_stream st = map (Predict.of_part lib) raws) /\
    Predict.write lib (Predict.midi_stream st) fp = Ok tt.
Proof.
  intros H.
  destruct (create_midi_inv _ _ _ _ _ _ _ _ H)
    as (d & raws & g0 & words & g1 & picked & Hd & Hb & Hscore & _ & _ & _ & _ & Hw).
  exists d, raws. split; [exact Hd|].
  destruct (decode_tokens_grouped toks d Hd) as (_ & _ & _ & Hnd & _).
  split; [exact (build_parts_entries _ _ _ _ _ _ _ _ Hnd Hb)|].
  split; [exact Hscore|]. split; [|exact Hw].
  intros Hoff. destruct Hscore as (score0 & Hlen & Hp & Hn).
  subst optimizer. cbn [Z.eqb] in Hp, Hn. injection Hn as <-.
  apply nth_error_ext. intros j. rewrite nth_error_map.
  destruct (nth_error raws j) as [raw|] eqn:Hraw; cbn [option_map].
  - destruct (nth_error score0 j) as [s0|] eqn:Hs.
    + specialize (Hp j raw s0 Hraw Hs). cbn [passes] in Hp. congruence.
    + apply nth_error_None in Hs.
      assert (j < List.length raws) by (apply nth_error_Some; congruence). lia.
  - apply nth_error_None. apply nth_error_None in Hraw. lia.
Qed.

Lemma score_parts_follow_groups_witness :
  let toks := ["0 C4 1.0 0.0"; "None E4 G4 1/3 0.5"; "0 D4 2.0 1.0"; "40 1.0 2.0"] in
  exists st fp,
    Predict.create_midi example_catalog example_table example_library 1
      toks (constant_rng 1) = Ok (st, fp) /\
    exists instruments raws,
      Predict.decode_tokens toks = Ok instruments /\
      Forall2 (part_of_entry example_catalog example_table) raws instruments /\
      score_of example_library 1 raws (Predict.midi_stream st).
Proof.
  intros toks.
  assert (H : { r | Predict.create_midi example_catalog example_table
                      example_library 1 toks (constant_rng 1) = Ok r })
    by (eexists; vm_compute; reflexivity).
  destruct H as [[st fp] H]. exists st, fp. split; [exact H|].
  destruct (score_parts_follow_groups example_catalog example_table
              example_library 1 toks (constant_rng 1) st fp H)
    as (instruments & raws & H1 & H2 & H3 & _).
  exists instruments, raws. split; [exact H1|]. split; [exact H2 | exact H3].
Defined.

(** X16. Only the keys that do not resolve touch the random source and the
    console before the file is named: a finished [create_midi] has printed
    exactly two lines for each of them and none for the others, and the
    generator it hands to [get_random_words] is the initial one advanced by
    one draw for each of them; the generator left is the one [sample]
    returns, and the file is named after the two words it picked, in lower
    case. *)
Theorem fallback_draws_and_lines
    (all_instruments : list Instrument)
    (instrumentFromMidiProgram : Z -> option Instrument)
    (lib : Predict.Library) (optimizer : Z)
    (toks : list token) (g : Rng) (st : Predict.midi_state lib) (fp : string) :
  Predict.create_midi all_instruments instrumentFromMidiProgram lib optimizer toks g
  = Ok (st, fp) ->
  exists instruments words g1 picked,
    Predict.decode_tokens toks = Ok instruments /\
    let unresolved := unresolved_keys instrumentFromMidiProgram (Dict.keys instruments) in
    List.length (Predict.printed st) = 2 * List.length unresolved /\
    Predict.get_random_words lib (mkRng (draws g) (pos g + List.length unresolved))
    = Ok (words, g1) /\
    Predict.sample lib words 2 g1 = Ok (picked, Predict.rng st) /\
    Predict.file_name (map Py.lower picked) = Ok fp.
Proof.
  intros H.
  destruct (create_midi_inv _ _ _ _ _ _ _ _ H)
    as (d & raws & g0 & words & g1 & picked & Hd & Hb & _ & _ & Hw & Hs & Hf & _).
  exists d, words, g1, picked. split; [exact Hd|]. cbv zeta.
  destruct (build_parts_inv _ _ _ _ _ _ _ _ _ Hb) as (Hlen & Hlog & Hg & _).
  split; [|split; [|split]]; try assumption.
  - rewrite Hlog. cbn [app]. now apply fallback_lines_length.
  - now rewrite <- Hg.
Qed.

Lemma fallback_draws_and_lines_witness :
  let toks := ["0 C4 1.0 0.0"; "None E4 G4 1/3 0.5"; "0 D4 2.0 1.0"; "300 C4 1.0 2.0"] in
  exists st fp,
    Predict.create_midi example_catalog example_table example_library 1
      toks (constant_rng 1) = Ok (st, fp) /\
    exists instruments words g1 picked,
      Predict.decode_tokens toks = Ok instruments /\
      let unresolved := unresolved_keys example_table (Dict.keys instruments) in
      List.length (Predict.printed st) = 2 * List.length unresolved /\
      Predict.get_random_words example_library
        (mkRng (draws (constant_rng 1))
               (pos (constant_rng 1) + List.length unresolved))
      = Ok (words, g1) /\
      Predict.sample example_library words 2 g1 = Ok (picked, Predict.rng st) /\
      Predict.file_name (map Py.lower picked) = Ok fp.
Proof.
  intros toks.
  assert (H : { r | Predict.create_midi example_catalog example_table
                      example_library 1 toks (constant_rng 1) = Ok r })
    by (eexists; vm_compute; reflexivity).
  destruct H as [[st fp] H]. exists st, fp. split; [exact H|].
  exact (fallback_draws_and_lines example_catalog example_table example_library 1
           toks (constant_rng 1) st fp H).
Defined.


(** ** Extraction, item by item *)

Lemma for_each_app {S A : Type} (body : S -> A -> result S) (xs ys : list A) (s : S) :
  for_each body (xs ++ ys) s = bind (for_each body xs s) (for_each body ys).
Proof.
  revert s. induction xs as [|x xs IH]; intros s; [reflexivity|].
  cbn [app for_each]. destruct (body s x); cbn [bind]; [apply IH | reflexivity].
Qed.

(** The nested loops of [get_notes] are one loop over all the items. *)
Lemma get_notes_flat (ri : list Instrument) (files : list Lstm.document) (g : Rng) :
  Lstm.get_notes ri files g
  = for_each (Lstm.extract_item ri) (List.concat files) ([], g).
Proof.
  unfold Lstm.get_notes. generalize (@nil token, g) as st.
  induction files as [|doc files IH]; intros st; [reflexivity|].
  cbn [for_each List.concat]. rewrite for_each_app.
  destruct (for_each (Lstm.extract_item ri) doc st); cbn [bind];
    [apply IH | reflexivity].
Qed.

Lemma append_elements_app (iid : option Z) (els : list Lstm.element)
    (notes : list token) :
  fold_left (Lstm.append_element iid) els notes
  = (notes ++ fold_left (Lstm.append_element iid) els [])%list.
Proof.
  revert notes. induction els as [|el els IH]; intros notes.
  - cbn. now rewrite app_nil_r.
  - cbn [fold_left]. rewrite IH. rewrite (IH (Lstm.append_element iid [] el)).
    destruct el; cbn [Lstm.append_element app]; now rewrite <- ?app_assoc.
Qed.

Lemma append_elements_length (iid : option Z) (els : list Lstm.element) :
  List.length (fold_left (Lstm.append_element iid) els [])
  = List.length (filter sounding_element els).
Proof.
  induction els as [|el els IH]; [reflexivity|].
  cbn [fold_left]. rewrite append_elements_app, length_app, IH.
  destruct el; cbn; lia.
Qed.

Lemma item_tokens_length (iid : option Z) (it : Lstm.item) :
  lacks_instrument it = false ->
  List.length (item_tokens iid it) = sounding_count it.
Proof.
  destruct it as [p ql off|[ins|] els|]; cbn [lacks_instrument]; try discriminate;
    intros _; try reflexivity.
  apply append_elements_length.
Qed.

(** What a successful pass over one item did. *)
Lemma extract_item_inv (ri : list Instrument) (notes notes' : list token)
    (g g' : Rng) (it : Lstm.item) :
  Lstm.extract_item ri (notes, g) it = Ok (notes', g') ->
  lacks_instrument it = false /\
  g' = snd (next g) /\
  exists cls, In cls ri /\ notes' = (notes ++ item_tokens (midiProgram cls) it)%list.
Proof.
  unfold Lstm.extract_item, randint.
  destruct (len ri - 1 <? 0)%Z; [discriminate|].
  unfold next. cbn [bind snd].
  destruct (index_Z ri _) as [cls|] eqn:E; [|discriminate]. cbn [bind].
  apply index_Z_In in E.
  destruct it as [p ql off|[ins|] els|]; cbn [of_option bind lacks_instrument];
    try discriminate.
  - intros [= <- <-]. repeat split. now exists cls.
  - intros [= <- <-]. repeat split. exists cls. split; [exact E|].
    cbn [item_tokens]. apply append_elements_app.
  - intros [= <- <-]. repeat split. exists cls. split; [exact E|].
    cbn [item_tokens]. now rewrite app_nil_r.
Qed.

(** With a class to draw, an item either lacks its instrument, and the
    pass raises [AttributeError], or it is processed. *)
Lemma extract_item_cases (ri : list Instrument) (notes : list token) (g : Rng)
    (it : Lstm.item) :
  ri <> [] ->
  if lacks_instrument it
  then Lstm.extract_item ri (notes, g) it = Raise AttributeError
  else exists notes',
         Lstm.extract_item ri (notes, g) it = Ok (notes', snd (next g)).
Proof.
  intros Hne.
  assert (Hn : List.length ri <> 0) by (destruct ri; simpl; congruence).
  unfold Lstm.extract_item, len. rewrite (randint_draw _ g Hn). cbn [bind].
  rewrite index_Z_of_nat.
  destruct (nth_error ri (draws g (pos g) mod List.length ri)) as [cls|] eqn:E.
  2:{ apply nth_error_None in E.
      pose proof (Nat.mod_upper_bound (draws g (pos g)) _ Hn). lia. }
  cbn [of_option bind].
  destruct it as [p ql off|[ins|] els|]; cbn [lacks_instrument of_option bind];
    try reflexivity; eexists; reflexivity.
Qed.

Section ExtractionRuns.

Variable ri : list Instrument.

Lemma extract_items_inv (items : list Lstm.item) (notes notes' : list token)
    (g g' : Rng) :
  for_each (Lstm.extract_item ri) items (notes, g) = Ok (notes', g') ->
  existsb lacks_instrument items = false /\
  g' = mkRng (draws g) (pos g + List.length items) /\
  exists toks,
    notes' = (notes ++ List.concat toks)%list /\
    Forall2 (fun it ts => exists cls, In cls ri /\ ts = item_tokens (midiProgram cls) it)
            items toks.
Proof.
  revert notes g. induction items as [|it items IH]; intros notes g.
  - cbn. intros [= <- <-]. split; [reflexivity|]. split.
    + destruct g. cbn. f_equal. lia.
    + exists []. rewrite app_nil_r. split; [reflexivity | constructor].
  - cbn [for_each].
    destruct (Lstm.extract_item ri (notes, g) it) as [[n1 g1]|] eqn:E; [|discriminate].
    cbn [bind]. intros Hrun.
    destruct (extract_item_inv _ _ _ _ _ _ E) as (Hl & Hg & cls & Hcls & Hn).
    destruct (IH _ _ Hrun) as (Hls & Hg' & toks & Hn' & Hall).
    cbn [existsb]. rewrite Hl, Hls. split; [reflexivity|]. split.
    + rewrite Hg', Hg. unfold next. cbn [snd draws pos List.length]. f_equal. lia.
    + exists (item_tokens (midiProgram cls) it :: toks). split.
      * rewrite Hn', Hn, <- app_assoc. reflexivity.
      * constructor; [now exists cls | exact Hall].
Qed.

Hypothesis catalog_not_empty : ri <> [].

Lemma extract_items_cases (items : list Lstm.item) (notes : list token) (g : Rng) :
  if existsb lacks_instrument items
  then for_each (Lstm.extract_item ri) items (notes, g) = Raise AttributeError
  else exists notes' g',
         for_each (Lstm.extract_item ri) items (notes, g) = Ok (notes', g').
Proof.
  revert notes g. induction items as [|it items IH]; intros notes g.
  - cbn. now exists notes, g.
  - cbn [existsb for_each].
    pose proof (extract_item_cases ri notes g it catalog_not_empty) as Hit.
    destruct (lacks_instrument it); cbn [orb].
    + now rewrite Hit.
    + destruct Hit as (n1 & Hit). rewrite Hit. cbn [bind]. apply IH.
Qed.

End ExtractionRuns.

(** X17. One top-level part without an instrument object stops the
    extraction of the whole corpus: [get_notes] raises [AttributeError]
    and returns no token, whatever the other parts and files hold. *)
Theorem part_without_instrument_aborts
    (ri : list Instrument) (files : list Lstm.document) (g : Rng)
    (doc : Lstm.document) (els : list Lstm.element) :
  ri <> [] ->
  In doc files -> In (Lstm.TPart None els) doc ->
  Lstm.get_notes ri files g = Raise AttributeError.
Proof.
  intros Hne Hdoc Hit. rewrite get_notes_flat.
  pose proof (extract_items_cases ri Hne (List.concat files) [] g) as H.
  replace (existsb lacks_instrument (List.concat files)) with true in H; [exact H|].
  symmetry. apply existsb_exists. exists (Lstm.TPart None els).
  split; [|reflexivity]. apply in_concat. now exists doc.
Qed.

Lemma part_without_instrument_aborts_witness :
  let files := [declared_document; [Lstm.TNote "C4" "1.0" "0.0"; Lstm.TPart None []]] in
  example_catalog <> [] /\
  In [Lstm.TNote "C4" "1.0" "0.0"; Lstm.TPart None []] files /\
  In (Lstm.TPart None []) [Lstm.TNote "C4" "1.0" "0.0"; Lstm.TPart None []] /\
  Lstm.get_notes example_catalog files (constant_rng 0) = Raise AttributeError.
Proof.
  intros files.
  assert (H1 : example_catalog <> []) by discriminate.
  assert (H2 : In [Lstm.TNote "C4" "1.0" "0.0"; Lstm.TPart None []] files)
    by (right; now left).
  assert (H3 : In (Lstm.TPart None [])
                  [Lstm.TNote "C4" "1.0" "0.0"; Lstm.TPart None []])
    by (right; now left).
  split; [exact H1|]. split; [exact H2|]. split; [exact H3|].
  exact (part_without_instrument_aborts example_catalog files (constant_rng 0)
           _ [] H1 H2 H3).
Defined.

Lemma get_notes_counts
    (ri : list Instrument) (files : list Lstm.document) (g : Rng) :
  ri <> [] ->
  existsb lacks_instrument (List.concat files) = false ->
  exists notes,
    Lstm.get_notes ri files g
    = Ok (notes, mkRng (draws g) (pos g + List.length (List.concat files))) /\
    List.length notes = list_sum (map sounding_count (List.concat files)).
Proof.
  intros Hne Hl. rewrite get_notes_flat.
  pose proof (extract_items_cases ri Hne (List.concat files) [] g) as H.
  rewrite Hl in H. destruct H as (notes & g' & Hrun).
  destruct (extract_items_inv ri _ _ _ _ _ Hrun) as (_ & Hg & toks & Hn & Hall).
  exists notes. rewrite Hrun, Hg. split; [reflexivity|].
  cbn [app] in Hn. subst notes. clear Hrun Hg.
  induction Hall as [|it ts items toks (cls & _ & Hts) Hall IH]; [reflexivity|].
  cbn [existsb] in Hl. apply orb_false_iff in Hl as [Hl1 Hl2].
  cbn [List.concat map list_sum]. rewrite length_app, (IH Hl2), Hts.
  now rewrite item_tokens_length.
Qed.

(** X18. When every top-level part has an instrument object, [get_notes]
    returns: it has made one draw per top-level item, declared instrument
    or not, and emitted one token per note and per chord, skipping every
    other element. *)
Theorem extraction_counts
    (ri : list Instrument) (files : list Lstm.document) (g : Rng) :
  ri <> [] ->
  existsb lacks_instrument (List.concat files) = false ->
  exists notes,
    Lstm.get_notes ri files g
    = Ok (notes, mkRng (draws g) (pos g + List.length (List.concat files))) /\
    List.length notes = list_sum (map sounding_count (List.concat files)).
Proof.
  exact (get_notes_counts ri files g).
Qed.

Lemma extraction_counts_witness :
  let files := [declared_document; example_document; [Lstm.TOther]] in
  example_catalog <> [] /\
  existsb lacks_instrument (List.concat files) = false /\
  exists notes,
    Lstm.get_notes example_catalog files (constant_rng 1)
    = Ok (notes, mkRng (draws (constant_rng 1))
                       (pos (constant_rng 1) + List.length (List.concat files))) /\
    List.length notes = list_sum (map sounding_count (List.concat files)).
Proof.
  intros files.
  assert (H1 : example_catalog <> []) by discriminate.
  assert (H2 : existsb lacks_instrument (List.concat files) = false) by reflexivity.
  split; [exact H1|]. split; [exact H2|].
  exact (extraction_counts example_catalog files (constant_rng 1) H1 H2).
Defined.

(** ** Training, end to end *)

(** At most a hundred tokens: no window, and [to_categorical] of no target
    raises. *)
Lemma prepare_sequences_short (notes : list token) (n_vocab : nat) :
  List.length notes <= 100 ->
  Lstm.prepare_sequences notes n_vocab = Raise ValueError.
Proof.
  intros H. unfold Lstm.prepare_sequences, Lstm.training_samples.
  rewrite sequence_loop_short by exact H. reflexivity.
Qed.

Lemma prepare_sequences_lengths (notes : list token) :
  100 < List.length notes ->
  exists network_input network_output,
    Lstm.prepare_sequences notes (Lstm.n_vocab_of notes)
    = Ok (network_input, network_output) /\
    List.length network_input = List.length notes - 100 /\
    List.length network_output = List.length notes - 100.
Proof.
  intros HM.
  destruct (training_samples_spec notes HM)
    as (ids & ins & outs & Hids & Hrun & Hli & Hlo & Hnth).
  unfold Lstm.prepare_sequences. rewrite Hrun. cbn [bind].
  destruct outs as [|o outs]; [cbn in Hlo; lia|].
  cbn [Lstm.to_categorical bind].
  eexists. eexists. split; [reflexivity|].
  unfold normalize. rewrite !length_map. split; assumption.
Qed.

(** X19. [train_network] up to the model: with a non-empty catalog and an
    instrument object on every part, a corpus of at most a hundred notes
    and chords makes it raise [ValueError]; a larger corpus of [n] notes
    and chords gives [n - 100] windows and [n - 100] target rows. *)
Theorem train_network_outcome
    (ri : list Instrument) (files : list Lstm.document) (g : Rng) :
  ri <> [] ->
  existsb lacks_instrument (List.concat files) = false ->
  let n := list_sum (map sounding_count (List.concat files)) in
  if (n <=? 100)%nat
  then Lstm.train_network ri files g = Raise ValueError
  else exists network_input network_output,
         Lstm.train_network ri files g = Ok (network_input, network_output) /\
         List.length network_input = n - 100 /\
         List.length network_output = n - 100.
Proof.
  intros Hne Hl n.
  destruct (get_notes_counts ri files g Hne Hl) as (notes & Hrun & Hlen).
  unfold Lstm.train_network. rewrite Hrun. cbn [bind]. fold n in Hlen.
  destruct (Nat.leb_spec n 100) as [Hle|Hgt].
  - apply prepare_sequences_short. lia.
  - rewrite <- Hlen. apply prepare_sequences_lengths. lia.
Qed.

Lemma train_network_outcome_witness :
  let files := [declared_document; example_document] in
  example_catalog <> [] /\
  existsb lacks_instrument (List.concat files) = false /\
  Lstm.train_network example_catalog files (constant_rng 0) = Raise ValueError.
Proof.
  intros files.
  assert (H1 : example_catalog <> []) by discriminate.
  assert (H2 : existsb lacks_instrument (List.concat files) = false) by reflexivity.
  split; [exact H1|]. split; [exact H2|].
  exact (train_network_outcome example_catalog files (constant_rng 0) H1 H2).
Defined.

(** ** What extraction writes, reconstruction reads *)

Lemma is_field_str_of_opt_int (o : option Z) :
  is_field (Py.str_of_opt_int o) = true.
Proof.
  destruct o as [z|]; [apply is_field_str_of_int | reflexivity].
Qed.

Lemma append_elements_well_formed (iid : option Z) (els : list Lstm.element) :
  forallb element_ok els = true ->
  Forall well_formed_token (fold_left (Lstm.append_element iid) els []).
Proof.
  induction els as [|el els IH]; [constructor|].
  cbn [forallb fold_left]. intros H. apply andb_true_iff in H as [Hel Hels].
  rewrite append_elements_app. apply Forall_app. split; [|now apply IH].
  pose proof (is_field_str_of_opt_int iid) as Hk.
  destruct el as [p ql off|ps ql off|]; cbn [Lstm.append_element app element_ok] in *.
  - apply andb_true_iff in Hel as [Hel Ho]. apply andb_true_iff in Hel as [Hp Hq].
    constructor; [|constructor].
    exists (Py.str_of_opt_int iid), [p], ql, off.
    assert (Hps : forallb is_field [p] = true) by (cbn; now rewrite Hp).
    split; [apply decode_token_encode_with; auto; discriminate|].
    repeat split; auto; discriminate.
  - apply andb_true_iff in Hel as [Hel Ho]. apply andb_true_iff in Hel as [Hel Hq].
    apply andb_true_iff in Hel as [Hne Hps].
    assert (Hne' : ps <> []) by (destruct ps; [discriminate Hne | discriminate]).
    constructor; [|constructor].
    exists (Py.str_of_opt_int iid), ps, ql, off.
    split; [apply decode_token_encode_with; auto|].
    repeat split; auto.
  - constructor.
Qed.

Lemma item_tokens_well_formed (iid : option Z) (it : Lstm.item) :
  item_ok it = true -> Forall well_formed_token (item_tokens iid it).
Proof.
  destruct it as [p ql off|[ins|] els|]; cbn [item_ok item_tokens]; intros H;
    try constructor.
  - apply andb_true_iff in H as [H Ho]. apply andb_true_iff in H as [Hp Hq].
    pose proof (is_field_str_of_opt_int iid) as Hk.
    exists (Py.str_of_opt_int iid), [p], ql, off.
    assert (Hps : forallb is_field [p] = true) by (cbn; now rewrite Hp).
    split; [apply decode_token_encode_with; auto; discriminate|].
    repeat split; auto; discriminate.
  - constructor.
  - now apply append_elements_well_formed.
Qed.

(** X20. Every token a finished [get_notes] returns for a corpus whose
    rendered pitches, durations and offsets are words, and whose chords
    have a pitch, is read back by the split of [create_midi] as an
    instrument field, at least one pitch, a duration and an offset: none of
    them is one of the tokens that reconstruction drops or rejects. *)
Theorem extracted_tokens_well_formed
    (ri : list Instrument) (files : list Lstm.document) (g g' : Rng)
    (notes : list token) :
  forallb item_ok (List.concat files) = true ->
  Lstm.get_notes ri files g = Ok (notes, g') ->
  Forall well_formed_token notes.
Proof.
  intros Hok Hrun. rewrite get_notes_flat in Hrun.
  destruct (extract_items_inv ri _ _ _ _ _ Hrun) as (_ & _ & toks & Hn & Hall).
  cbn [app] in Hn. subst notes. clear Hrun.
  induction Hall as [|it ts items toks (cls & _ & Hts) Hall IH]; [constructor|].
  cbn [forallb] in Hok. apply andb_true_iff in Hok as [Hit Hits].
  cbn [List.concat]. apply Forall_app. split; [|now apply IH].
  rewrite Hts. now apply item_tokens_well_formed.
Qed.

Lemma extracted_tokens_well_formed_witness :
  let files := [declared_document; example_document] in
  exists notes g',
    forallb item_ok (List.concat files) = true /\
    Lstm.get_notes example_catalog files (constant_rng 1) = Ok (notes, g') /\
    Forall well_formed_token notes.
Proof.
  intros files.
  assert (H1 : forallb item_ok (List.concat files) = true) by reflexivity.
  assert (H2 : { r | Lstm.get_notes example_catalog files (constant_rng 1) = Ok r })
    by (eexists; vm_compute; reflexivity).
  destruct H2 as [[notes g'] H2]. exists notes, g'.
  split; [exact H1|]. split; [exact H2|].
  exact (extracted_tokens_well_formed example_catalog files (constant_rng 1) g'
           notes H1 H2).
Defined.

(** X21. The instrument field written by [get_notes] and read by
    [create_midi]: the text of a program of the table resolves to the
    instrument of that program, silently and without a draw; the text
    [None] of a class without a program, and the text of a program outside
    the table, never resolve, so the part gets a drawn instrument and two
    lines are printed. *)
Theorem instrument_field_resolution
    (all_instruments : list Instrument)
    (instrumentFromMidiProgram : Z -> option Instrument)
    (iid : option Z) (log : list string) (g : Rng) :
  Predict.resolve_instrument all_instruments instrumentFromMidiProgram
    (Py.str_of_opt_int iid) log g
  = match match iid with
          | Some p => instrumentFromMidiProgram p
          | None => None
          end with
    | Some i => Ok (i, log, g)
    | None =>
        '(cls, g') <- Predict.get_random_instrument all_instruments g ;;
        Ok (cls,
            List.app log
              [Py.str_of_opt_int iid ++ ": WARNING: invalid instrument!";
               Predict.name_or_None cls ++ ": INFO: selected random!"],
            g')
    end.
Proof.
  unfold Predict.resolve_instrument.
  destruct iid as [p|]; cbn [Py.str_of_opt_int].
  - rewrite int_str_of_int. cbn [bind].
    destruct (instrumentFromMidiProgram p) as [i|]; cbn [of_option]; [reflexivity|].
    destruct (Predict.get_random_instrument all_instruments g) as [[cls g']|e];
      cbn [bind]; [|reflexivity].
    now rewrite <- app_assoc.
  - replace (Num.int "None") with (@Raise Z ValueError) by reflexivity.
    cbn [bind].
    destruct (Predict.get_random_instrument all_instruments g) as [[cls g']|e];
      cbn [bind]; [|reflexivity].
    now rewrite <- app_assoc.
Qed.

(** ** The target rows *)

Lemma nth_error_seq0 (w j : nat) : j < w -> nth_error (seq 0 w) j = Some j.
Proof.
  intros H. rewrite (nth_error_nth' _ 0) by (now rewrite length_seq).
  now rewrite seq_nth.
Qed.

Lemma Forall_skipn {A : Type} (P : A -> Prop) (n : nat) (l : list A) :
  Forall P l -> Forall P (skipn n l).
Proof.
  intros H. rewrite <- (firstn_skipn n l) in H. now apply Forall_app in H.
Qed.

Lemma list_max_In (l : list nat) : l <> [] -> In (list_max l) l.
Proof.
  induction l as [|a l IH]; [congruence|]. intros _.
  change (list_max (a :: l)) with (Nat.max a (list_max l)).
  destruct l as [|b l'].
  - left. cbn. lia.
  - destruct (Nat.max_spec a (list_max (b :: l'))) as [[_ H]|[_ H]]; rewrite H.
    + right. apply IH. discriminate.
    + now left.
Qed.

(** The targets of the training loop are the ids from position 100 on. *)
Lemma training_targets (notes : list token) (ids : list nat)
    (network_input : list (list nat)) (network_output : list nat) :
  100 < List.length notes ->
  mapM (Dict.lookup (make_note_to_int (Lstm.pitchnames_of notes))) notes = Ok ids ->
  Lstm.training_samples notes = Ok (network_input, network_output) ->
  network_output = skipn 100 ids.
Proof.
  intros HM Hids Hrun.
  destruct (training_samples_spec notes HM)
    as (ids' & ins & outs & Hids' & Hrun' & Hli & Hlo & Hnth).
  rewrite Hids in Hids'. injection Hids' as <-.
  rewrite Hrun in Hrun'. injection Hrun' as <- <-.
  pose proof (mapM_length _ _ _ Hids) as Hlen.
  apply nth_error_ext. intros i. rewrite nth_error_skipn.
  destruct (Nat.lt_ge_cases i (List.length notes - 100)) as [Hi|Hi].
  - destruct (Hnth i Hi) as [_ Ho]. rewrite Ho. f_equal. lia.
  - transitivity (@None nat); [|symmetry]; apply nth_error_None; lia.
Qed.

(** X22. The target array of [prepare_sequences] of [lstm.py] is one-hot:
    row [i] holds a one at the id of token [i + 100] and zeros elsewhere.
    Its width is one more than the largest id among the targets, which is
    at most [n_vocab] and is not [n_vocab] itself unless the last pitch
    name occurs after the first hundred tokens. *)
Theorem targets_one_hot (notes : list token) (ids : list nat) :
  100 < List.length notes ->
  mapM (Dict.lookup (make_note_to_int (Lstm.pitchnames_of notes))) notes = Ok ids ->
  exists network_input network_output,
    Lstm.prepare_sequences notes (Lstm.n_vocab_of notes)
    = Ok (network_input, network_output) /\
    let width := S (list_max (skipn 100 ids)) in
    width <= Lstm.n_vocab_of notes /\
    (width = Lstm.n_vocab_of notes <->
     In (Lstm.n_vocab_of notes - 1) (skipn 100 ids)) /\
    forall i, i < List.length notes - 100 ->
      exists c row,
        nth_error ids (i + 100) = Some c /\
        nth_error network_output i = Some row /\
        List.length row = width /\
        forall j, j < width ->
          nth_error row j = Some (if (j =? c)%nat then 1 else 0).
Proof.
  intros HM Hids.
  destruct (training_samples_spec notes HM)
    as (ids' & ins & outs & Hids' & Hrun & Hli & Hlo & Hnth).
  rewrite Hids in Hids'. injection Hids' as <-.
  pose proof (training_targets notes ids ins outs HM Hids Hrun) as Houts.
  pose proof (Forall_skipn _ 100 _ (corpus_ids_in_range notes ids Hids)) as Hrange.
  unfold Lstm.prepare_sequences. rewrite Hrun. cbn [bind].
  rewrite <- Houts in *.
  destruct outs as [|o outs'] eqn:Eo; [cbn in Hlo; lia|]. rewrite <- Eo in *.
  assert (Hcat : Lstm.to_categorical outs
                 = Ok (map (fun c => map (fun j => if (j =? c)%nat then 1 else 0)
                                         (seq 0 (S (list_max outs)))) outs))
    by (rewrite Eo; reflexivity).
  rewrite Hcat. cbn [bind]. eexists. eexists. split; [reflexivity|].
  assert (Hne : outs <> []) by (rewrite Eo; discriminate).
  cbv zeta. split; [|split].
  - apply (list_max_lt (Lstm.n_vocab_of notes) Hne). exact Hrange.
  - split.
    + intros Hw. replace (Lstm.n_vocab_of notes - 1) with (list_max outs) by lia.
      apply list_max_In, Hne.
    + intros Hin.
      assert (Hle : Lstm.n_vocab_of notes - 1 <= list_max outs).
      { pose proof (proj1 (list_max_le outs (list_max outs)) (Nat.le_refl _)) as Hall.
        rewrite Forall_forall in Hall. now apply Hall. }
      pose proof (proj2 (list_max_lt (Lstm.n_vocab_of notes) Hne) Hrange). lia.
  - intros i Hi. destruct (Hnth i Hi) as [_ Ho].
    destruct (nth_error outs i) as [c|] eqn:Ec.
    2:{ apply nth_error_None in Ec. lia. }
    exists c. eexists. split; [now rewrite <- Ho|].
    split; [rewrite nth_error_map, Ec; reflexivity|].
    split; [now rewrite length_map, length_seq|].
    intros j Hj. rewrite nth_error_map, nth_error_seq0 by exact Hj. reflexivity.
Qed.

Lemma targets_one_hot_witness :
  let notes := (repeat "40 E4 G4 1/3 2.0" 60 ++ repeat "0 C4 1.0 0.0" 42)%list in
  let ids := (repeat 1 60 ++ repeat 0 42)%list in
  100 < List.length notes /\
  mapM (Dict.lookup (make_note_to_int (Lstm.pitchnames_of notes))) notes = Ok ids /\
  exists network_input network_output,
    Lstm.prepare_sequences notes (Lstm.n_vocab_of notes)
    = Ok (network_input, network_output) /\
    let width := S (list_max (skipn 100 ids)) in
    width <= Lstm.n_vocab_of notes /\
    (width = Lstm.n_vocab_of notes <->
     In (Lstm.n_vocab_of notes - 1) (skipn 100 ids)) /\
    forall i, i < List.length notes - 100 ->
      exists c row,
        nth_error ids (i + 100) = Some c /\
        nth_error network_output i = Some row /\
        List.length row = width /\
        forall j, j < width ->
          nth_error row j = Some (if (j =? c)%nat then 1 else 0).
Proof.
  intros notes ids.
  assert (H1 : 100 < List.length notes)
    by (unfold notes; rewrite length_app, !repeat_length; lia).
  assert (H2 : mapM (Dict.lookup (make_note_to_int (Lstm.pitchnames_of notes))) notes
               = Ok ids) by (vm_compute; reflexivity).
  split; [exact H1|]. split; [exact H2|].
  exact (targets_one_hot notes ids H1 H2).
Defined.

(** ** A whole generation run *)

Lemma first_occurrences_length (ks : list string) :
  List.length (first_occurrences ks) <= List.length ks.
Proof.
  induction ks as [|k ks IH]; [reflexivity|]. cbn [first_occurrences List.length].
  pose proof (filter_length_le (fun k' => negb (String.eqb k k'))
                (first_occurrences ks)). lia.
Qed.

Lemma np_randint_draw (n : nat) (g : Rng) :
  2 <= n ->
  exists s, s + 2 <= n /\
    np_randint 0 (Z.of_nat n - 1) g = Ok (Z.of_nat s, snd (next g)).
Proof.
  intros Hn. unfold np_randint.
  destruct (Z.of_nat n - 1 <=? 0)%Z eqn:E; [apply Z.leb_le in E; lia|].
  destruct (next g) as [r g1]. cbn [snd].
  pose proof (Z.mod_pos_bound (Z.of_nat r) (Z.of_nat n - 1 - 0)) as Hb.
  exists (Z.to_nat (Z.of_nat r mod (Z.of_nat n - 1 - 0))).
  split; [lia|]. do 2 f_equal. lia.
Qed.

(** X23. [generate] returns whenever the corpus has at least 66 tokens, the
    model that [create_network] built answers every window with a non-empty
    row no wider than the vocabulary, the catalog is not empty, every
    corpus token is readable by [create_midi] and the library calls
    return: it then makes one draw from numpy's generator, fills between
    one and 500 parts and writes the score music21 makes of them. *)
Theorem generate_returns
    (model_predict : list (list Num.pyfloat) -> result (list Q))
    (all_instruments : list Instrument)
    (instrumentFromMidiProgram : Z -> option Instrument)
    (lib : Predict.Library) (optimizer : Z)
    (notes : list token) (np_rng py_rng : Rng) :
  66 <= List.length notes ->
  well_formed_model model_predict (Lstm.pitchnames_of notes) ->
  all_instruments <> [] ->
  library_returns lib ->
  Forall (fun t => is_ok (decode_event t) = true) notes ->
  exists st fp raws,
    Predict.generate model_predict all_instruments instrumentFromMidiProgram
      lib optimizer notes np_rng py_rng = Ok (st, fp, snd (next np_rng)) /\
    score_of lib optimizer raws (Predict.midi_stream st) /\
    1 <= List.length raws <= 500 /\
    Predict.write lib (Predict.midi_stream st) fp = Ok tt.
Proof.
  intros HM Hmodel Hcat Hlib Hdec. unfold Predict.generate. cbv zeta.
  destruct (generate_windows notes) as (ids & ins & Hids & Hlen & Hprep & Hli & Hnth).
  fold (Lstm.pitchnames_of notes). fold (Lstm.n_vocab_of notes).
  rewrite Hprep. cbn [bind].
  destruct (np_randint_draw (List.length ins) np_rng) as (s & Hs & Hseed); [lia|].
  unfold Predict.generate_notes, Predict.seed_start, len. rewrite Hseed. cbn [bind].
  rewrite index_Z_of_nat, (Hnth s) by lia. cbn [of_option bind].
  destruct (generate_loop_ok model_predict (Lstm.pitchnames_of notes)
              (Lstm.n_vocab_of notes) Hmodel 500
              (Predict.mkGen (Py.slice ids s (s + 64)) []))
    as (st' & Hrun & _ & Hout).
  rewrite Hrun. cbn [bind].
  destruct (generate_loop_trace _ _ _ _ _ _ Hrun) as (idxs & toks & _ & Hall & Ho & _).
  cbn [Predict.prediction_output app List.length] in Ho, Hout.
  rewrite Nat.add_0_r in Hout.
  assert (Hk : exists kes, mapM decode_event (Predict.prediction_output st') = Ok kes).
  { apply mapM_total. intros t Ht. rewrite Ho in Ht.
    assert (Hin : In t notes).
    { apply pitchnames_of_In. clear - Hall Ht.
      induction Hall as [|i t' idxs toks Hi Hall IH]; [destruct Ht|].
      destruct Ht as [<-|Ht]; [eapply nth_error_In, Hi | now apply IH]. }
    rewrite Forall_forall in Hdec. specialize (Hdec t Hin).
    destruct (decode_event t) as [r|e]; [now exists r | discriminate Hdec]. }
  destruct Hk as (kes & Hkes).
  assert (Hd : Predict.decode_tokens (Predict.prediction_output st')
               = Ok (fold_left add_events kes [])).
  { unfold Predict.decode_tokens. rewrite decode_tokens_fold, Hkes. reflexivity. }
  destruct (create_midi_returns all_instruments instrumentFromMidiProgram lib
              optimizer _ _ py_rng Hcat Hlib Hd) as (st & fp & Hst).
  rewrite Hst. cbn [bind].
  destruct (create_midi_inv _ _ _ _ _ _ _ _ Hst)
    as (d & raws & g0 & words & g1 & picked & Hd' & Hb & Hscore & _ & _ & _ & _ & Hw).
  rewrite Hd in Hd'. injection Hd' as <-.
  exists st, fp, raws. split; [reflexivity|]. split; [exact Hscore|].
  split; [|exact Hw].
  destruct (build_parts_inv _ _ _ _ _ _ _ _ _ Hb) as (Hraws & _).
  destruct (decode_tokens_grouped _ _ Hd) as (kes' & Hkes' & Hkeys & _).
  rewrite Hkes in Hkes'. injection Hkes' as <-.
  pose proof (mapM_length _ _ _ Hkes) as Hl.
  rewrite Hraws, Hkeys.
  pose proof (first_occurrences_length (map fst kes)) as Hle.
  rewrite length_map in Hle. split; [|lia].
  destruct kes as [|[k evs] kes]; [cbn in Hl; lia|]. cbn. lia.
Qed.

Lemma generate_returns_witness :
  let model := fun _ : list (list Num.pyfloat) => Ok [(1 # 4)%Q; (3 # 4)%Q] in
  let notes := (repeat "40 E4 G4 1/3 2.0" 30 ++ repeat "None C4 1.0 0.0" 36)%list in
  66 <= List.length notes /\
  well_formed_model model (Lstm.pitchnames_of notes) /\
  example_catalog <> [] /\
  library_returns example_library /\
  Forall (fun t => is_ok (decode_event t) = true) notes /\
  exists st fp raws,
    Predict.generate model example_catalog example_table example_library 1 notes
      (constant_rng 7) (constant_rng 1) = Ok (st, fp, snd (next (constant_rng 7))) /\
    score_of example_library 1 raws (Predict.midi_stream st) /\
    1 <= List.length raws <= 500 /\
    Predict.write example_library (Predict.midi_stream st) fp = Ok tt.
Proof.
  intros model notes.
  assert (H1 : 66 <= List.length notes)
    by (unfold notes; rewrite length_app, !repeat_length; lia).
  assert (H2 : well_formed_model model (Lstm.pitchnames_of notes)).
  { intros x. exists [(1 # 4)%Q; (3 # 4)%Q]. split; [reflexivity|].
    split; [discriminate | vm_compute; lia]. }
  assert (H3 : example_catalog <> []) by discriminate.
  assert (H4 : Forall (fun t => is_ok (decode_event t) = true) notes).
  { apply Forall_app. split; apply Forall_forall; intros t Ht;
      apply repeat_spec in Ht; rewrite Ht; vm_compute; reflexivity. }
  split; [exact H1|]. split; [exact H2|]. split; [exact H3|].
  split; [exact example_library_returns|]. split; [exact H4|].
  exact (generate_returns model example_catalog example_table example_library 1
           notes (constant_rng 7) (constant_rng 1) H1 H2 H3
           example_library_returns H4).
Defined.
